(** * NVMe-Strom: registry of mapped GPU memory and DMA tasks

    A shallow embedding of [nvme-strom.c].  Kernel objects live in two
    heaps indexed by their address (a handle is the address of its own
    object); the two hash-sharded registries are arrays of chains of
    addresses, newest entry first as [list_add] leaves them.  Calls into
    the NVIDIA driver, the scheduler and the allocator are recorded as
    events; [BUG_ON] and the dereference of a dead pointer halt. *)

From stdpp Require Import gmap list.
From Stdlib Require Import ZArith Lia Ascii.

Local Open Scope Z_scope.

(** ** Constants *)

Definition GPU_BOUND_SHIFT : Z := 16.
Definition GPU_BOUND_SIZE : Z := Z.shiftl 1 GPU_BOUND_SHIFT.
Definition GPU_BOUND_OFFSET : Z := GPU_BOUND_SIZE - 1.
(** [~GPU_BOUND_OFFSET] on a 64-bit [u64]. *)
Definition GPU_BOUND_MASK : Z := Z.lxor (Z.ones 64) GPU_BOUND_OFFSET.

Definition MAPPED_GPU_MEMORY_NSLOTS : Z := 48.
Definition STROM_DMA_TASK_NSLOTS : Z := 100.

(** Linux error numbers. *)
Definition ENOENT : Z := 2.
Definition ENOMEM : Z := 12.
Definition EFAULT : Z := 14.
Definition EINVAL : Z := 22.

(** [unsigned long] arithmetic wraps at 64 bits. *)
Definition ulong (x : Z) : Z := x mod 2 ^ 64.

(** [int] arithmetic wraps at 32 bits (the kernel is built with
    [-fno-strict-overflow]): [INT_MAX + 1] is [INT_MIN]. *)
Definition INT_MAX : Z := 2147483647.
Definition sint (x : Z) : Z := (x + 2 ^ 31) mod 2 ^ 32 - 2 ^ 31.

(** ** Data *)

(** The page-size tag of [nvidia_p2p_page_table_t] ([nv-p2p.h]); every
    value the driver does not name is kept as [NVIDIA_P2P_PAGE_SIZE_OTHER]. *)
Inductive nvidia_p2p_page_size_type :=
| NVIDIA_P2P_PAGE_SIZE_4KB
| NVIDIA_P2P_PAGE_SIZE_64KB
| NVIDIA_P2P_PAGE_SIZE_128KB
| NVIDIA_P2P_PAGE_SIZE_OTHER (code : Z).

(** [pt_pages] holds [pages[i]->physical_address]; [entries] is its length. *)
Record nvidia_p2p_page_table := {
  pt_version : Z;
  pt_page_size : nvidia_p2p_page_size_type;
  pt_pages : list Z
}.

Definition pt_entries (pt : nvidia_p2p_page_table) : Z :=
  Z.of_nat (length (pt_pages pt)).

(** [refcnt] is an [int]; the other integers are [unsigned long]. *)
Record mapped_gpu_memory := {
  refcnt : Z;
  owner : Z;
  handle : Z;
  map_address : Z;
  map_offset : Z;
  map_length : Z;
  wait_task : option Z;
  page_size : Z;
  page_table : option nvidia_p2p_page_table
}.

Definition set_refcnt (n : Z) (m : mapped_gpu_memory) : mapped_gpu_memory :=
  {| refcnt := n; owner := owner m; handle := handle m;
     map_address := map_address m; map_offset := map_offset m;
     map_length := map_length m; wait_task := wait_task m;
     page_size := page_size m; page_table := page_table m |}.

Definition set_wait_task (w : option Z) (m : mapped_gpu_memory)
  : mapped_gpu_memory :=
  {| refcnt := refcnt m; owner := owner m; handle := handle m;
     map_address := map_address m; map_offset := map_offset m;
     map_length := map_length m; wait_task := w;
     page_size := page_size m; page_table := page_table m |}.

Record StromCmd__MapGpuMemory := {
  vaddress : Z;
  cmd_length : Z
}.

Record StromCmd__InfoGpuMemory := {
  info_handle : Z;
  info_nrooms : Z
}.

(** What [__nvidia_p2p_get_pages] hands back: its return code and the
    table it stored through [&mgmem->page_table] (read only when the
    code is zero). *)
Record p2p_get_pages_result := {
  gp_rc : Z;
  gp_table : nvidia_p2p_page_table
}.

Record strom_dma_pages := {
  nitems : Z;
  nrooms : Z;
  pages : list Z
}.

Inductive strom_dma_chunk :=
| ChunkMemory (host_addr : Z) (len : Z)
| ChunkFile (file_pos : Z) (len : Z)
| ChunkInvalid (source : Z).

Record strom_dma_task := {
  dma_task_id : Z;
  mgmem : Z;
  filp : option Z;
  dt_wait_task : option Z;
  dma_pages_list : list strom_dma_pages;
  chunks : list strom_dma_chunk
}.

Definition nchunks (dtask : strom_dma_task) : Z :=
  Z.of_nat (length (chunks dtask)).

Definition set_dt_wait_task (w : option Z) (d : strom_dma_task)
  : strom_dma_task :=
  {| dma_task_id := dma_task_id d; mgmem := mgmem d; filp := filp d;
     dt_wait_task := w; dma_pages_list := dma_pages_list d;
     chunks := chunks d |}.

Record strom_dma_state := {
  gpu_page_sz : Z;
  gpu_entries : Z;
  gpu_pages : list Z;
  curr_offset : Z;
  curr_src_addr : Z;
  curr_src_size : Z;
  curr_src_block : Z;
  curr_num_blocks : Z;
  curr_dst_addr : Z;
  curr_dst_size : Z
}.

(** One asynchronous copy handed to the DMA engine. *)
Record dma_descriptor := {
  d_src_addr : Z;
  d_src_len : Z;
  d_dst_addr : Z;
  d_dst_len : Z
}.

(** Calls that leave the module. *)
Inductive event :=
| EvWakeUpProcess (task : Z)
| EvP2PGetPages (mgmem_addr : Z) (addr len : Z)
| EvP2PPutPages (mgmem_addr : Z)
| EvP2PFreePageTable (mgmem_addr : Z)
| EvKfree (ptr : Z)
| EvFput (file : Z)
| EvPutPage (page : Z).

(** Kernel memory owned by the module. *)
Record kstate := {
  mgmem_heap : gmap Z mapped_gpu_memory;
  strom_mgmem_slots : list (list Z);
  dtask_heap : gmap Z strom_dma_task;
  strom_dma_task_slots : list (list Z)
}.

Definition set_mgmem_heap (h : gmap Z mapped_gpu_memory) (s : kstate) : kstate :=
  {| mgmem_heap := h; strom_mgmem_slots := strom_mgmem_slots s;
     dtask_heap := dtask_heap s;
     strom_dma_task_slots := strom_dma_task_slots s |}.

Definition set_mgmem_slots (l : list (list Z)) (s : kstate) : kstate :=
  {| mgmem_heap := mgmem_heap s; strom_mgmem_slots := l;
     dtask_heap := dtask_heap s;
     strom_dma_task_slots := strom_dma_task_slots s |}.

Definition set_dtask_heap (h : gmap Z strom_dma_task) (s : kstate) : kstate :=
  {| mgmem_heap := mgmem_heap s; strom_mgmem_slots := strom_mgmem_slots s;
     dtask_heap := h;
     strom_dma_task_slots := strom_dma_task_slots s |}.

Definition set_dtask_slots (l : list (list Z)) (s : kstate) : kstate :=
  {| mgmem_heap := mgmem_heap s; strom_mgmem_slots := strom_mgmem_slots s;
     dtask_heap := dtask_heap s;
     strom_dma_task_slots := l |}.

(** What [nvme_strom_init] sets up: every chain empty. *)
Definition nvme_strom_init : kstate :=
  {| mgmem_heap := ∅;
     strom_mgmem_slots := replicate (Z.to_nat MAPPED_GPU_MEMORY_NSLOTS) [];
     dtask_heap := ∅;
     strom_dma_task_slots := replicate (Z.to_nat STROM_DMA_TASK_NSLOTS) [] |}.

(** ** The kernel monad: state, emitted events, and [BUG()] *)

Inductive outcome (A : Type) :=
| Ok (a : A)
| Bug.
Arguments Ok {A} a.
Arguments Bug {A}.

Definition K (A : Type) : Type := kstate → outcome (A * kstate * list event).

Definition kret {A} (a : A) : K A := λ s, Ok (a, s, []).

Definition kbind {A B} (c : K A) (f : A → K B) : K B :=
  λ s, match c s with
       | Bug => Bug
       | Ok (a, s1, e1) =>
           match f a s1 with
           | Bug => Bug
           | Ok (b, s2, e2) => Ok (b, s2, e1 ++ e2)
           end
       end.

Global Instance K_ret : MRet K := @kret.
Global Instance K_bind : MBind K := λ A B f c, kbind c f.

Definition BUG_ON (c : bool) : K unit :=
  λ s, if c then Bug else Ok (tt, s, []).

Definition emit (e : event) : K unit := λ s, Ok (tt, s, [e]).

Definition load_mgmem (p : Z) : K mapped_gpu_memory :=
  λ s, match mgmem_heap s !! p with
       | Some m => Ok (m, s, [])
       | None => Bug
       end.

Definition store_mgmem (p : Z) (m : mapped_gpu_memory) : K unit :=
  λ s, Ok (tt, set_mgmem_heap (<[p := m]> (mgmem_heap s)) s, []).

Definition kfree_mgmem (p : Z) : K unit :=
  λ s, Ok (tt, set_mgmem_heap (delete p (mgmem_heap s)) s, [EvKfree p]).

Definition load_dtask (p : Z) : K strom_dma_task :=
  λ s, match dtask_heap s !! p with
       | Some d => Ok (d, s, [])
       | None => Bug
       end.

Definition store_dtask (p : Z) (d : strom_dma_task) : K unit :=
  λ s, Ok (tt, set_dtask_heap (<[p := d]> (dtask_heap s)) s, []).

Definition kfree_dtask (p : Z) : K unit :=
  λ s, Ok (tt, set_dtask_heap (delete p (dtask_heap s)) s, [EvKfree p]).

Definition chain_at (slots : list (list Z)) (index : nat) : list Z :=
  default [] (slots !! index).

Definition read_mgmem_slot (index : nat) : K (list Z) :=
  λ s, Ok (chain_at (strom_mgmem_slots s) index, s, []).

Definition write_mgmem_slot (index : nat) (chain : list Z) : K unit :=
  λ s, Ok (tt, set_mgmem_slots (<[index := chain]> (strom_mgmem_slots s)) s, []).

Definition read_dtask_slot (index : nat) : K (list Z) :=
  λ s, Ok (chain_at (strom_dma_task_slots s) index, s, []).

Definition write_dtask_slot (index : nat) (chain : list Z) : K unit :=
  λ s, Ok (tt, set_dtask_slots (<[index := chain]> (strom_dma_task_slots s)) s, []).

(** [list_del]: unlink the one node of [p]. *)
Fixpoint list_del (p : Z) (chain : list Z) : list Z :=
  match chain with
  | [] => []
  | q :: rest => if decide (q = p) then rest else q :: list_del p rest
  end.

(** ** The driver's functions *)

(** [arch_fast_hash(&key, sizeof(unsigned long), seed)] belongs to the
    kernel; the driver only reduces its result modulo a slot count. *)
Class ArchFastHash := arch_fast_hash : Z → Z → Z.

Section Strom.

Context {kernel_hash : ArchFastHash}.

Definition strom_mapped_gpu_memory_index (h : Z) : nat :=
  Z.to_nat ((arch_fast_hash h 0x20140702 mod 2 ^ 32)
            mod MAPPED_GPU_MEMORY_NSLOTS).

Definition strom_dma_task_index (id : Z) : nat :=
  Z.to_nat ((arch_fast_hash id 0x20120106 mod 2 ^ 32)
            mod STROM_DMA_TASK_NSLOTS).

(** The [list_for_each_entry] loop shared by [strom_get_mapped_gpu_memory]
    and [__strom_clenup_mapped_gpu_memory]: skip entries with another
    handle, run the two sanity checks on the first match. *)
Fixpoint mgmem_chain_find (heap : gmap Z mapped_gpu_memory) (h : Z)
    (chain : list Z) : outcome (option Z) :=
  match chain with
  | [] => Ok None
  | p :: rest =>
      match heap !! p with
      | None => Bug
      | Some m =>
          if decide (handle m = h) then
            if decide (p = h) then
              match page_table m with
              | Some _ => Ok (Some p)
              | None => Bug
              end
            else Bug
          else mgmem_chain_find heap h rest
      end
  end.

Definition mgmem_lookup (h : Z) (chain : list Z) : K (option Z) :=
  λ s, match mgmem_chain_find (mgmem_heap s) h chain with
       | Ok r => Ok (r, s, [])
       | Bug => Bug
       end.

Definition strom_get_mapped_gpu_memory (h : Z) : K (option Z) :=
  let index := strom_mapped_gpu_memory_index h in
  slot ← read_mgmem_slot index;
  found ← mgmem_lookup h slot;
  match found with
  | Some p =>
      m ← load_mgmem p;
      store_mgmem p (set_refcnt (sint (refcnt m + 1)) m);;
      mret (Some p)
  | None => mret None
  end.

(** [mgmem->refcnt--] runs past the assertion, on a value that is at
    least 1: it cannot wrap. *)
Definition __strom_put_mapped_gpu_memory (p : Z) : K unit :=
  m ← load_mgmem p;
  BUG_ON (refcnt m <? 1);;
  let m1 := set_refcnt (refcnt m - 1) m in
  store_mgmem p m1;;
  if refcnt m1 =? 0 then
    match wait_task m1 with
    | Some t =>
        emit (EvWakeUpProcess t);;
        store_mgmem p (set_wait_task None m1)
    | None => mret tt
    end
  else mret tt.

(** The mutex is taken on the slot of [mgmem->handle]; a critical
    section is one atomic run of the monad. *)
Definition strom_put_mapped_gpu_memory (p : Z) : K unit :=
  __strom_put_mapped_gpu_memory p.

(** [__strom_clenup_mapped_gpu_memory], cut where the caller can sleep.
    First part: up to the [mutex_unlock] of line 223, 232 or 249. *)
Inductive clenup_status :=
| ClenupNotFound
| ClenupSleep (p : Z) (wait_task_saved : option Z)
| ClenupDrained (p : Z).

Definition clenup_detach (current h : Z) : K clenup_status :=
  let index := strom_mapped_gpu_memory_index h in
  slot ← read_mgmem_slot index;
  found ← mgmem_lookup h slot;
  match found with
  | Some p =>
      write_mgmem_slot index (list_del p slot);;
      m ← load_mgmem p;
      if 0 <? refcnt m then
        store_mgmem p (set_wait_task (Some current) m);;
        mret (ClenupSleep p (wait_task m))
      else mret (ClenupDrained p)
  | None => mret ClenupNotFound
  end.

(** Second part, after [schedule()] returns: lines 226 to 232. *)
Definition clenup_resume (p : Z) (wait_task_saved : option Z) : K unit :=
  match wait_task_saved with
  | Some t => emit (EvWakeUpProcess t)
  | None => mret tt
  end;;
  m ← load_mgmem p;
  BUG_ON (refcnt m =? 0).

(** Last part: lines 238 to 247; returns 0. *)
Definition clenup_release (p : Z) : K Z :=
  _ ← load_mgmem p;
  emit (EvP2PFreePageTable p);;
  kfree_mgmem p;;
  mret 0.

(** The whole function for a caller that is never put to sleep; [None]
    stands for a caller left in [schedule()]. *)
Definition __strom_clenup_mapped_gpu_memory (current h : Z)
  : K (option Z) :=
  st ← clenup_detach current h;
  match st with
  | ClenupNotFound => mret (Some (- ENOENT))
  | ClenupDrained p => rc ← clenup_release p; mret (Some rc)
  | ClenupSleep _ _ => mret None
  end.

Definition strom_ioctl_unmap_gpu_memory (current : Z) (karg : option Z)
  : K (option Z) :=
  match karg with
  | None => mret (Some (- EFAULT))
  | Some h => __strom_clenup_mapped_gpu_memory current h
  end.

Definition classify_page_size (t : nvidia_p2p_page_size_type) : option Z :=
  match t with
  | NVIDIA_P2P_PAGE_SIZE_4KB => Some (4 * 1024)
  | NVIDIA_P2P_PAGE_SIZE_64KB => Some (64 * 1024)
  | NVIDIA_P2P_PAGE_SIZE_128KB => Some (128 * 1024)
  | NVIDIA_P2P_PAGE_SIZE_OTHER _ => None
  end.

(** [strom_ioctl_map_gpu_memory].  The environment supplies: [karg], the
    command read by [copy_from_user] ([None] when it faults); [kmalloc],
    the address of the new object ([None] for NULL); [tgid];
    [get_pages], the answer of the NVIDIA driver; and whether [put_user]
    of the handle succeeds.  Returns the code and the handle stored in
    [uarg->handle].

    The function takes the mutex only for [list_add]; it is cut there.
    First part, lines 276 to 352: the object is filled in and pinned,
    the handle is copied out; on success the object is complete and on
    no chain, and from line 295 on the NVIDIA driver holds
    [strom_cleanup_mapped_gpu_memory] as the callback for it. *)
Definition map_gpu_memory_pin (karg : option StromCmd__MapGpuMemory)
    (kmalloc : option Z) (tgid : Z) (get_pages : p2p_get_pages_result)
    (put_user_ok : bool) : K (Z * option Z) :=
  match karg with
  | None => mret (- EFAULT, None)
  | Some karg =>
      match kmalloc with
      | None => mret (- ENOMEM, None)
      | Some p =>
          let map_address := Z.land (vaddress karg) GPU_BOUND_MASK in
          let map_offset := Z.land (vaddress karg) GPU_BOUND_OFFSET in
          let map_length := ulong (map_offset + cmd_length karg) in
          emit (EvP2PGetPages p map_address map_length);;
          if decide (gp_rc get_pages = 0) then
            match classify_page_size (pt_page_size (gp_table get_pages)) with
            | Some psz =>
                if put_user_ok then
                  store_mgmem p
                    {| refcnt := 0; owner := tgid; handle := p;
                       map_address := map_address; map_offset := map_offset;
                       map_length := map_length; wait_task := None;
                       page_size := psz;
                       page_table := Some (gp_table get_pages) |};;
                  mret (0, Some p)
                else
                  emit (EvP2PPutPages p);;
                  emit (EvKfree p);;
                  mret (- EFAULT, None)
            | None =>
                emit (EvP2PPutPages p);;
                emit (EvKfree p);;
                mret (- EINVAL, None)
            end
          else
            emit (EvKfree p);;
            mret (gp_rc get_pages, None)
      end
  end.

(** Second part, lines 355 to 358: attach the object to its chain. *)
Definition map_gpu_memory_attach (p : Z) : K unit :=
  let index := strom_mapped_gpu_memory_index p in
  slot ← read_mgmem_slot index;
  write_mgmem_slot index (p :: slot).

(** The whole function, for a caller that no one runs in between. *)
Definition strom_ioctl_map_gpu_memory (karg : option StromCmd__MapGpuMemory)
    (kmalloc : option Z) (tgid : Z) (get_pages : p2p_get_pages_result)
    (put_user_ok : bool) : K (Z * option Z) :=
  r ← map_gpu_memory_pin karg kmalloc tgid get_pages put_user_ok;
  match snd r with
  | Some p => map_gpu_memory_attach p;; mret r
  | None => mret r
  end.

(** What [strom_ioctl_info_gpu_memory] leaves in the caller's buffer:
    the header [(version, page_size, entries)] when [copy_to_user]
    succeeded, and the entries of [physical_address[]] it stored. *)
Record info_user_buffer := {
  out_header : option (Z * Z * Z);
  out_physical_address : list Z
}.

(** The copy loop of lines 417 to 427, from index [i] on. *)
Fixpoint info_copy_pages (i n_rooms : Z) (put_user_ok : Z → bool)
    (rest : list Z) (rc : Z) : Z * list Z :=
  match rest with
  | [] => (rc, [])
  | a :: rest' =>
      if n_rooms <=? i then (rc, [])
      else if put_user_ok i then
        let '(rc', out) := info_copy_pages (i + 1) n_rooms put_user_ok rest' rc in
        (rc', a :: out)
      else (- EFAULT, [])
  end.

Definition strom_ioctl_info_gpu_memory (karg : option StromCmd__InfoGpuMemory)
    (copy_to_user_ok : bool) (put_user_ok : Z → bool)
  : K (Z * info_user_buffer) :=
  match karg with
  | None => mret (- EFAULT, {| out_header := None; out_physical_address := [] |})
  | Some karg =>
      found ← strom_get_mapped_gpu_memory (info_handle karg);
      match found with
      | None =>
          mret (- ENOENT, {| out_header := None; out_physical_address := [] |})
      | Some p =>
          m ← load_mgmem p;
          match page_table m with
          | None => λ _, Bug
          | Some pt =>
              let hdr := (pt_version pt, page_size m, pt_entries pt) in
              let rc := if copy_to_user_ok then 0 else - EFAULT in
              let '(rc, out) :=
                info_copy_pages 0 (info_nrooms karg) put_user_ok (pt_pages pt) rc in
              strom_put_mapped_gpu_memory p;;
              mret (rc, {| out_header :=
                             if copy_to_user_ok then Some hdr else None;
                           out_physical_address := out |})
          end
      end
  end.

(** *** DMA tasks *)

Fixpoint dtask_chain_find (heap : gmap Z strom_dma_task) (id : Z)
    (chain : list Z) : outcome (option Z) :=
  match chain with
  | [] => Ok None
  | p :: rest =>
      match heap !! p with
      | None => Bug
      | Some d =>
          if decide (dma_task_id d = id) then Ok (Some p)
          else dtask_chain_find heap id rest
      end
  end.

Definition dtask_lookup (id : Z) (chain : list Z) : K (option Z) :=
  λ s, match dtask_chain_find (dtask_heap s) id chain with
       | Ok r => Ok (r, s, [])
       | Bug => Bug
       end.

Definition strom_cleanup_dma_task (id : Z) : K unit :=
  let index := strom_dma_task_index id in
  slot ← read_dtask_slot index;
  found ← dtask_lookup id slot;
  match found with
  | Some p =>
      dtask ← load_dtask p;
      write_dtask_slot index (list_del p slot);;
      strom_put_mapped_gpu_memory (mgmem dtask);;
      match filp dtask with
      | Some f => emit (EvFput f)
      | None => mret tt
      end;;
      match dt_wait_task dtask with
      | Some t => emit (EvWakeUpProcess t)
      | None => mret tt
      end;;
      kfree_dtask p
  | None => mret tt
  end.

(** [strom_memcpy_ssd2gpu_wait], cut at [schedule()]. *)
Inductive wait_status :=
| WaitReturned (rc : Z)
| WaitSleeping (dtask : Z) (wait_task_saved : option Z).

Definition strom_memcpy_ssd2gpu_wait (current id : Z) : K wait_status :=
  let index := strom_dma_task_index id in
  slot ← read_dtask_slot index;
  found ← dtask_lookup id slot;
  match found with
  | Some p =>
      dtask ← load_dtask p;
      store_dtask p (set_dt_wait_task (Some current) dtask);;
      mret (WaitSleeping p (dt_wait_task dtask))
  | None => mret (WaitReturned (- ENOENT))
  end.

(** After [schedule()]: lines 1170 to 1181. *)
Definition strom_memcpy_ssd2gpu_wait_resume (id : Z)
    (wait_task_saved : option Z) : K Z :=
  match wait_task_saved with
  | Some t => emit (EvWakeUpProcess t)
  | None => mret tt
  end;;
  slot ← read_dtask_slot (strom_dma_task_index id);
  found ← dtask_lookup id slot;
  BUG_ON (bool_decide (found ≠ None));;
  mret 0.

Definition strom_ioctl_memcpy_ssd2gpu_wait (current : Z) (karg : option Z)
  : K wait_status :=
  match karg with
  | None => mret (WaitReturned (- EFAULT))
  | Some id => strom_memcpy_ssd2gpu_wait current id
  end.

(** [submit_memcpy_page2gpu]: the body holds three comments and
    [return tx]; [tx] is the chain of copies submitted so far, and
    [*dstate] is not written. *)
Definition submit_memcpy_page2gpu (tx : list dma_descriptor) (page : Z)
    (dstate : strom_dma_state) : list dma_descriptor * strom_dma_state :=
  (tx, dstate).

(** ** Concurrent callers

    Every critical section runs with the slot's mutex held and is one
    step.  A caller of [__strom_clenup_mapped_gpu_memory] (the unmap
    ioctl or the revocation callback of the NVIDIA driver) that finds
    users goes to sleep and is made runnable by [wake_up_process].  A
    caller of the map ioctl runs its first part without the mutex and
    takes it only to attach the object.

    Where a caller stands between two steps: in [schedule()] at line
    224; runnable again, before line 226; past the [mutex_unlock] of
    line 232, before the page table is freed; in the map ioctl, before
    the [mutex_lock] of line 356. *)

Inductive pc :=
| PcSleep (p : Z) (wait_task_saved : option Z)
| PcWoken (p : Z) (wait_task_saved : option Z)
| PcRelease (p : Z)
| PcAttach (p : Z).

Definition pc_object (c : pc) : Z :=
  match c with
  | PcSleep p _ | PcWoken p _ | PcRelease p | PcAttach p => p
  end.

Record system := {
  kern : kstate;
  threads : gmap Z pc
}.

Definition wake_up_process (t : Z) (th : gmap Z pc) : gmap Z pc :=
  match th !! t with
  | Some (PcSleep p sv) => <[t := PcWoken p sv]> th
  | _ => th
  end.

Definition deliver (evs : list event) (th : gmap Z pc) : gmap Z pc :=
  foldl (λ th e, match e with
                 | EvWakeUpProcess t => wake_up_process t th
                 | _ => th
                 end) th evs.

Inductive label :=
| LMapPin (t : Z) (rc : Z) (out : option Z)
| LMapAttach (t p : Z)
| LGet (h : Z) (r : option Z)
| LPut (p : Z)
| LClenup (t h : Z) (st : clenup_status)
| LResume (t p : Z)
| LRelease (t p : Z) (rc : Z).

Definition after_pin (t : Z) (out : option Z) (th : gmap Z pc) : gmap Z pc :=
  match out with
  | Some p => <[t := PcAttach p]> th
  | None => th
  end.

Definition after_clenup (t : Z) (st : clenup_status) (th : gmap Z pc)
  : gmap Z pc :=
  match st with
  | ClenupNotFound => th
  | ClenupSleep p sv => <[t := PcSleep p sv]> th
  | ClenupDrained p => <[t := PcRelease p]> th
  end.

(** [p] sits on some chain of the segment registry. *)
Definition registered (k : kstate) (p : Z) : Prop :=
  ∃ i chain, strom_mgmem_slots k !! i = Some chain ∧ p ∈ chain.

(** [step σ l evs σ']: one critical section (or an unlocked stretch of
    the map ioctl or of the teardown), the events it emits, and the
    state it leaves.  Two assumptions on the surroundings are premises:
    [kmalloc] never returns the address of a live object; and an
    acquire is taken only while the counter has room, since the driver
    increments the [int] without a check.  The runs considered are those
    in which fewer than [INT_MAX] references to one segment are held at
    a time (a reference is held by an ioctl in progress or by a DMA task
    in flight). *)
Inductive step : system → label → list event → system → Prop :=
| step_pin σ t karg kmalloc tgid gp ok rc out k' evs :
    threads σ !! t = None →
    (∀ p, kmalloc = Some p → mgmem_heap (kern σ) !! p = None) →
    map_gpu_memory_pin karg kmalloc tgid gp ok (kern σ)
      = Ok ((rc, out), k', evs) →
    step σ (LMapPin t rc out) evs
      {| kern := k'; threads := after_pin t out (threads σ) |}
| step_attach σ t p u k' evs :
    threads σ !! t = Some (PcAttach p) →
    map_gpu_memory_attach p (kern σ) = Ok (u, k', evs) →
    step σ (LMapAttach t p) evs
      {| kern := k'; threads := delete t (threads σ) |}
| step_get σ h r k' evs :
    (∀ m, registered (kern σ) h → mgmem_heap (kern σ) !! h = Some m →
          refcnt m < INT_MAX - 1) →
    strom_get_mapped_gpu_memory h (kern σ) = Ok (r, k', evs) →
    step σ (LGet h r) evs {| kern := k'; threads := threads σ |}
| step_put σ p u k' evs :
    strom_put_mapped_gpu_memory p (kern σ) = Ok (u, k', evs) →
    step σ (LPut p) evs {| kern := k'; threads := deliver evs (threads σ) |}
| step_clenup σ t h st k' evs :
    threads σ !! t = None →
    clenup_detach t h (kern σ) = Ok (st, k', evs) →
    step σ (LClenup t h st) evs
      {| kern := k'; threads := after_clenup t st (threads σ) |}
| step_resume σ t p sv u k' evs :
    threads σ !! t = Some (PcWoken p sv) →
    clenup_resume p sv (kern σ) = Ok (u, k', evs) →
    step σ (LResume t p) evs
      {| kern := k'; threads := <[t := PcRelease p]> (deliver evs (threads σ)) |}
| step_release σ t p rc k' evs :
    threads σ !! t = Some (PcRelease p) →
    clenup_release p (kern σ) = Ok (rc, k', evs) →
    step σ (LRelease t p rc) evs
      {| kern := k'; threads := delete t (threads σ) |}.

Inductive reach : list label → system → Prop :=
| reach_init : reach [] {| kern := nvme_strom_init; threads := ∅ |}
| reach_step tr σ l evs σ' :
    reach tr σ → step σ l evs σ' → reach (tr ++ [l]) σ'.

(** Which handles are mapped, told from the calls made and not from
    what a teardown answers.  [log_pinned]: the NVIDIA driver has pinned
    the pages and the map ioctl has not attached the object yet.
    [log_mapped]: the map ioctl has attached the object.  A teardown
    called for a handle (unmap ioctl or revocation callback) ends its
    mapping wherever it stands.  [log_stale]: the object was attached
    although a teardown had been called for it since the pin. *)
Record mapping_log := {
  log_pinned : gset Z;
  log_mapped : gset Z;
  log_stale : gset Z
}.

Definition track_mapped (acc : mapping_log) (l : label) : mapping_log :=
  match l with
  | LMapPin _ _ (Some p) =>
      {| log_pinned := log_pinned acc ∪ {[p]}; log_mapped := log_mapped acc;
         log_stale := log_stale acc |}
  | LMapAttach _ p =>
      if decide (p ∈ log_pinned acc) then
        {| log_pinned := log_pinned acc ∖ {[p]};
           log_mapped := log_mapped acc ∪ {[p]};
           log_stale := log_stale acc |}
      else
        {| log_pinned := log_pinned acc; log_mapped := log_mapped acc;
           log_stale := log_stale acc ∪ {[p]} |}
  | LClenup _ h _ =>
      {| log_pinned := log_pinned acc ∖ {[h]};
         log_mapped := log_mapped acc ∖ {[h]};
         log_stale := log_stale acc ∖ {[h]} |}
  | _ => acc
  end.

Definition mapping_log_of (tr : list label) : mapping_log :=
  foldl track_mapped
    {| log_pinned := ∅; log_mapped := ∅; log_stale := ∅ |} tr.

Definition currently_mapped (tr : list label) : gset Z :=
  log_mapped (mapping_log_of tr).

Definition attached_after_teardown (tr : list label) : gset Z :=
  log_stale (mapping_log_of tr).

(** *** Invariant *)

(** The registry is in order: 48 chains; every chained pointer is a
    live, pinned object without a waiter, on the chain of its own
    address, once; every object carries its address as handle, and its
    counter is not negative and has room for one more reference. *)
Record kwf (k : kstate) : Prop := {
  kwf_len : length (strom_mgmem_slots k) = Z.to_nat MAPPED_GPU_MEMORY_NSLOTS;
  kwf_chain : ∀ i chain p,
    strom_mgmem_slots k !! i = Some chain → p ∈ chain →
    i = strom_mapped_gpu_memory_index p ∧
    ∃ m, mgmem_heap k !! p = Some m ∧ is_Some (page_table m) ∧
         wait_task m = None;
  kwf_nodup : ∀ i chain,
    strom_mgmem_slots k !! i = Some chain → NoDup chain;
  kwf_heap : ∀ p m,
    mgmem_heap k !! p = Some m → handle m = p ∧ 0 ≤ refcnt m < INT_MAX
}.

Record inv (σ : system) : Prop := {
  inv_kwf : kwf (kern σ);
  inv_waiter : ∀ p m t,
    mgmem_heap (kern σ) !! p = Some m → wait_task m = Some t →
    threads σ !! t = Some (PcSleep p None);
  inv_sleep : ∀ t p sv,
    threads σ !! t = Some (PcSleep p sv) →
    sv = None ∧ ¬ registered (kern σ) p ∧
    ∃ m, mgmem_heap (kern σ) !! p = Some m ∧ 0 < refcnt m ∧
         wait_task m = Some t;
  inv_woken : ∀ t p sv,
    threads σ !! t = Some (PcWoken p sv) →
    sv = None ∧ ¬ registered (kern σ) p ∧
    ∃ m, mgmem_heap (kern σ) !! p = Some m ∧ refcnt m = 0 ∧
         wait_task m = None;
  inv_release : ∀ t p,
    threads σ !! t = Some (PcRelease p) →
    ¬ registered (kern σ) p ∧
    ∃ m, mgmem_heap (kern σ) !! p = Some m ∧ refcnt m = 0 ∧
         wait_task m = None;
  inv_attach : ∀ t p,
    threads σ !! t = Some (PcAttach p) →
    ¬ registered (kern σ) p ∧
    ∃ m, mgmem_heap (kern σ) !! p = Some m ∧ refcnt m = 0 ∧
         wait_task m = None ∧ is_Some (page_table m);
  inv_unique : ∀ t1 t2 c1 c2,
    threads σ !! t1 = Some c1 → threads σ !! t2 = Some c2 →
    pc_object c1 = pc_object c2 → t1 = t2
}.

(** No entry on any chain of the task registry carries [id], and every
    chained pointer is live. *)
Definition dtask_absent (k : kstate) (id : Z) : Prop :=
  ∀ i chain p,
    strom_dma_task_slots k !! i = Some chain → p ∈ chain →
    ∃ d, dtask_heap k !! p = Some d ∧ dma_task_id d ≠ id.


End Strom.

(** ** The coalescing of the specification

    Section 4.3 of the specification, written from its words, to set
    against [submit_memcpy_page2gpu]: a pending extent grows while the
    next unit follows it in the source and stays inside one destination
    page; it is flushed on a source gap, at a destination page boundary
    (where the unit is split), and after the last unit. *)

Record spec_extent := {
  se_src : Z;
  se_dst_off : Z;
  se_len : Z
}.

Definition spec_dst_addr (G : Z) (table : list Z) (off : Z) : Z :=
  nth (Z.to_nat (off / G)) table 0 + off mod G.

Definition spec_flush (G : Z) (table : list Z) (pd : option spec_extent)
    (out : list dma_descriptor) : list dma_descriptor :=
  match pd with
  | Some r =>
      if 0 <? se_len r then
        out ++ [{| d_src_addr := se_src r; d_src_len := se_len r;
                   d_dst_addr := spec_dst_addr G table (se_dst_off r);
                   d_dst_len := se_len r |}]
      else out
  | None => out
  end.

Definition spec_extend (r : spec_extent) (n : Z) : spec_extent :=
  {| se_src := se_src r; se_dst_off := se_dst_off r; se_len := se_len r + n |}.

Fixpoint spec_feed (fuel : nat) (G : Z) (table : list Z) (src len cursor : Z)
    (pd : option spec_extent) (out : list dma_descriptor)
  : Z * option spec_extent * list dma_descriptor :=
  match fuel with
  | O => (cursor, pd, out)
  | S fuel' =>
      let fresh := {| se_src := src; se_dst_off := cursor; se_len := 0 |} in
      let '(r, out1) :=
        match pd with
        | Some r =>
            if (se_src r + se_len r =? src) && negb (cursor mod G =? 0)
            then (r, out)
            else (fresh, spec_flush G table pd out)
        | None => (fresh, out)
        end in
      let room := G - cursor mod G in
      if room <? len then
        spec_feed fuel' G table (src + room) (len - room) (cursor + room) None
          (spec_flush G table (Some (spec_extend r room)) out1)
      else (cursor + len, Some (spec_extend r len), out1)
  end.

(** [units] are the source extents [(address, length)] in order;
    [dst_offset] is where the destination range starts. *)
Definition spec_coalesce (G : Z) (table : list Z) (dst_offset : Z)
    (units : list (Z * Z)) : list dma_descriptor :=
  let '(_, pd, out) :=
    fold_left
      (λ st u,
         let '(cursor, pd, out) := st in
         spec_feed (S (Z.to_nat (snd u / G) + 1)) G table (fst u) (snd u)
           cursor pd out)
      units (dst_offset, None, []) in
  spec_flush G table pd out.

(** ** The claims as the specification words them, where the code differs *)

(** A wait that reports success to its caller. *)
Definition wait_reports_success `{ArchFastHash} (k : kstate)
    (current id : Z) : Prop :=
  ∃ k' evs, strom_ioctl_memcpy_ssd2gpu_wait current (Some id) k
            = Ok (WaitReturned 0, k', evs).

(** A mapped length that is a whole number of device pages. *)
Definition map_length_grid_aligned (m : mapped_gpu_memory) : Prop :=
  map_length m mod page_size m = 0.

(** ** A concrete run *)

(** A stand-in for the kernel's hash, to run the driver on concrete
    states. *)
Definition sample_hash : ArchFastHash := λ key seed, Z.lxor key seed.

Definition run {A : Type} (c : K A) (k : kstate) : kstate :=
  match c k with
  | Ok (_, k', _) => k'
  | Bug => k
  end.

(** Five 64 KiB device pages. *)
Definition sample_table (t : nvidia_p2p_page_size_type)
  : nvidia_p2p_page_table :=
  {| pt_version := 1; pt_page_size := t;
     pt_pages := [0x100000; 0x110000; 0x120000; 0x130000; 0x140000] |}.

Definition sample_pin (t : nvidia_p2p_page_size_type) : p2p_get_pages_result :=
  {| gp_rc := 0; gp_table := sample_table t |}.

(** 256 KiB at a misaligned address. *)
Definition sample_cmd : StromCmd__MapGpuMemory :=
  {| vaddress := 0x7f0000012345; cmd_length := 262144 |}.

Definition sample_map : K (Z * option Z) :=
  strom_ioctl_map_gpu_memory (kernel_hash := sample_hash)
    (Some sample_cmd) (Some 4096) 100
    (sample_pin NVIDIA_P2P_PAGE_SIZE_64KB) true.

(** After the map; after one acquire; after an unmap by task 7 that has
    to sleep; after the release that wakes it. *)
Definition k_mapped : kstate := run sample_map nvme_strom_init.
Definition k_in_use : kstate :=
  run (strom_get_mapped_gpu_memory (kernel_hash := sample_hash) 4096) k_mapped.
Definition k_unlinked : kstate :=
  run (clenup_detach (kernel_hash := sample_hash) 7 4096) k_in_use.
Definition k_drained : kstate :=
  run (strom_put_mapped_gpu_memory 4096) k_unlinked.

(** After the map and an unmap by task 7 that finds no user. *)
Definition k_idle_unlinked : kstate :=
  run (clenup_detach (kernel_hash := sample_hash) 7 4096) k_mapped.

(** A task at 8192 that holds the segment, a file, a waiter and one
    pinned page. *)
Definition sample_dtask : strom_dma_task :=
  {| dma_task_id := 8192; mgmem := 4096; filp := Some 3;
     dt_wait_task := Some 9;
     dma_pages_list := [{| nitems := 1; nrooms := 12; pages := [0x7000] |}];
     chunks := [ChunkMemory 0x5000 4096] |}.

Definition k_with_task : kstate :=
  set_dtask_slots
    (<[strom_dma_task_index (kernel_hash := sample_hash) 8192 := [8192]]>
       (strom_dma_task_slots k_in_use))
    (set_dtask_heap {[8192 := sample_dtask]} k_in_use).

Definition sample_dstate : strom_dma_state :=
  {| gpu_page_sz := 65536; gpu_entries := 5;
     gpu_pages := [0x100000; 0x110000; 0x120000; 0x130000; 0x140000];
     curr_offset := 0; curr_src_addr := 0; curr_src_size := 0;
     curr_src_block := 2 ^ 64 - 1; curr_num_blocks := 0;
     curr_dst_addr := 0x100000; curr_dst_size := 0 |}.

(** The same run as states of the concurrent system. *)
Definition s_mapped : system := {| kern := k_mapped; threads := ∅ |}.
Definition s_in_use : system := {| kern := k_in_use; threads := ∅ |}.
Definition s_unlinked : system :=
  {| kern := k_unlinked;
     threads := after_clenup 7 (ClenupSleep 4096 None) ∅ |}.
Definition s_drained : system :=
  {| kern := k_drained;
     threads := deliver [EvWakeUpProcess 7] (threads s_unlinked) |}.

(** The map ioctl is run by task 5. *)
Definition k_pinned : kstate :=
  run (map_gpu_memory_pin (Some sample_cmd) (Some 4096) 100
         (sample_pin NVIDIA_P2P_PAGE_SIZE_64KB) true) nvme_strom_init.

Definition s_pinned : system :=
  {| kern := k_pinned; threads := after_pin 5 (Some 4096) ∅ |}.

Definition tr_pinned : list label := [LMapPin 5 0 (Some 4096)].
Definition tr_mapped : list label := tr_pinned ++ [LMapAttach 5 4096].

(** The same map with the revocation callback of the NVIDIA driver,
    run by task 7, arriving between the pin and the attach. *)
Definition tr_revoked_early : list label :=
  tr_pinned ++ [LClenup 7 4096 ClenupNotFound; LMapAttach 5 4096].
Definition tr_in_use : list label := tr_mapped ++ [LGet 4096 (Some 4096)].
Definition tr_unlinked : list label :=
  tr_in_use ++ [LClenup 7 4096 (ClenupSleep 4096 None)].

(** ** The rest of the driver: file checks, task submission, procfs *)

(** More Linux constants (x86_64). *)
Definition EBADF : Z := 9.
Definition EACCES : Z := 13.
Definition ENOTSUPP : Z := 524.
Definition MAX_ERRNO : Z := 4095.
Definition FMODE_READ : Z := 1.
Definition EXT4_SUPER_MAGIC : Z := 0xEF53.
Definition XFS_SB_MAGIC : Z := 0x58465342.
Definition PAGE_SIZE : Z := 4096.
Definition BLOCK_EXT_MAJOR : Z := 259.

(** A 64-bit pattern read as [long]. *)
Definition slong (x : Z) : Z := (x + 2 ^ 63) mod 2 ^ 64 - 2 ^ 63.

(** [IS_ERR_VALUE(x)]: [x >= (unsigned long)-MAX_ERRNO]. *)
Definition IS_ERR_VALUE (x : Z) : bool := ulong (- MAX_ERRNO) <=? x.

(** What [source_file_is_supported] reads through [filp].  The disk
    [s_bdev->bd_disk]: its major number, its name, and
    [fops->ioctl] ([None] for a NULL pointer, else what the call with
    [NVME_IOCTL_ID] returns). *)
Record gendisk := {
  major : Z;
  disk_name : list ascii;
  fops_ioctl : option Z
}.

(** The open mode, the super block, the file-system type, the inode
    size, and [i_sb->s_bdev] with its disk: [None] for the NULL pointer
    of a file system that sits on no block device (tmpfs, procfs, a
    pipe, a socket).  The names hold the characters before the
    terminating NUL. *)
Record file := {
  f_mode : Z;
  s_magic : Z;
  s_type_name : list ascii;
  s_type_owner : Z;
  i_size : Z;
  s_blocksize : Z;
  s_bdev : option gendisk
}.

Definition is_digit (c : ascii) : bool :=
  (nat_of_ascii "0" <=? nat_of_ascii c)%nat && (nat_of_ascii c <=? nat_of_ascii "9")%nat.

(** The loops of lines 551 and 557: step over decimal digits. *)
Fixpoint skip_digits (pos : list ascii) : list ascii :=
  match pos with
  | c :: rest => if is_digit c then skip_digits rest else pos
  | [] => []
  end.

(** Lines 541 to 562: [true] when [dname] is reset to NULL, that is,
    when the name reads [nvme<digits>n<digits>].  Two positions in the
    name are the same pointer when the same number of characters
    follows. *)
Definition is_nvme_disk_name (dname : list ascii) : bool :=
  match dname with
  | "n"%char :: "v"%char :: "m"%char :: "e"%char :: pos_saved =>
      let pos := skip_digits pos_saved in
      if negb (length pos =? length pos_saved)%nat then
        match pos with
        | "n"%char :: pos_saved2 =>
            let pos2 := skip_digits pos_saved2 in
            negb (length pos2 =? length pos_saved2)%nat
            && match pos2 with [] => true | _ => false end
        | _ => false
        end
      else false
  | _ => false
  end.

(** The grammar of the comment at line 541: ['nvme%dn%d']. *)
Definition nvme_name_grammar (dname : list ascii) : Prop :=
  ∃ a b : list ascii,
    a ≠ [] ∧ b ≠ [] ∧ forallb is_digit a = true ∧ forallb is_digit b = true ∧
    dname = ["n"; "v"; "m"; "e"]%char ++ a ++ ["n"%char] ++ b.

(** What [strom_proc_open] leaves in [filp->private_data]. *)
Record strom_proc_entry := {
  pe_length : Z;
  pe_usage : Z;
  pe_data : list Byte.byte
}.

(** [strom_proc_read]: the value returned, [*pos] afterwards, and the
    bytes stored in the caller's buffer.  [*pos] is a [loff_t] compared
    and added as an unsigned 64-bit number. *)
Definition strom_proc_read (private_data : option strom_proc_entry)
    (len pos : Z) (copy_to_user_ok : bool) : Z * Z * list Byte.byte :=
  match private_data with
  | None => (- EINVAL, pos, [])
  | Some spent =>
      if pe_usage spent <=? ulong pos then (0, pos, [])
      else
        let len :=
          if pe_usage spent <=? ulong (pos + len)
          then ulong (pe_usage spent - pos) else len in
        if copy_to_user_ok then
          (slong len, slong (pos + len),
           take (Z.to_nat len) (drop (Z.to_nat (ulong pos)) (pe_data spent)))
        else (- EFAULT, pos, [])
  end.

Record StromCmd__MemCpySsdToGpu := {
  cp_handle : Z;
  cp_fdesc : Z;
  cp_nchunks : Z
}.

(** Where an ioctl that may wait for a task stands when it stops: it
    returned, or it sleeps in [strom_memcpy_ssd2gpu_wait] and will
    return [rc] once woken. *)
Inductive ioctl_status :=
| IoctlReturned (rc : Z)
| IoctlSleeping (dtask : Z) (wait_task_saved : option Z) (rc : Z).

Section StromFiles.

Context {kernel_hash : ArchFastHash}.

(** Resolved by [extra-ksyms.c]: the modules that own the two
    file-system types, and their block-mapping functions (return code
    and [bh->b_blocknr]). *)
Variables mod_ext4_get_block mod_xfs_get_blocks : Z.
Variables __ext4_get_block __xfs_get_blocks : file → Z → Z → Z * Z.

(** [source_file_is_supported].  The initialiser of line 455 reads
    [s_bdev->bd_disk] before any test: with a NULL [s_bdev] the
    function halts there. *)
Definition source_file_is_supported (filp : file) : outcome Z :=
  match s_bdev filp with
  | None => Bug
  | Some bd_disk =>
      Ok (if Z.land (f_mode filp) FMODE_READ =? 0 then - EACCES
          else if negb (((s_magic filp =? EXT4_SUPER_MAGIC)
                         && bool_decide
                              (s_type_name filp = ["e"; "x"; "t"; "4"]%char)
                         && (s_type_owner filp =? mod_ext4_get_block))
                        || ((s_magic filp =? XFS_SB_MAGIC)
                            && bool_decide
                                 (s_type_name filp = ["x"; "f"; "s"]%char)
                            && (s_type_owner filp =? mod_xfs_get_blocks)))
          then - ENOTSUPP
          else if ulong (i_size filp) <? PAGE_SIZE then - ENOTSUPP
          else if negb (s_blocksize filp =? PAGE_SIZE) then - ENOTSUPP
          else if negb (major bd_disk =? BLOCK_EXT_MAJOR) then - ENOTSUPP
          else if negb (is_nvme_disk_name (disk_name bd_disk)) then - ENOTSUPP
          else match fops_ioctl bd_disk with
               | None => - ENOTSUPP
               | Some rc => if rc <? 0 then - ENOTSUPP else 0
               end)
  end.

Definition strom_get_block (inode : file) (iblock create : Z) : Z * Z :=
  if s_magic inode =? EXT4_SUPER_MAGIC then __ext4_get_block inode iblock create
  else if s_magic inode =? XFS_SB_MAGIC then __xfs_get_blocks inode iblock create
  else (- ENOTSUPP, 0).

(** [strom_ioctl_check_file]: [karg] is the descriptor read by
    [copy_from_user]; [fget] gives the [struct file] and its address. *)
Definition strom_ioctl_check_file (karg : option Z)
    (fget : Z → option (Z * file)) : outcome (Z * list event) :=
  match karg with
  | None => Ok (- EFAULT, [])
  | Some fdesc =>
      match fget fdesc with
      | None => Ok (- EBADF, [])
      | Some (fp, filp) =>
          match source_file_is_supported filp with
          | Bug => Bug
          | Ok rc => Ok (if rc <? 0 then rc else 0, [EvFput fp])
          end
      end
  end.

(** The labels [error_1], [error_2], [error_3] of
    [strom_memcpy_ssd2gpu_async]. *)
Definition memcpy_error_1 (fp : option Z) (rc : Z) : K Z :=
  match fp with
  | Some f => emit (EvFput f)
  | None => mret tt
  end;;
  mret (ulong rc).

Definition memcpy_error_2 (mg : Z) (fp : option Z) (rc : Z) : K Z :=
  strom_put_mapped_gpu_memory mg;;
  memcpy_error_1 fp rc.

Definition memcpy_error_3 (dt mg : Z) (fp : option Z) (rc : Z) : K Z :=
  emit (EvKfree dt);;
  memcpy_error_2 mg fp rc.

(** [strom_memcpy_ssd2gpu_async] from the point where the source file
    is settled ([fp] is its address, if any). *)
Definition memcpy_submit (karg : StromCmd__MemCpySsdToGpu) (fp : option Z)
    (kmalloc : option Z) (uchunks : option (list strom_dma_chunk))
    (kick : Z → K Z) : K Z :=
  found ← strom_get_mapped_gpu_memory (cp_handle karg);
  match found with
  | None => memcpy_error_1 fp (- ENOENT)
  | Some mg =>
      match kmalloc with
      | None => memcpy_error_2 mg fp (- ENOMEM)
      | Some dt =>
          match uchunks with
          | None => memcpy_error_3 dt mg fp (- EFAULT)
          | Some cs =>
              let index := strom_dma_task_index dt in
              store_dtask dt
                {| dma_task_id := dt; mgmem := mg; filp := fp;
                   dt_wait_task := None; dma_pages_list := [];
                   chunks := cs |};;
              slot ← read_dtask_slot index;
              write_dtask_slot index (dt :: slot);;
              rc ← kick dt;
              if decide (rc = 0) then mret dt else mret (ulong rc)
          end
      end
  end.

(** [strom_memcpy_ssd2gpu_async].  [karg] is the head of the command
    ([None] when [copy_from_user] faults), [uchunks] the chunk array
    ([None] when its copy faults), [kmalloc] the address of the task.
    [kick] stands for [__strom_memcpy_ssd2gpu_async], whose body in the
    source is an unfinished draft; nothing below looks inside it. *)
Definition strom_memcpy_ssd2gpu_async (karg : option StromCmd__MemCpySsdToGpu)
    (fget : Z → option (Z * file)) (kmalloc : option Z)
    (uchunks : option (list strom_dma_chunk)) (kick : Z → K Z) : K Z :=
  match karg with
  | None => mret (ulong (- EFAULT))
  | Some karg =>
      if 0 <=? cp_fdesc karg then
        match fget (cp_fdesc karg) with
        | None => mret (ulong (- EBADF))
        | Some (fp, filp) =>
            match source_file_is_supported filp with
            | Bug => λ _, Bug
            | Ok rc =>
                if rc <? 0 then memcpy_error_1 (Some fp) rc
                else memcpy_submit karg (Some fp) kmalloc uchunks kick
            end
        end
      else memcpy_submit karg None kmalloc uchunks kick
  end.

Definition wait_for_task (current id rc : Z) : K ioctl_status :=
  st ← strom_memcpy_ssd2gpu_wait current id;
  match st with
  | WaitReturned _ => mret (IoctlReturned rc)
  | WaitSleeping p sv => mret (IoctlSleeping p sv rc)
  end.

(** [strom_ioctl_memcpy_ssd2gpu]: submit, store the task id, wait. *)
Definition strom_ioctl_memcpy_ssd2gpu (current : Z)
    (karg : option StromCmd__MemCpySsdToGpu)
    (fget : Z → option (Z * file)) (kmalloc : option Z)
    (uchunks : option (list strom_dma_chunk)) (kick : Z → K Z)
    (put_user_ok : bool) : K ioctl_status :=
  id ← strom_memcpy_ssd2gpu_async karg fget kmalloc uchunks kick;
  if IS_ERR_VALUE id then mret (IoctlReturned (slong id))
  else wait_for_task current id (if put_user_ok then 0 else - EFAULT).

(** [strom_ioctl_memcpy_ssd2gpu_async]: submit and store the task id;
    wait only when the id cannot be stored. *)
Definition strom_ioctl_memcpy_ssd2gpu_async (current : Z)
    (karg : option StromCmd__MemCpySsdToGpu)
    (fget : Z → option (Z * file)) (kmalloc : option Z)
    (uchunks : option (list strom_dma_chunk)) (kick : Z → K Z)
    (put_user_ok : bool) : K ioctl_status :=
  id ← strom_memcpy_ssd2gpu_async karg fget kmalloc uchunks kick;
  if IS_ERR_VALUE id then mret (IoctlReturned (slong id))
  else if put_user_ok then mret (IoctlReturned 0)
  else wait_for_task current id (- EFAULT).

(** The task registry is in order: every chained pointer is a live task
    that carries its own address as id, on the chain of that id, once. *)
Record dwf (k : kstate) : Prop := {
  dwf_len : length (strom_dma_task_slots k) = Z.to_nat STROM_DMA_TASK_NSLOTS;
  dwf_chain : ∀ i chain p,
    strom_dma_task_slots k !! i = Some chain → p ∈ chain →
    i = strom_dma_task_index p ∧
    ∃ d, dtask_heap k !! p = Some d ∧ dma_task_id d = p;
  dwf_nodup : ∀ i chain,
    strom_dma_task_slots k !! i = Some chain → NoDup chain
}.

(** The submission stops before the task is registered: the command
    faults; or the descriptor names no open file; or the file, which
    sits on a block device, is turned down; or, with the file (if any)
    accepted, the handle is unknown, or there is no memory for the task,
    or the chunk array faults. *)
Definition fails_before_registration (k : kstate)
    (karg : option StromCmd__MemCpySsdToGpu) (fget : Z → option (Z * file))
    (kmalloc : option Z) (uchunks : option (list strom_dma_chunk)) : Prop :=
  match karg with
  | None => True
  | Some c =>
      let later :=
        ¬ registered k (cp_handle c) ∨ kmalloc = None ∨ uchunks = None in
      if 0 <=? cp_fdesc c then
        match fget (cp_fdesc c) with
        | None => True
        | Some (_, filp) =>
            ∃ rc, source_file_is_supported filp = Ok rc ∧ (rc < 0 ∨ later)
        end
      else later
  end.

(** The file reference a submission takes, if any. *)
Definition source_file_taken (karg : option StromCmd__MemCpySsdToGpu)
    (fget : Z → option (Z * file)) : option Z :=
  match karg with
  | None => None
  | Some c => if 0 <=? cp_fdesc c then fst <$> fget (cp_fdesc c) else None
  end.

End StromFiles.

(** A file on ext4 on [nvme0n1], the two modules at 0xa000 and
    0xb000, block-mapping functions that answer from a fixed table, and
    a five-byte status text. *)
Definition sample_file : file :=
  {| f_mode := 3; s_magic := EXT4_SUPER_MAGIC;
     s_type_name := ["e"; "x"; "t"; "4"]%char; s_type_owner := 0xa000;
     i_size := 1048576; s_blocksize := 4096;
     s_bdev :=
       Some {| major := 259;
               disk_name := ["n"; "v"; "m"; "e"; "0"; "n"; "1"]%char;
               fops_ioctl := Some 1 |} |}.

(** A file on tmpfs: no block device behind the super block. *)
Definition sample_tmpfs_file : file :=
  {| f_mode := 3; s_magic := 0x01021994;
     s_type_name := ["t"; "m"; "p"; "f"; "s"]%char; s_type_owner := 0;
     i_size := 1048576; s_blocksize := 4096; s_bdev := None |}.

Definition sample_ext4_get_block (f : file) (iblock create : Z) : Z * Z :=
  (0, 1000 + iblock).

Definition sample_xfs_get_blocks (f : file) (iblock create : Z) : Z * Z :=
  (0, 2000 + iblock).

Definition sample_fget (fd : Z) : option (Z * file) :=
  if fd =? 3 then Some (0xf000, sample_file) else None.

Definition sample_entry : strom_proc_entry :=
  {| pe_length := 4080; pe_usage := 5;
     pe_data := [Byte.x68; Byte.x65; Byte.x6c; Byte.x6c; Byte.x6f;
                 Byte.x00; Byte.x00; Byte.x00] |}.

(** A copy command for the mapped segment whose chunk array faults. *)
Definition sample_copy : StromCmd__MemCpySsdToGpu :=
  {| cp_handle := 4096; cp_fdesc := 3; cp_nchunks := 1 |}.

(** ** Proofs *)

Section StromProofs.

Context {kernel_hash : ArchFastHash}.

Ltac kunfold :=
  unfold strom_put_mapped_gpu_memory, __strom_put_mapped_gpu_memory,
    strom_get_mapped_gpu_memory, clenup_detach, clenup_resume,
    clenup_release, mgmem_lookup, dtask_lookup,
    mbind, K_bind, kbind, mret, K_ret, kret, BUG_ON, emit,
    load_mgmem, store_mgmem, kfree_mgmem, load_dtask, store_dtask,
    kfree_dtask, read_mgmem_slot, write_mgmem_slot, read_dtask_slot,
    write_dtask_slot in *.

Lemma sint_small (x : Z) : - 2 ^ 31 ≤ x < 2 ^ 31 → sint x = x.
Proof.
  intros Hx. unfold sint.
  change (2 ^ 31) with 2147483648 in *. change (2 ^ 32) with 4294967296.
  rewrite Z.mod_small by lia. lia.
Qed.

(** At [INT_MAX] the increment of an acquire wraps to [INT_MIN]. *)
Lemma sint_wraps : sint (INT_MAX + 1) = - 2 ^ 31.
Proof. reflexivity. Qed.

Lemma strom_mapped_gpu_memory_index_lt (h : Z) :
  (strom_mapped_gpu_memory_index h < Z.to_nat MAPPED_GPU_MEMORY_NSLOTS)%nat.
Proof.
  unfold strom_mapped_gpu_memory_index, MAPPED_GPU_MEMORY_NSLOTS.
  apply Z2Nat.inj_lt; try lia; apply Z.mod_pos_bound; lia.
Qed.

Lemma strom_dma_task_index_lt (id : Z) :
  (strom_dma_task_index id < Z.to_nat STROM_DMA_TASK_NSLOTS)%nat.
Proof.
  unfold strom_dma_task_index, STROM_DMA_TASK_NSLOTS.
  apply Z2Nat.inj_lt; try lia; apply Z.mod_pos_bound; lia.
Qed.

Lemma chain_at_lookup (slots : list (list Z)) (i : nat) :
  (i < length slots)%nat → slots !! i = Some (chain_at slots i).
Proof.
  intros H. unfold chain_at.
  destruct (lookup_lt_is_Some_2 slots i H) as [c ->]. done.
Qed.

Lemma list_del_elem_of (p q : Z) (chain : list Z) :
  q ∈ list_del p chain → q ∈ chain.
Proof.
  induction chain as [|a chain IH]; simpl; [done|].
  destruct (decide (a = p)) as [->|Hne]; [by right|].
  intros [->|Hin]%elem_of_cons; [by left | right; auto].
Qed.

Lemma list_del_NoDup (p : Z) (chain : list Z) :
  NoDup chain → NoDup (list_del p chain) ∧ p ∉ list_del p chain.
Proof.
  induction 1 as [|a chain Ha Hnd [IH1 IH2]]; simpl.
  - split; [constructor | apply not_elem_of_nil].
  - destruct (decide (a = p)) as [->|Hne]; [done|]. split.
    + constructor; [|done]. intros Hin. apply Ha. by eapply list_del_elem_of.
    + intros [->|Hin]%elem_of_cons; done.
Qed.

Lemma list_del_other (p q : Z) (chain : list Z) :
  q ≠ p → q ∈ chain → q ∈ list_del p chain.
Proof.
  intros Hne. induction chain as [|a chain IH]; simpl; [done|].
  destruct (decide (a = p)) as [->|Hap].
  - intros [->|Hin]%elem_of_cons; done.
  - intros [->|Hin]%elem_of_cons; [by left | right; auto].
Qed.

(** On a chain of live, self-named, pinned entries the search loop
    finds a handle exactly when its object is on the chain. *)
Lemma mgmem_chain_find_spec (heap : gmap Z mapped_gpu_memory) (h : Z)
    (chain : list Z) :
  (∀ p, p ∈ chain →
        ∃ m, heap !! p = Some m ∧ handle m = p ∧ is_Some (page_table m)) →
  mgmem_chain_find heap h chain
  = Ok (if decide (h ∈ chain) then Some h else None).
Proof.
  induction chain as [|a chain IH]; intros Hall.
  - simpl. destruct (decide (h ∈ [])) as [Hin|]; [|done].
    by apply elem_of_nil in Hin.
  - destruct (Hall a) as (m & Hm & Hh & [pt Hpt]); [by left|].
    cbn [mgmem_chain_find]. rewrite Hm.
    destruct (decide (handle m = h)) as [Heq|Hne].
    + subst h a. rewrite decide_True by done. rewrite Hpt.
      rewrite decide_True; [done | by left].
    + rewrite IH by (intros; apply Hall; by right).
      destruct (decide (h ∈ chain)) as [Hin|Hnin].
      * rewrite decide_True; [done | by right].
      * rewrite decide_False; [done|].
        intros [->|Hin]%elem_of_cons; [congruence | done].
Qed.

Lemma registered_chain_at (k : kstate) (p : Z) :
  kwf k →
  registered k p ↔
  p ∈ chain_at (strom_mgmem_slots k) (strom_mapped_gpu_memory_index p).
Proof.
  intros Hk. split.
  - intros (i & chain & Hi & Hp).
    destruct (kwf_chain k Hk i chain p Hi Hp) as [-> _].
    unfold chain_at. by rewrite Hi.
  - intros Hp. eexists _, _. split; [|exact Hp].
    apply chain_at_lookup. rewrite (kwf_len k Hk).
    apply strom_mapped_gpu_memory_index_lt.
Qed.

Lemma kwf_chain_at (k : kstate) (i : nat) (p : Z) :
  kwf k → p ∈ chain_at (strom_mgmem_slots k) i →
  i = strom_mapped_gpu_memory_index p ∧
  ∃ m, mgmem_heap k !! p = Some m ∧ handle m = p ∧ 0 ≤ refcnt m < INT_MAX ∧
       is_Some (page_table m) ∧ wait_task m = None.
Proof.
  intros Hk Hp. unfold chain_at in Hp.
  destruct (strom_mgmem_slots k !! i) as [chain|] eqn:Hi; simpl in Hp;
    [|by apply elem_of_nil in Hp].
  destruct (kwf_chain k Hk i chain p Hi Hp) as [-> (m & Hm & Hpt & Hw)].
  destruct (kwf_heap k Hk p m Hm) as [Hh Hr]. eauto 10.
Qed.

Lemma mgmem_lookup_spec (k : kstate) (h : Z) :
  kwf k →
  mgmem_chain_find (mgmem_heap k) h
    (chain_at (strom_mgmem_slots k) (strom_mapped_gpu_memory_index h))
  = Ok (if decide (h ∈ chain_at (strom_mgmem_slots k)
                         (strom_mapped_gpu_memory_index h))
        then Some h else None).
Proof.
  intros Hk. apply mgmem_chain_find_spec. intros p Hp.
  destruct (kwf_chain_at k _ p Hk Hp) as [_ (m & ? & ? & ? & ? & ?)]. eauto.
Qed.

Lemma set_mgmem_heap_twice (h1 h2 : gmap Z mapped_gpu_memory) (k : kstate) :
  set_mgmem_heap h2 (set_mgmem_heap h1 k) = set_mgmem_heap h2 k.
Proof. done. Qed.

(** A lookup that hits bumps [refcnt] and nothing else; a lookup that
    misses changes nothing. *)
Lemma strom_get_mapped_gpu_memory_spec (k : kstate) (h : Z) :
  kwf k →
  strom_get_mapped_gpu_memory h k =
  if decide (h ∈ chain_at (strom_mgmem_slots k)
                   (strom_mapped_gpu_memory_index h)) then
    match mgmem_heap k !! h with
    | Some m =>
        Ok (Some h,
            set_mgmem_heap (<[h := set_refcnt (refcnt m + 1) m]> (mgmem_heap k)) k,
            [])
    | None => Bug
    end
  else Ok (None, k, []).
Proof.
  intros Hk. kunfold. rewrite mgmem_lookup_spec by done.
  destruct (decide _) as [Hin|Hnin]; [|done].
  destruct (mgmem_heap k !! h) as [m|] eqn:Hm; [|done].
  destruct (kwf_heap k Hk h m Hm) as [_ Hr]. simpl.
  rewrite sint_small; [done|]. unfold INT_MAX in Hr.
  change (2 ^ 31) with 2147483648. lia.
Qed.

Lemma strom_put_mapped_gpu_memory_spec (k : kstate) (p : Z) :
  strom_put_mapped_gpu_memory p k =
  match mgmem_heap k !! p with
  | None => Bug
  | Some m =>
      if refcnt m <? 1 then Bug
      else
        let m1 := set_refcnt (refcnt m - 1) m in
        match wait_task m with
        | Some t =>
            if refcnt m - 1 =? 0 then
              Ok (tt, set_mgmem_heap (<[p := set_wait_task None m1]> (mgmem_heap k)) k,
                  [EvWakeUpProcess t])
            else Ok (tt, set_mgmem_heap (<[p := m1]> (mgmem_heap k)) k, [])
        | None => Ok (tt, set_mgmem_heap (<[p := m1]> (mgmem_heap k)) k, [])
        end
  end.
Proof.
  kunfold. destruct (mgmem_heap k !! p) as [m|]; [|done].
  destruct (refcnt m <? 1); [done|]. simpl.
  destruct (refcnt m - 1 =? 0), (wait_task m); simpl; try done.
  by rewrite insert_insert_eq.
Qed.

Lemma clenup_detach_spec (k : kstate) (t h : Z) :
  kwf k →
  clenup_detach t h k =
  let index := strom_mapped_gpu_memory_index h in
  let slot := chain_at (strom_mgmem_slots k) index in
  if decide (h ∈ slot) then
    match mgmem_heap k !! h with
    | Some m =>
        let k1 := set_mgmem_slots
                    (<[index := list_del h slot]> (strom_mgmem_slots k)) k in
        if 0 <? refcnt m then
          Ok (ClenupSleep h (wait_task m),
              set_mgmem_heap (<[h := set_wait_task (Some t) m]> (mgmem_heap k)) k1,
              [])
        else Ok (ClenupDrained h, k1, [])
    | None => Bug
    end
  else Ok (ClenupNotFound, k, []).
Proof.
  intros Hk. kunfold. rewrite mgmem_lookup_spec by done. simpl.
  destruct (decide _) as [Hin|Hnin]; [|done]. simpl.
  destruct (mgmem_heap k !! h) as [m|]; [|done].
  destruct (0 <? refcnt m); done.
Qed.

Lemma clenup_resume_spec (k : kstate) (p : Z) (sv : option Z) :
  clenup_resume p sv k =
  match mgmem_heap k !! p with
  | None => Bug
  | Some m =>
      if refcnt m =? 0 then Bug
      else Ok (tt, k, match sv with
                      | Some t => [EvWakeUpProcess t]
                      | None => []
                      end)
  end.
Proof.
  kunfold. destruct sv; simpl;
    destruct (mgmem_heap k !! p) as [m|]; try done;
    destruct (refcnt m =? 0); done.
Qed.

Lemma clenup_release_spec (k : kstate) (p : Z) :
  clenup_release p k =
  match mgmem_heap k !! p with
  | None => Bug
  | Some _ =>
      Ok (0, set_mgmem_heap (delete p (mgmem_heap k)) k,
          [EvP2PFreePageTable p; EvKfree p])
  end.
Proof. kunfold. destruct (mgmem_heap k !! p); done. Qed.

(** The first part of a map call either leaves the kernel state as it
    found it, or, having passed the pin, the page-size switch and the
    copy-out, stores the new object and returns 0 and the handle. *)
Lemma map_gpu_memory_pin_cases (k k' : kstate)
    (karg : option StromCmd__MapGpuMemory) (kmalloc : option Z) (tgid : Z)
    (gp : p2p_get_pages_result) (ok : bool) (rc : Z) (out : option Z)
    (evs : list event) :
  map_gpu_memory_pin karg kmalloc tgid gp ok k = Ok ((rc, out), k', evs) →
  (out = None ∧ k' = k ∧ ∀ t, EvWakeUpProcess t ∉ evs) ∨
  (∃ p c psz,
      out = Some p ∧ rc = 0 ∧ kmalloc = Some p ∧ karg = Some c ∧
      classify_page_size (pt_page_size (gp_table gp)) = Some psz ∧
      gp_rc gp = 0 ∧ ok = true ∧
      let m := {| refcnt := 0; owner := tgid; handle := p;
                  map_address := Z.land (vaddress c) GPU_BOUND_MASK;
                  map_offset := Z.land (vaddress c) GPU_BOUND_OFFSET;
                  map_length :=
                    ulong (Z.land (vaddress c) GPU_BOUND_OFFSET + cmd_length c);
                  wait_task := None; page_size := psz;
                  page_table := Some (gp_table gp) |} in
      k' = set_mgmem_heap (<[p := m]> (mgmem_heap k)) k ∧
      evs = [EvP2PGetPages p (map_address m) (map_length m)]).
Proof.
  unfold map_gpu_memory_pin. intros H.
  assert (Hnil : ∀ t, EvWakeUpProcess t ∉ []) by (intros t Ht; by apply elem_of_nil in Ht).
  destruct karg as [c|]; [|kunfold; simplify_eq; left; by split_and!].
  destruct kmalloc as [p|]; [|kunfold; simplify_eq; left; by split_and!].
  destruct (decide (gp_rc gp = 0)) as [Hrc|Hrc].
  - destruct (classify_page_size _) as [psz|] eqn:Hc.
    + destruct ok.
      * kunfold. simplify_eq/=. right. eexists p, c, psz. split_and!; done.
      * kunfold. simplify_eq/=. left. split_and!; try done.
        intros t Ht. repeat (apply elem_of_cons in Ht as [Ht|Ht]; [done|]).
        by apply elem_of_nil in Ht.
    + kunfold. simplify_eq/=. left. split_and!; try done.
      intros t Ht. repeat (apply elem_of_cons in Ht as [Ht|Ht]; [done|]).
      by apply elem_of_nil in Ht.
  - kunfold. simplify_eq/=. left. split_and!; try done.
    intros t Ht. repeat (apply elem_of_cons in Ht as [Ht|Ht]; [done|]).
    by apply elem_of_nil in Ht.
Qed.

Lemma map_gpu_memory_attach_spec (k : kstate) (p : Z) :
  map_gpu_memory_attach p k =
  let index := strom_mapped_gpu_memory_index p in
  Ok (tt,
      set_mgmem_slots
        (<[index := p :: chain_at (strom_mgmem_slots k) index]>
           (strom_mgmem_slots k)) k,
      []).
Proof. done. Qed.

(** The whole function is the first part followed, on success, by the
    attach. *)
Lemma strom_ioctl_map_gpu_memory_split (k : kstate)
    (karg : option StromCmd__MapGpuMemory) (kmalloc : option Z) (tgid : Z)
    (gp : p2p_get_pages_result) (ok : bool) :
  strom_ioctl_map_gpu_memory karg kmalloc tgid gp ok k =
  match map_gpu_memory_pin karg kmalloc tgid gp ok k with
  | Bug => Bug
  | Ok ((rc, Some p), k1, evs) =>
      match map_gpu_memory_attach p k1 with
      | Ok (_, k2, evs2) => Ok ((rc, Some p), k2, evs ++ evs2)
      | Bug => Bug
      end
  | Ok ((rc, None), k1, evs) => Ok ((rc, None), k1, evs)
  end.
Proof.
  unfold strom_ioctl_map_gpu_memory. unfold mbind at 1, K_bind, kbind.
  destruct (map_gpu_memory_pin _ _ _ _ _ k) as [[[[rc [p|]] k1] evs]|];
    [| |done]; simpl.
  - done.
  - unfold mret, K_ret, kret. by rewrite app_nil_r.
Qed.

(** A map call either links the new object, and only then returns 0 and
    the handle, or leaves the kernel state as it found it. *)
Lemma strom_ioctl_map_gpu_memory_cases (k k' : kstate)
    (karg : option StromCmd__MapGpuMemory) (kmalloc : option Z) (tgid : Z)
    (gp : p2p_get_pages_result) (ok : bool) (rc : Z) (out : option Z)
    (evs : list event) :
  strom_ioctl_map_gpu_memory karg kmalloc tgid gp ok k = Ok ((rc, out), k', evs) →
  (out = None ∧ k' = k ∧ ∀ t, EvWakeUpProcess t ∉ evs) ∨
  (∃ p c psz,
      out = Some p ∧ rc = 0 ∧ kmalloc = Some p ∧ karg = Some c ∧
      classify_page_size (pt_page_size (gp_table gp)) = Some psz ∧
      let index := strom_mapped_gpu_memory_index p in
      let m := {| refcnt := 0; owner := tgid; handle := p;
                  map_address := Z.land (vaddress c) GPU_BOUND_MASK;
                  map_offset := Z.land (vaddress c) GPU_BOUND_OFFSET;
                  map_length :=
                    ulong (Z.land (vaddress c) GPU_BOUND_OFFSET + cmd_length c);
                  wait_task := None; page_size := psz;
                  page_table := Some (gp_table gp) |} in
      k' = set_mgmem_slots
             (<[index := p :: chain_at (strom_mgmem_slots k) index]>
                (strom_mgmem_slots k))
             (set_mgmem_heap (<[p := m]> (mgmem_heap k)) k) ∧
      evs = [EvP2PGetPages p (map_address m) (map_length m)]).
Proof.
  rewrite strom_ioctl_map_gpu_memory_split. intros H.
  destruct (map_gpu_memory_pin _ _ _ _ _ k) as [[[[rc1 out1] k1] evs1]|] eqn:Hpin;
    [|done].
  apply map_gpu_memory_pin_cases in Hpin
    as [(-> & -> & Hev)|(p & c & psz & -> & -> & -> & -> & Hc & _ & _ & Hk1 & ->)].
  - simplify_eq. by left.
  - rewrite map_gpu_memory_attach_spec in H. simpl in H, Hk1. simplify_eq.
    right. eexists p, c, psz. split_and!; done.
Qed.

(** *** Well-formedness of the kernel state is kept *)

Lemma kwf_init : kwf nvme_strom_init.
Proof.
  split; unfold nvme_strom_init; cbn [strom_mgmem_slots mgmem_heap].
  - apply length_replicate.
  - intros i chain p [-> _]%lookup_replicate Hp. by apply elem_of_nil in Hp.
  - intros i chain [-> _]%lookup_replicate. constructor.
  - intros p m Hm. by rewrite lookup_empty in Hm.
Qed.

Lemma kwf_store (k : kstate) (p : Z) (m m' : mapped_gpu_memory) :
  kwf k → mgmem_heap k !! p = Some m →
  handle m' = handle m → 0 ≤ refcnt m' < INT_MAX →
  page_table m' = page_table m →
  (wait_task m' = None ∨ ¬ registered k p) →
  kwf (set_mgmem_heap (<[p := m']> (mgmem_heap k)) k).
Proof.
  intros Hk Hm Hh Hr Hpt Hw. split; simpl.
  - apply (kwf_len k Hk).
  - intros i chain q Hi Hq.
    destruct (kwf_chain k Hk i chain q Hi Hq) as [-> (mq & Hmq & Hptq & Hwq)].
    split; [done|]. destruct (decide (q = p)) as [->|Hne].
    + rewrite lookup_insert_eq. exists m'. simplify_eq.
      split_and!; [done | by rewrite Hpt |].
      destruct Hw as [Hw|Hw]; [done|]. destruct Hw. eexists _, chain; split; eassumption.
    + rewrite lookup_insert_ne by done. eauto.
  - apply (kwf_nodup k Hk).
  - intros q mq. destruct (decide (q = p)) as [->|Hne].
    + rewrite lookup_insert_eq. intros [= <-].
      destruct (kwf_heap k Hk p m Hm) as [Hhm _]. split; [congruence | done].
    + rewrite lookup_insert_ne by done. apply (kwf_heap k Hk).
Qed.

Lemma registered_detach (k : kstate) (h q : Z) :
  kwf k →
  let index := strom_mapped_gpu_memory_index h in
  registered
    (set_mgmem_slots
       (<[index := list_del h (chain_at (strom_mgmem_slots k) index)]>
          (strom_mgmem_slots k)) k) q
  ↔ registered k q ∧ q ≠ h.
Proof.
  intros Hk index.
  assert (Hlt : (index < length (strom_mgmem_slots k))%nat).
  { rewrite (kwf_len k Hk). apply strom_mapped_gpu_memory_index_lt. }
  pose proof (chain_at_lookup _ _ Hlt) as Hslot.
  pose proof (kwf_nodup k Hk _ _ Hslot) as Hnd.
  split.
  - intros (i & chain & Hi & Hq). simpl in Hi.
    destruct (decide (i = index)) as [->|Hne].
    + rewrite list_lookup_insert_eq in Hi by done. simplify_eq. split.
      * exists index, (chain_at (strom_mgmem_slots k) index).
        split; [done|]. by eapply list_del_elem_of.
      * intros ->. by apply (list_del_NoDup h _ Hnd).
    + rewrite list_lookup_insert_ne in Hi by done. split; [by exists i, chain|].
      intros ->. destruct (kwf_chain k Hk i chain h Hi Hq) as [-> _]. done.
  - intros [(i & chain & Hi & Hq) Hne]. unfold registered. simpl.
    destruct (decide (i = index)) as [->|Hni].
    + exists index, (list_del h (chain_at (strom_mgmem_slots k) index)).
      rewrite list_lookup_insert_eq by done. split; [done|].
      apply list_del_other; [done|]. rewrite Hslot in Hi. by simplify_eq.
    + exists i, chain. by rewrite list_lookup_insert_ne.
Qed.

Lemma kwf_detach (k : kstate) (h : Z) :
  kwf k →
  let index := strom_mapped_gpu_memory_index h in
  kwf (set_mgmem_slots
         (<[index := list_del h (chain_at (strom_mgmem_slots k) index)]>
            (strom_mgmem_slots k)) k).
Proof.
  intros Hk index.
  assert (Hlt : (index < length (strom_mgmem_slots k))%nat).
  { rewrite (kwf_len k Hk). apply strom_mapped_gpu_memory_index_lt. }
  pose proof (chain_at_lookup _ _ Hlt) as Hslot.
  split; simpl.
  - rewrite length_insert. apply (kwf_len k Hk).
  - intros i chain q Hi Hq. destruct (decide (i = index)) as [->|Hne].
    + rewrite list_lookup_insert_eq in Hi by done. simplify_eq.
      apply (kwf_chain k Hk index _ q Hslot). by eapply list_del_elem_of.
    + rewrite list_lookup_insert_ne in Hi by done.
      by apply (kwf_chain k Hk i chain q).
  - intros i chain Hi. destruct (decide (i = index)) as [->|Hne].
    + rewrite list_lookup_insert_eq in Hi by done. simplify_eq.
      apply list_del_NoDup. by apply (kwf_nodup k Hk index).
    + rewrite list_lookup_insert_ne in Hi by done.
      by apply (kwf_nodup k Hk i).
  - apply (kwf_heap k Hk).
Qed.

Lemma kwf_delete (k : kstate) (p : Z) :
  kwf k → ¬ registered k p →
  kwf (set_mgmem_heap (delete p (mgmem_heap k)) k).
Proof.
  intros Hk Hp. split; simpl.
  - apply (kwf_len k Hk).
  - intros i chain q Hi Hq.
    destruct (kwf_chain k Hk i chain q Hi Hq) as [-> (mq & Hmq & Hrest)].
    split; [done|]. exists mq. split; [|done].
    rewrite lookup_delete_ne; [done|]. intros ->. apply Hp. eexists _, chain; split; eassumption.
  - apply (kwf_nodup k Hk).
  - intros q mq Hq. apply lookup_delete_Some in Hq as [_ Hq].
    by apply (kwf_heap k Hk).
Qed.

Lemma registered_map (k : kstate) (p q : Z) (m : mapped_gpu_memory) :
  kwf k →
  let index := strom_mapped_gpu_memory_index p in
  registered
    (set_mgmem_slots
       (<[index := p :: chain_at (strom_mgmem_slots k) index]>
          (strom_mgmem_slots k))
       (set_mgmem_heap (<[p := m]> (mgmem_heap k)) k)) q
  ↔ q = p ∨ registered k q.
Proof.
  intros Hk index.
  assert (Hlt : (index < length (strom_mgmem_slots k))%nat).
  { rewrite (kwf_len k Hk). apply strom_mapped_gpu_memory_index_lt. }
  pose proof (chain_at_lookup _ _ Hlt) as Hslot.
  split.
  - intros (i & chain & Hi & Hq). simpl in Hi.
    destruct (decide (i = index)) as [->|Hne].
    + rewrite list_lookup_insert_eq in Hi by done. simplify_eq.
      apply elem_of_cons in Hq as [->|Hq]; [by left|].
      right. by exists index, (chain_at (strom_mgmem_slots k) index).
    + rewrite list_lookup_insert_ne in Hi by done. right. by exists i, chain.
  - intros [->|(i & chain & Hi & Hq)]; unfold registered; simpl.
    + exists index, (p :: chain_at (strom_mgmem_slots k) index).
      rewrite list_lookup_insert_eq by done. split; [done | by left].
    + destruct (decide (i = index)) as [->|Hne].
      * exists index, (p :: chain_at (strom_mgmem_slots k) index).
        rewrite list_lookup_insert_eq by done. split; [done|].
        right. rewrite Hslot in Hi. by simplify_eq.
      * exists i, chain. by rewrite list_lookup_insert_ne.
Qed.

Lemma kwf_map (k : kstate) (p : Z) (m : mapped_gpu_memory) :
  kwf k → mgmem_heap k !! p = None →
  handle m = p → 0 ≤ refcnt m < INT_MAX →
  is_Some (page_table m) → wait_task m = None →
  let index := strom_mapped_gpu_memory_index p in
  kwf (set_mgmem_slots
         (<[index := p :: chain_at (strom_mgmem_slots k) index]>
            (strom_mgmem_slots k))
         (set_mgmem_heap (<[p := m]> (mgmem_heap k)) k)).
Proof.
  intros Hk Hfresh Hh Hr Hpt Hw index.
  assert (Hlt : (index < length (strom_mgmem_slots k))%nat).
  { rewrite (kwf_len k Hk). apply strom_mapped_gpu_memory_index_lt. }
  pose proof (chain_at_lookup _ _ Hlt) as Hslot.
  assert (Hold : ∀ i chain q, strom_mgmem_slots k !! i = Some chain →
                              q ∈ chain → q ≠ p).
  { intros i chain q Hi Hq ->.
    destruct (kwf_chain k Hk i chain p Hi Hq) as [_ (mq & Hmq & _)].
    congruence. }
  split; simpl.
  - rewrite length_insert. apply (kwf_len k Hk).
  - intros i chain q Hi Hq. destruct (decide (i = index)) as [->|Hne].
    + rewrite list_lookup_insert_eq in Hi by done. simplify_eq.
      apply elem_of_cons in Hq as [->|Hq].
      * split; [done|]. exists m. by rewrite lookup_insert_eq.
      * destruct (kwf_chain k Hk index _ q Hslot Hq) as [Hix (mq & Hmq & Hrest)].
        split; [done|]. exists mq. split; [|done].
        rewrite lookup_insert_ne; [done|]. intros <-. by eapply Hold.
    + rewrite list_lookup_insert_ne in Hi by done.
      destruct (kwf_chain k Hk i chain q Hi Hq) as [Hix (mq & Hmq & Hrest)].
      split; [done|]. exists mq. split; [|done].
      rewrite lookup_insert_ne; [done|]. intros <-. by eapply Hold.
  - intros i chain Hi. destruct (decide (i = index)) as [->|Hne].
    + rewrite list_lookup_insert_eq in Hi by done. simplify_eq.
      constructor; [|by apply (kwf_nodup k Hk index)].
      intros Hin. by eapply Hold.
    + rewrite list_lookup_insert_ne in Hi by done.
      by apply (kwf_nodup k Hk i).
  - intros q mq. destruct (decide (q = p)) as [->|Hne].
    + rewrite lookup_insert_eq. by intros [= <-].
    + rewrite lookup_insert_ne by done. apply (kwf_heap k Hk).
Qed.

(** A fresh object that is on no chain yet. *)
Lemma kwf_alloc (k : kstate) (p : Z) (m : mapped_gpu_memory) :
  kwf k → mgmem_heap k !! p = None →
  handle m = p → 0 ≤ refcnt m < INT_MAX →
  kwf (set_mgmem_heap (<[p := m]> (mgmem_heap k)) k).
Proof.
  intros Hk Hfresh Hh Hr. split; simpl.
  - apply (kwf_len k Hk).
  - intros i chain q Hi Hq.
    destruct (kwf_chain k Hk i chain q Hi Hq) as [-> (mq & Hmq & Hrest)].
    split; [done|]. exists mq. split; [|done].
    rewrite lookup_insert_ne; [done|]. congruence.
  - apply (kwf_nodup k Hk).
  - intros q mq. destruct (decide (q = p)) as [->|Hne].
    + rewrite lookup_insert_eq. by intros [= <-].
    + rewrite lookup_insert_ne by done. apply (kwf_heap k Hk).
Qed.

Lemma registered_attach (k : kstate) (p q : Z) :
  kwf k →
  let index := strom_mapped_gpu_memory_index p in
  registered
    (set_mgmem_slots
       (<[index := p :: chain_at (strom_mgmem_slots k) index]>
          (strom_mgmem_slots k)) k) q
  ↔ q = p ∨ registered k q.
Proof.
  intros Hk index.
  pose proof (registered_map k p q
                {| refcnt := 0; owner := 0; handle := p; map_address := 0;
                   map_offset := 0; map_length := 0; wait_task := None;
                   page_size := 0; page_table := None |} Hk) as H.
  exact H.
Qed.

(** A live, pinned object without a waiter is put on its chain. *)
Lemma kwf_attach (k : kstate) (p : Z) (m : mapped_gpu_memory) :
  kwf k → ¬ registered k p → mgmem_heap k !! p = Some m →
  is_Some (page_table m) → wait_task m = None →
  let index := strom_mapped_gpu_memory_index p in
  kwf (set_mgmem_slots
         (<[index := p :: chain_at (strom_mgmem_slots k) index]>
            (strom_mgmem_slots k)) k).
Proof.
  intros Hk Hnr Hm Hpt Hw index.
  assert (Hlt : (index < length (strom_mgmem_slots k))%nat).
  { rewrite (kwf_len k Hk). apply strom_mapped_gpu_memory_index_lt. }
  pose proof (chain_at_lookup _ _ Hlt) as Hslot.
  assert (Hold : ∀ i chain q, strom_mgmem_slots k !! i = Some chain →
                              q ∈ chain → q ≠ p).
  { intros i chain q Hi Hq ->. apply Hnr. by exists i, chain. }
  split; simpl.
  - rewrite length_insert. apply (kwf_len k Hk).
  - intros i chain q Hi Hq. destruct (decide (i = index)) as [->|Hne].
    + rewrite list_lookup_insert_eq in Hi by done. simplify_eq.
      apply elem_of_cons in Hq as [->|Hq]; [by eauto|].
      by apply (kwf_chain k Hk index _ q Hslot).
    + rewrite list_lookup_insert_ne in Hi by done.
      by apply (kwf_chain k Hk i chain q).
  - intros i chain Hi. destruct (decide (i = index)) as [->|Hne].
    + rewrite list_lookup_insert_eq in Hi by done. simplify_eq.
      constructor; [|by apply (kwf_nodup k Hk index)].
      intros Hin. by eapply Hold.
    + rewrite list_lookup_insert_ne in Hi by done.
      by apply (kwf_nodup k Hk i).
  - apply (kwf_heap k Hk).
Qed.

(** *** The invariant is kept by every step *)

Lemma system_eta (σ : system) : {| kern := kern σ; threads := threads σ |} = σ.
Proof. by destruct σ. Qed.

Lemma inv_init : inv {| kern := nvme_strom_init; threads := ∅ |}.
Proof.
  split; simpl; try (intros; simplify_map_eq; done).
  apply kwf_init.
Qed.

Lemma inv_thread_object (σ : system) (t : Z) (c : pc) :
  inv σ → threads σ !! t = Some c →
  ¬ registered (kern σ) (pc_object c) ∧
  is_Some (mgmem_heap (kern σ) !! pc_object c).
Proof.
  intros Hinv Ht. destruct c as [p sv|p sv|p|p]; simpl.
  - destruct (inv_sleep σ Hinv t p sv Ht) as (_ & ? & m & ? & _). eauto.
  - destruct (inv_woken σ Hinv t p sv Ht) as (_ & ? & m & ? & _). eauto.
  - destruct (inv_release σ Hinv t p Ht) as (? & m & ? & _). eauto.
  - destruct (inv_attach σ Hinv t p Ht) as (? & m & ? & _). eauto.
Qed.

(** Objects held by callers stay as they are when another object is
    stored, and off the chains when the chains do not change. *)
Lemma inv_insert_other (σ : system) (p : Z) (m : mapped_gpu_memory)
    (th : gmap Z pc) :
  inv σ →
  (∀ t c, th !! t = Some c →
          threads σ !! t = Some c ∧ pc_object c ≠ p) →
  let k' := set_mgmem_heap (<[p := m]> (mgmem_heap (kern σ))) (kern σ) in
  (∀ t q sv, th !! t = Some (PcSleep q sv) →
     sv = None ∧ ¬ registered k' q ∧
     ∃ mq, mgmem_heap k' !! q = Some mq ∧ 0 < refcnt mq ∧
           wait_task mq = Some t) ∧
  (∀ t q sv, th !! t = Some (PcWoken q sv) →
     sv = None ∧ ¬ registered k' q ∧
     ∃ mq, mgmem_heap k' !! q = Some mq ∧ refcnt mq = 0 ∧
           wait_task mq = None) ∧
  (∀ t q, th !! t = Some (PcRelease q) →
     ¬ registered k' q ∧
     ∃ mq, mgmem_heap k' !! q = Some mq ∧ refcnt mq = 0 ∧
           wait_task mq = None) ∧
  (∀ t q, th !! t = Some (PcAttach q) →
     ¬ registered k' q ∧
     ∃ mq, mgmem_heap k' !! q = Some mq ∧ refcnt mq = 0 ∧
           wait_task mq = None ∧ is_Some (page_table mq)).
Proof.
  intros Hinv Hth k'. split_and!.
  - intros t q sv Ht. destruct (Hth _ _ Ht) as [Ht' Hne]. simpl in Hne.
    destruct (inv_sleep σ Hinv t q sv Ht') as (-> & Hnr & mq & Hmq & Hrest).
    split_and!; [done..|]. exists mq. subst k'. simpl.
    by rewrite lookup_insert_ne.
  - intros t q sv Ht. destruct (Hth _ _ Ht) as [Ht' Hne]. simpl in Hne.
    destruct (inv_woken σ Hinv t q sv Ht') as (-> & Hnr & mq & Hmq & Hrest).
    split_and!; [done..|]. exists mq. subst k'. simpl.
    by rewrite lookup_insert_ne.
  - intros t q Ht. destruct (Hth _ _ Ht) as [Ht' Hne]. simpl in Hne.
    destruct (inv_release σ Hinv t q Ht') as (Hnr & mq & Hmq & Hrest).
    split_and!; [done|]. exists mq. subst k'. simpl.
    by rewrite lookup_insert_ne.
  - intros t q Ht. destruct (Hth _ _ Ht) as [Ht' Hne]. simpl in Hne.
    destruct (inv_attach σ Hinv t q Ht') as (Hnr & mq & Hmq & Hrest).
    split_and!; [done|]. exists mq. subst k'. simpl.
    by rewrite lookup_insert_ne.
Qed.

Lemma step_pin_inv (σ : system) (k' : kstate) t karg kmalloc tgid gp ok rc out
    evs :
  inv σ → threads σ !! t = None →
  (∀ p, kmalloc = Some p → mgmem_heap (kern σ) !! p = None) →
  map_gpu_memory_pin karg kmalloc tgid gp ok (kern σ)
    = Ok ((rc, out), k', evs) →
  inv {| kern := k'; threads := after_pin t out (threads σ) |}.
Proof.
  intros Hinv Hfree Hfresh Hmap.
  apply map_gpu_memory_pin_cases in Hmap
    as [(-> & -> & _)
       |(p & c & psz & -> & -> & -> & -> & Hc & _ & _ & Hk' & ->)].
  { simpl. by rewrite system_eta. }
  specialize (Hfresh p eq_refl). simpl in Hk'. subst k'. simpl.
  pose proof (inv_kwf σ Hinv) as Hk.
  assert (Hobj : ∀ t1 c, threads σ !! t1 = Some c → pc_object c ≠ p).
  { intros t1 c0 Ht Heq.
    destruct (inv_thread_object σ t1 c0 Hinv Ht) as [_ [m Hm]].
    congruence. }
  assert (Hnr : ¬ registered (kern σ) p).
  { intros (i & chain & Hi & Hp).
    destruct (kwf_chain _ Hk i chain p Hi Hp) as [_ (m & Hm & _)]. congruence. }
  set (m := {| refcnt := 0; owner := tgid; handle := p;
               map_address := _; map_offset := _; map_length := _;
               wait_task := None; page_size := psz;
               page_table := Some (gp_table gp) |}).
  destruct (inv_insert_other σ p m (threads σ) Hinv) as (Hs & Hw & Hr & Ha).
  { intros t1 c1 Ht1. split; [done | by eapply Hobj]. }
  split; simpl.
  - apply kwf_alloc; simpl; [done..|]. unfold INT_MAX. lia.
  - intros q mq t'. destruct (decide (q = p)) as [->|Hne].
    + rewrite lookup_insert_eq. by intros [= <-].
    + rewrite lookup_insert_ne by done. intros Hmq Hwq.
      pose proof (inv_waiter σ Hinv q mq t' Hmq Hwq) as Ht'.
      rewrite lookup_insert_ne; [done|]. intros <-. congruence.
  - intros t1 q sv. destruct (decide (t1 = t)) as [->|Hne].
    + by rewrite lookup_insert_eq.
    + rewrite lookup_insert_ne by done. apply Hs.
  - intros t1 q sv. destruct (decide (t1 = t)) as [->|Hne].
    + by rewrite lookup_insert_eq.
    + rewrite lookup_insert_ne by done. apply Hw.
  - intros t1 q. destruct (decide (t1 = t)) as [->|Hne].
    + by rewrite lookup_insert_eq.
    + rewrite lookup_insert_ne by done. apply Hr.
  - intros t1 q. destruct (decide (t1 = t)) as [->|Hne].
    + rewrite lookup_insert_eq. intros [= <-]. split; [done|].
      exists m. rewrite lookup_insert_eq. split_and!; by eauto.
    + rewrite lookup_insert_ne by done. apply Ha.
  - intros t1 t2 c1 c2.
    destruct (decide (t1 = t)) as [->|H1], (decide (t2 = t)) as [->|H2];
      rewrite ?lookup_insert_eq, ?lookup_insert_ne by done; try done.
    + intros [= <-] H2' Heq. destruct (Hobj t2 c2 H2'). by rewrite <- Heq.
    + intros H1' [= <-] Heq. destruct (Hobj t1 c1 H1'). by rewrite Heq.
    + apply (inv_unique σ Hinv).
Qed.

Lemma step_attach_inv (σ : system) (k' : kstate) t p u evs :
  inv σ → threads σ !! t = Some (PcAttach p) →
  map_gpu_memory_attach p (kern σ) = Ok (u, k', evs) →
  inv {| kern := k'; threads := delete t (threads σ) |}.
Proof.
  intros Hinv Ht Hatt. pose proof (inv_kwf σ Hinv) as Hk.
  destruct (inv_attach σ Hinv t p Ht) as (Hnr & m & Hm & Hr & Hw & Hpt).
  rewrite map_gpu_memory_attach_spec in Hatt. injection Hatt as <- <- <-.
  assert (Hother : ∀ t1 c, t1 ≠ t → threads σ !! t1 = Some c → pc_object c ≠ p).
  { intros t1 c Hne Ht1 Hobj. apply Hne.
    by apply (inv_unique σ Hinv t1 t c (PcAttach p)). }
  assert (Hkeep : ∀ q, q ≠ p → ¬ registered (kern σ) q →
            ¬ registered
                (set_mgmem_slots
                   (<[strom_mapped_gpu_memory_index p :=
                        p :: chain_at (strom_mgmem_slots (kern σ))
                               (strom_mapped_gpu_memory_index p)]>
                      (strom_mgmem_slots (kern σ))) (kern σ)) q).
  { intros q Hne Hq [?|?]%registered_attach; done. }
  split; simpl.
  - by eapply kwf_attach.
  - intros q mq t' Hmq Hwq.
    pose proof (inv_waiter σ Hinv q mq t' Hmq Hwq) as Ht'.
    rewrite lookup_delete_ne; [done|]. intros <-. congruence.
  - intros t1 q sv [Hne Ht1]%lookup_delete_Some.
    pose proof (Hother t1 _ (not_eq_sym Hne) Ht1) as Hq. simpl in Hq.
    destruct (inv_sleep σ Hinv t1 q sv Ht1) as (-> & ? & ?).
    split_and!; [done | by apply Hkeep | done].
  - intros t1 q sv [Hne Ht1]%lookup_delete_Some.
    pose proof (Hother t1 _ (not_eq_sym Hne) Ht1) as Hq. simpl in Hq.
    destruct (inv_woken σ Hinv t1 q sv Ht1) as (-> & ? & ?).
    split_and!; [done | by apply Hkeep | done].
  - intros t1 q [Hne Ht1]%lookup_delete_Some.
    pose proof (Hother t1 _ (not_eq_sym Hne) Ht1) as Hq. simpl in Hq.
    destruct (inv_release σ Hinv t1 q Ht1) as (? & ?).
    split_and!; [by apply Hkeep | done].
  - intros t1 q [Hne Ht1]%lookup_delete_Some.
    pose proof (Hother t1 _ (not_eq_sym Hne) Ht1) as Hq. simpl in Hq.
    destruct (inv_attach σ Hinv t1 q Ht1) as (? & ?).
    split_and!; [by apply Hkeep | done].
  - intros t1 t2 c1 c2 [_ H1]%lookup_delete_Some [_ H2]%lookup_delete_Some.
    by apply (inv_unique σ Hinv).
Qed.

Lemma step_get_inv (σ : system) (k' : kstate) h r evs :
  inv σ →
  (∀ m, registered (kern σ) h → mgmem_heap (kern σ) !! h = Some m →
        refcnt m < INT_MAX - 1) →
  strom_get_mapped_gpu_memory h (kern σ) = Ok (r, k', evs) →
  inv {| kern := k'; threads := threads σ |}.
Proof.
  intros Hinv Hroom Hget. pose proof (inv_kwf σ Hinv) as Hk.
  rewrite strom_get_mapped_gpu_memory_spec in Hget by done.
  destruct (decide _) as [Hin|Hnin]; [|simplify_eq; by rewrite system_eta].
  destruct (kwf_chain_at _ _ _ Hk Hin) as [_ (m & Hm & Hh & Hr & Hpt & Hw)].
  rewrite Hm in Hget. injection Hget as <- <- <-.
  assert (Hreg : registered (kern σ) h) by by apply registered_chain_at.
  assert (Hobj : ∀ t c, threads σ !! t = Some c → pc_object c ≠ h).
  { intros t c0 Ht Heq.
    destruct (inv_thread_object σ t c0 Hinv Ht) as [Hnr _]. congruence. }
  specialize (Hroom m Hreg Hm).
  destruct (inv_insert_other σ h (set_refcnt (refcnt m + 1) m) (threads σ) Hinv)
    as (Hs & Hwk & Hrl & Ha).
  { intros t1 c1 Ht1. split; [done | by eapply Hobj]. }
  split; simpl; [| |done..|apply (inv_unique σ Hinv)].
  - eapply kwf_store; eauto; simpl; lia.
  - intros q mq t. destruct (decide (q = h)) as [->|Hne].
    + rewrite lookup_insert_eq. intros [= <-]. simpl. congruence.
    + rewrite lookup_insert_ne by done. apply (inv_waiter σ Hinv).
Qed.

Lemma step_put_inv (σ : system) (k' : kstate) p u evs :
  inv σ →
  strom_put_mapped_gpu_memory p (kern σ) = Ok (u, k', evs) →
  inv {| kern := k'; threads := deliver evs (threads σ) |}.
Proof.
  intros Hinv Hput. pose proof (inv_kwf σ Hinv) as Hk.
  rewrite strom_put_mapped_gpu_memory_spec in Hput.
  destruct (mgmem_heap (kern σ) !! p) as [m|] eqn:Hm; [|done].
  destruct (refcnt m <? 1) eqn:Hlt; [done|]. apply Z.ltb_ge in Hlt.
  destruct (kwf_heap _ Hk p m Hm) as [Hh Hrange].
  assert (Hquiet : ∀ m',
    m' = set_refcnt (refcnt m - 1) m →
    (∀ t, wait_task m = Some t → refcnt m - 1 ≠ 0) →
    inv {| kern := set_mgmem_heap (<[p := m']> (mgmem_heap (kern σ))) (kern σ);
           threads := threads σ |}).
  { intros m' -> Hnz. split; simpl.
    - eapply kwf_store; [done..|simpl; lia|done|].
      destruct (wait_task m) as [t|] eqn:Hw; [right|by left].
      by destruct (inv_sleep σ Hinv t p None (inv_waiter σ Hinv p m t Hm Hw))
        as (_ & ? & _).
    - intros q mq t. destruct (decide (q = p)) as [->|Hne].
      + rewrite lookup_insert_eq. intros [= <-]. simpl.
        by apply (inv_waiter σ Hinv).
      + rewrite lookup_insert_ne by done. apply (inv_waiter σ Hinv).
    - intros t q sv Ht.
      destruct (inv_sleep σ Hinv t q sv Ht) as (-> & Hnr & mq & Hmq & Hr & Hw).
      split_and!; [done..|]. destruct (decide (q = p)) as [->|Hne].
      + rewrite lookup_insert_eq. eexists. split; [done|]. simplify_eq. simpl.
        specialize (Hnz t Hw). split; [lia | done].
      + rewrite lookup_insert_ne by done. eauto.
    - intros t q sv Ht.
      destruct (inv_woken σ Hinv t q sv Ht) as (-> & Hnr & mq & Hmq & Hr & Hw).
      split_and!; [done..|]. destruct (decide (q = p)) as [->|Hne].
      + simplify_eq. lia.
      + rewrite lookup_insert_ne by done. eauto.
    - intros t q Ht.
      destruct (inv_release σ Hinv t q Ht) as (Hnr & mq & Hmq & Hr & Hw).
      split_and!; [done|]. destruct (decide (q = p)) as [->|Hne].
      + simplify_eq. lia.
      + rewrite lookup_insert_ne by done. eauto.
    - intros t q Ht.
      destruct (inv_attach σ Hinv t q Ht) as (Hnr & mq & Hmq & Hr & Hw).
      split_and!; [done|]. destruct (decide (q = p)) as [->|Hne].
      + simplify_eq. lia.
      + rewrite lookup_insert_ne by done. eauto.
    - apply (inv_unique σ Hinv). }
  simpl in Hput. destruct (wait_task m) as [t|] eqn:Hw.
  2: { injection Hput as <- <- <-. simpl. by apply Hquiet. }
  destruct (refcnt m - 1 =? 0) eqn:Hz.
  2: { injection Hput as <- <- <-. simpl. apply Z.eqb_neq in Hz.
       apply Hquiet; [done|]. by intros. }
  apply Z.eqb_eq in Hz. injection Hput as <- <- <-.
  pose proof (inv_waiter σ Hinv p m t Hm Hw) as Ht.
  destruct (inv_sleep σ Hinv t p None Ht) as (_ & Hnr & _).
  assert (Hth : deliver [EvWakeUpProcess t] (threads σ)
                = <[t := PcWoken p None]> (threads σ)).
  { simpl. unfold wake_up_process. by rewrite Ht. }
  rewrite Hth. clear Hth.
  assert (Hother : ∀ t1 c, t1 ≠ t → threads σ !! t1 = Some c → pc_object c ≠ p).
  { intros t1 c Hne Ht1 Hobj. apply Hne.
    by apply (inv_unique σ Hinv t1 t c (PcSleep p None)). }
  split; simpl.
  - eapply kwf_store; [done..|simpl; lia|done|by left].
  - intros q mq t'. destruct (decide (q = p)) as [->|Hne].
    + rewrite lookup_insert_eq. by intros [= <-].
    + rewrite lookup_insert_ne by done. intros Hmq Hwq.
      pose proof (inv_waiter σ Hinv q mq t' Hmq Hwq) as Ht'.
      rewrite lookup_insert_ne; [done|]. intros <-. simplify_eq.
  - intros t1 q sv. destruct (decide (t1 = t)) as [->|Hne].
    + by rewrite lookup_insert_eq.
    + rewrite lookup_insert_ne by done. intros Ht1.
      pose proof (Hother t1 _ Hne Ht1) as Hq. simpl in Hq.
      destruct (inv_sleep σ Hinv t1 q sv Ht1) as (-> & ? & mq & ? & ?).
      split_and!; [done..|]. exists mq. by rewrite lookup_insert_ne.
  - intros t1 q sv. destruct (decide (t1 = t)) as [->|Hne].
    + rewrite lookup_insert_eq. intros [= <- <-]. split_and!; [done..|].
      rewrite lookup_insert_eq. eexists. split; [done|]. simpl. split; [lia|done].
    + rewrite lookup_insert_ne by done. intros Ht1.
      pose proof (Hother t1 _ Hne Ht1) as Hq. simpl in Hq.
      destruct (inv_woken σ Hinv t1 q sv Ht1) as (-> & ? & mq & ? & ?).
      split_and!; [done..|]. exists mq. by rewrite lookup_insert_ne.
  - intros t1 q. destruct (decide (t1 = t)) as [->|Hne].
    + by rewrite lookup_insert_eq.
    + rewrite lookup_insert_ne by done. intros Ht1.
      pose proof (Hother t1 _ Hne Ht1) as Hq. simpl in Hq.
      destruct (inv_release σ Hinv t1 q Ht1) as (? & mq & ? & ?).
      split_and!; [done|]. exists mq. by rewrite lookup_insert_ne.
  - intros t1 q. destruct (decide (t1 = t)) as [->|Hne].
    + by rewrite lookup_insert_eq.
    + rewrite lookup_insert_ne by done. intros Ht1.
      pose proof (Hother t1 _ Hne Ht1) as Hq. simpl in Hq.
      destruct (inv_attach σ Hinv t1 q Ht1) as (? & mq & ? & ?).
      split_and!; [done|]. exists mq. by rewrite lookup_insert_ne.
  - intros t1 t2 c1 c2 H1 H2 Hobj.
    assert (Hfix : ∀ t' c', <[t := PcWoken p None]> (threads σ) !! t' = Some c' →
                   ∃ c'', threads σ !! t' = Some c'' ∧ pc_object c'' = pc_object c').
    { intros t' c'. destruct (decide (t' = t)) as [->|Hne].
      - rewrite lookup_insert_eq. intros [= <-]. eauto.
      - rewrite lookup_insert_ne by done. eauto. }
    destruct (Hfix _ _ H1) as (d1 & Hd1 & He1).
    destruct (Hfix _ _ H2) as (d2 & Hd2 & He2).
    apply (inv_unique σ Hinv t1 t2 d1 d2); congruence.
Qed.

Lemma step_clenup_inv (σ : system) (k' : kstate) t h st evs :
  inv σ → threads σ !! t = None →
  clenup_detach t h (kern σ) = Ok (st, k', evs) →
  inv {| kern := k'; threads := after_clenup t st (threads σ) |}.
Proof.
  intros Hinv Hfree Hdet. pose proof (inv_kwf σ Hinv) as Hk.
  rewrite clenup_detach_spec in Hdet by done. simpl in Hdet.
  destruct (decide _) as [Hin|Hnin];
    [|injection Hdet as <- <- <-; simpl; by rewrite system_eta].
  destruct (kwf_chain_at _ _ _ Hk Hin) as [_ (m & Hm & Hh & Hr & Hpt & Hw)].
  rewrite Hm in Hdet.
  assert (Hreg : registered (kern σ) h) by by apply registered_chain_at.
  set (k1 := set_mgmem_slots _ (kern σ)) in Hdet.
  assert (Hk1 : kwf k1) by by apply kwf_detach.
  assert (Hnr1 : ¬ registered k1 h).
  { intros [_ ?]%registered_detach; done. }
  assert (Hkeep : ∀ q, ¬ registered (kern σ) q → ¬ registered k1 q).
  { intros q Hq [? _]%registered_detach; done. }
  assert (Hobj : ∀ t1 c, threads σ !! t1 = Some c → pc_object c ≠ h).
  { intros t1 c Ht1 Heq.
    destruct (inv_thread_object σ t1 c Hinv Ht1) as [Hnr _]. congruence. }
  assert (Huniq : ∀ c0, pc_object c0 = h → ∀ t1 t2 c1 c2,
            <[t := c0]> (threads σ) !! t1 = Some c1 →
            <[t := c0]> (threads σ) !! t2 = Some c2 →
            pc_object c1 = pc_object c2 → t1 = t2).
  { intros c0 Hc0 t1 t2 c1 c2.
    destruct (decide (t1 = t)) as [->|H1], (decide (t2 = t)) as [->|H2];
      rewrite ?lookup_insert_eq, ?lookup_insert_ne by done; try done.
    - intros [= <-] H2' Heq. destruct (Hobj t2 c2 H2'). congruence.
    - intros H1' [= <-] Heq. destruct (Hobj t1 c1 H1'). congruence.
    - apply (inv_unique σ Hinv). }
  destruct (0 <? refcnt m) eqn:Hpos.
  - apply Z.ltb_lt in Hpos. injection Hdet as <- <- <-. rewrite Hw. simpl.
    split; simpl.
    + eapply (kwf_store k1); [done..|simpl; lia|done|by right].
    + intros q mq t'. destruct (decide (q = h)) as [->|Hne].
      * rewrite lookup_insert_eq. intros [= <-]. simpl. intros [= <-].
        by rewrite lookup_insert_eq.
      * rewrite lookup_insert_ne by done. intros Hmq Hwq.
        pose proof (inv_waiter σ Hinv q mq t' Hmq Hwq) as Ht'.
        rewrite lookup_insert_ne; [done|]. intros <-. congruence.
    + intros t1 q sv. destruct (decide (t1 = t)) as [->|Hne].
      * rewrite lookup_insert_eq. intros [= <- <-]. split_and!; [done..|].
        rewrite lookup_insert_eq. eexists. split; [done|]. simpl. done.
      * rewrite lookup_insert_ne by done. intros Ht1.
        pose proof (Hobj t1 _ Ht1) as Hq. simpl in Hq.
        destruct (inv_sleep σ Hinv t1 q sv Ht1) as (-> & ? & mq & ? & ?).
        split_and!; [done | by apply Hkeep |].
        exists mq. by rewrite lookup_insert_ne.
    + intros t1 q sv. destruct (decide (t1 = t)) as [->|Hne].
      * by rewrite lookup_insert_eq.
      * rewrite lookup_insert_ne by done. intros Ht1.
        pose proof (Hobj t1 _ Ht1) as Hq. simpl in Hq.
        destruct (inv_woken σ Hinv t1 q sv Ht1) as (-> & ? & mq & ? & ?).
        split_and!; [done | by apply Hkeep |].
        exists mq. by rewrite lookup_insert_ne.
    + intros t1 q. destruct (decide (t1 = t)) as [->|Hne].
      * by rewrite lookup_insert_eq.
      * rewrite lookup_insert_ne by done. intros Ht1.
        pose proof (Hobj t1 _ Ht1) as Hq. simpl in Hq.
        destruct (inv_release σ Hinv t1 q Ht1) as (? & mq & ? & ?).
        split_and!; [by apply Hkeep |].
        exists mq. by rewrite lookup_insert_ne.
    + intros t1 q. destruct (decide (t1 = t)) as [->|Hne].
      * by rewrite lookup_insert_eq.
      * rewrite lookup_insert_ne by done. intros Ht1.
        pose proof (Hobj t1 _ Ht1) as Hq. simpl in Hq.
        destruct (inv_attach σ Hinv t1 q Ht1) as (? & mq & ? & ?).
        split_and!; [by apply Hkeep |].
        exists mq. by rewrite lookup_insert_ne.
    + by apply Huniq.
  - apply Z.ltb_ge in Hpos. injection Hdet as <- <- <-. simpl.
    split; simpl.
    + done.
    + intros q mq t' Hmq Hwq.
      pose proof (inv_waiter σ Hinv q mq t' Hmq Hwq) as Ht'.
      rewrite lookup_insert_ne; [done|]. intros <-. congruence.
    + intros t1 q sv. destruct (decide (t1 = t)) as [->|Hne].
      * by rewrite lookup_insert_eq.
      * rewrite lookup_insert_ne by done. intros Ht1.
        destruct (inv_sleep σ Hinv t1 q sv Ht1) as (-> & ? & ?).
        split_and!; [done | by apply Hkeep | done].
    + intros t1 q sv. destruct (decide (t1 = t)) as [->|Hne].
      * by rewrite lookup_insert_eq.
      * rewrite lookup_insert_ne by done. intros Ht1.
        destruct (inv_woken σ Hinv t1 q sv Ht1) as (-> & ? & ?).
        split_and!; [done | by apply Hkeep | done].
    + intros t1 q. destruct (decide (t1 = t)) as [->|Hne].
      * rewrite lookup_insert_eq. intros [= <-]. split; [done|].
        exists m. split_and!; [done | lia | done].
      * rewrite lookup_insert_ne by done. intros Ht1.
        destruct (inv_release σ Hinv t1 q Ht1) as (? & ?).
        split_and!; [by apply Hkeep | done].
    + intros t1 q. destruct (decide (t1 = t)) as [->|Hne].
      * by rewrite lookup_insert_eq.
      * rewrite lookup_insert_ne by done. intros Ht1.
        destruct (inv_attach σ Hinv t1 q Ht1) as (? & ?).
        split_and!; [by apply Hkeep | done].
    + by apply Huniq.
Qed.

(** A caller woken from its sleep in the teardown always runs into the
    assertion of line 230. *)
Lemma clenup_resume_bug (σ : system) (t p : Z) (sv : option Z) :
  inv σ → threads σ !! t = Some (PcWoken p sv) →
  clenup_resume p sv (kern σ) = Bug.
Proof.
  intros Hinv Ht.
  destruct (inv_woken σ Hinv t p sv Ht) as (_ & _ & m & Hm & Hr & _).
  rewrite clenup_resume_spec, Hm, Hr. done.
Qed.

Lemma step_release_inv (σ : system) (k' : kstate) t p rc evs :
  inv σ → threads σ !! t = Some (PcRelease p) →
  clenup_release p (kern σ) = Ok (rc, k', evs) →
  inv {| kern := k'; threads := delete t (threads σ) |}.
Proof.
  intros Hinv Ht Hrel. pose proof (inv_kwf σ Hinv) as Hk.
  destruct (inv_release σ Hinv t p Ht) as (Hnr & m & Hm & Hr & Hw).
  rewrite clenup_release_spec, Hm in Hrel. injection Hrel as <- <- <-.
  assert (Hother : ∀ t1 c, t1 ≠ t → threads σ !! t1 = Some c → pc_object c ≠ p).
  { intros t1 c Hne Ht1 Hobj. apply Hne.
    by apply (inv_unique σ Hinv t1 t c (PcRelease p)). }
  split; simpl.
  - by apply kwf_delete.
  - intros q mq t' [Hne Hmq]%lookup_delete_Some Hwq.
    pose proof (inv_waiter σ Hinv q mq t' Hmq Hwq) as Ht'.
    rewrite lookup_delete_ne; [done|]. intros <-. congruence.
  - intros t1 q sv [Hne Ht1]%lookup_delete_Some.
    pose proof (Hother t1 _ (not_eq_sym Hne) Ht1) as Hq. simpl in Hq.
    destruct (inv_sleep σ Hinv t1 q sv Ht1) as (-> & ? & mq & ? & ?).
    split_and!; [done..|]. exists mq. by rewrite lookup_delete_ne.
  - intros t1 q sv [Hne Ht1]%lookup_delete_Some.
    pose proof (Hother t1 _ (not_eq_sym Hne) Ht1) as Hq. simpl in Hq.
    destruct (inv_woken σ Hinv t1 q sv Ht1) as (-> & ? & mq & ? & ?).
    split_and!; [done..|]. exists mq. by rewrite lookup_delete_ne.
  - intros t1 q [Hne Ht1]%lookup_delete_Some.
    pose proof (Hother t1 _ (not_eq_sym Hne) Ht1) as Hq. simpl in Hq.
    destruct (inv_release σ Hinv t1 q Ht1) as (? & mq & ? & ?).
    split_and!; [done|]. exists mq. by rewrite lookup_delete_ne.
  - intros t1 q [Hne Ht1]%lookup_delete_Some.
    pose proof (Hother t1 _ (not_eq_sym Hne) Ht1) as Hq. simpl in Hq.
    destruct (inv_attach σ Hinv t1 q Ht1) as (? & mq & ? & ?).
    split_and!; [done|]. exists mq. by rewrite lookup_delete_ne.
  - intros t1 t2 c1 c2 [_ H1]%lookup_delete_Some [_ H2]%lookup_delete_Some.
    by apply (inv_unique σ Hinv).
Qed.

Lemma step_inv (σ σ' : system) (l : label) (evs : list event) :
  inv σ → step σ l evs σ' → inv σ'.
Proof.
  intros Hinv Hstep.
  destruct Hstep as [σ t karg kmalloc tgid gp ok rc out k' evs Hfree Hfresh Hmap
                    |σ t p u k' evs Ht Hatt
                    |σ h r k' evs Hroom Hget|σ p u k' evs Hput
                    |σ t h st k' evs Hfree Hdet|σ t p sv u k' evs Ht Hres
                    |σ t p rc k' evs Ht Hrel].
  - by eapply step_pin_inv.
  - by eapply step_attach_inv.
  - by eapply step_get_inv.
  - by eapply step_put_inv.
  - by eapply step_clenup_inv.
  - by rewrite (clenup_resume_bug σ t p sv) in Hres.
  - by eapply step_release_inv.
Qed.

Lemma reach_inv (tr : list label) (σ : system) : reach tr σ → inv σ.
Proof.
  induction 1 as [|tr σ l evs σ' _ IH Hstep]; [apply inv_init|].
  by eapply step_inv.
Qed.

(** *** What each step does to the registry and to the counters *)


(** The chains hold the handles that are mapped, and those attached
    after a teardown had already been called for them. *)
Lemma step_registered (σ σ' : system) (l : label) (evs : list event)
    (acc : mapping_log) :
  inv σ → step σ l evs σ' →
  (∀ h, registered (kern σ) h ↔ h ∈ log_mapped acc ∨ h ∈ log_stale acc) →
  ∀ h, registered (kern σ') h
       ↔ h ∈ log_mapped (track_mapped acc l) ∨ h ∈ log_stale (track_mapped acc l).
Proof.
  intros Hinv Hstep HS q. pose proof (inv_kwf σ Hinv) as Hk.
  destruct Hstep as [σ t karg kmalloc tgid gp ok rc out k' evs Hfree Hfresh Hmap
                    |σ t p u k' evs Ht Hatt
                    |σ h r k' evs Hroom Hget|σ p u k' evs Hput
                    |σ t h st k' evs Hfree Hdet|σ t p sv u k' evs Ht Hres
                    |σ t p rc k' evs Ht Hrel]; simpl.
  - apply map_gpu_memory_pin_cases in Hmap
      as [(-> & -> & _)
         |(p & c & psz & -> & -> & -> & -> & Hc & _ & _ & Hk' & ->)];
      [apply HS|].
    simpl in Hk'. subst k'.
    change (registered (set_mgmem_heap ?a ?k) q) with (registered k q).
    apply HS.
  - rewrite map_gpu_memory_attach_spec in Hatt. injection Hatt as <- <- <-.
    rewrite registered_attach by done. rewrite HS.
    destruct (decide (p ∈ log_pinned acc)); simpl;
      rewrite elem_of_union, elem_of_singleton; tauto.
  - rewrite strom_get_mapped_gpu_memory_spec in Hget by done.
    destruct (decide _); [destruct (mgmem_heap _ !! h); [|done]|];
      injection Hget as <- <- <-; apply HS.
  - rewrite strom_put_mapped_gpu_memory_spec in Hput.
    destruct (mgmem_heap _ !! p) as [m|]; [|done].
    destruct (refcnt m <? 1); [done|]. simpl in Hput.
    destruct (wait_task m); [destruct (refcnt m - 1 =? 0)|];
      injection Hput as <- <- <-; apply HS.
  - rewrite !elem_of_difference, !elem_of_singleton.
    rewrite clenup_detach_spec in Hdet by done. simpl in Hdet.
    destruct (decide _) as [Hin|Hnin].
    + destruct (mgmem_heap _ !! h) as [m|]; [|done].
      destruct (0 <? refcnt m); injection Hdet as <- <- <-; simpl;
        [change (registered (set_mgmem_heap ?a ?k) q) with (registered k q)|];
        rewrite registered_detach by done; rewrite HS; tauto.
    + injection Hdet as <- <- <-. rewrite HS.
      assert (q = h → ¬ (q ∈ log_mapped acc ∨ q ∈ log_stale acc)); [|tauto].
      intros -> Hq. apply Hnin, registered_chain_at; [done|]. by apply HS.
  - by rewrite (clenup_resume_bug σ t p sv) in Hres.
  - rewrite clenup_release_spec in Hrel.
    destruct (mgmem_heap _ !! p); [|done]. injection Hrel as <- <- <-.
    apply HS.
Qed.

Lemma reach_registered (tr : list label) (σ : system) :
  reach tr σ →
  ∀ h, registered (kern σ) h
       ↔ h ∈ currently_mapped tr ∨ h ∈ attached_after_teardown tr.
Proof.
  induction 1 as [|tr σ l evs σ' Hreach IH Hstep].
  - intros h. split.
    + intros (i & chain & [-> _]%lookup_replicate & Hh).
      by apply elem_of_nil in Hh.
    + intros [Hh|Hh]; by apply not_elem_of_empty in Hh.
  - unfold currently_mapped, attached_after_teardown, mapping_log_of.
    rewrite foldl_snoc.
    eapply step_registered; eauto using reach_inv.
Qed.

(** ** Claims on the segment registry *)


(** C7: a step that lowers the [refcnt] of a segment is a release of
    that segment; and a release that takes [refcnt] from one to zero
    while [wait_task] names a waiter emits one [wake_up_process], for
    that waiter, and clears [wait_task]. *)
Theorem release_only_decrements_and_wakes_waiter (tr : list label)
    (σ σ' : system) (l : label) (evs : list event)
    (Hreach : reach tr σ) (Hstep : step σ l evs σ') :
  (∀ p m m',
      mgmem_heap (kern σ) !! p = Some m → mgmem_heap (kern σ') !! p = Some m' →
      refcnt m' < refcnt m → l = LPut p) ∧
  (∀ p m t,
      l = LPut p → mgmem_heap (kern σ) !! p = Some m →
      refcnt m = 1 → wait_task m = Some t →
      evs = [EvWakeUpProcess t] ∧
      mgmem_heap (kern σ') !! p = Some (set_wait_task None (set_refcnt 0 m)) ∧
      threads σ' !! t = Some (PcWoken p None)).
Proof.
  pose proof (reach_inv tr σ Hreach) as Hinv.
  pose proof (inv_kwf σ Hinv) as Hk.
  destruct Hstep as [σ t0 karg kmalloc tgid gp ok rc out k' evs Hfree Hfresh Hmap
                    |σ t0 q u k' evs Ht Hatt
                    |σ h r k' evs Hroom Hget|σ q u k' evs Hput
                    |σ t h st k' evs Hfree Hdet|σ t q sv u k' evs Ht Hres
                    |σ t q rc k' evs Ht Hrel]; simpl.
  - split; [|done]. intros p m m' Hm Hm' Hlt.
    apply map_gpu_memory_pin_cases in Hmap
      as [(-> & -> & _)
         |(p' & c & psz & -> & -> & -> & -> & Hc & _ & _ & Hk' & ->)].
    + simplify_eq. lia.
    + simpl in Hk'. subst k'. simpl in Hm'. specialize (Hfresh p' eq_refl).
      destruct (decide (p = p')) as [->|Hne]; [congruence|].
      rewrite lookup_insert_ne in Hm' by done. simplify_eq. lia.
  - split; [|done]. intros p m m' Hm Hm' Hlt.
    rewrite map_gpu_memory_attach_spec in Hatt. injection Hatt as <- <- <-.
    simpl in Hm'. simplify_eq. lia.
  - split; [|done]. intros p m m' Hm Hm' Hlt.
    rewrite strom_get_mapped_gpu_memory_spec in Hget by done.
    destruct (decide _); [destruct (mgmem_heap _ !! h) as [mh|] eqn:Hmh; [|done]|];
      injection Hget as <- <- <-; [|simplify_eq; lia].
    simpl in Hm'. destruct (decide (p = h)) as [->|Hne].
    + rewrite lookup_insert_eq in Hm'. simplify_eq. simpl in Hlt. lia.
    + rewrite lookup_insert_ne in Hm' by done. simplify_eq. lia.
  - rewrite strom_put_mapped_gpu_memory_spec in Hput.
    destruct (mgmem_heap _ !! q) as [mq|] eqn:Hmq; [|done].
    destruct (refcnt mq <? 1) eqn:Hlt1; [done|]. simpl in Hput. split.
    + intros p m m' Hm Hm' Hlt.
      destruct (decide (p = q)) as [->|Hne]; [done|]. exfalso.
      destruct (wait_task mq); [destruct (refcnt mq - 1 =? 0)|];
        injection Hput as <- <- <-; simpl in Hm';
        rewrite lookup_insert_ne in Hm' by done; simplify_eq; lia.
    + intros p m t [= <-] Hm Hr Hw. simplify_eq. rewrite Hw, Hr in Hput.
      simpl in Hput. injection Hput as <- <- <-. simpl.
      rewrite lookup_insert_eq. split_and!; [done..|].
      unfold wake_up_process.
      rewrite (inv_waiter σ Hinv q mq t Hmq Hw). by rewrite lookup_insert_eq.
  - split; [|done]. intros p m m' Hm Hm' Hlt.
    rewrite clenup_detach_spec in Hdet by done. simpl in Hdet.
    destruct (decide _); [|injection Hdet as <- <- <-; simplify_eq; lia].
    destruct (mgmem_heap _ !! h) as [mh|] eqn:Hmh; [|done].
    destruct (0 <? refcnt mh); injection Hdet as <- <- <-; simpl in Hm';
      [|simplify_eq; lia].
    destruct (decide (p = h)) as [->|Hne].
    + rewrite lookup_insert_eq in Hm'. simplify_eq. simpl in Hlt. lia.
    + rewrite lookup_insert_ne in Hm' by done. simplify_eq. lia.
  - by rewrite (clenup_resume_bug σ t q sv) in Hres.
  - split; [|done]. intros p m m' Hm Hm' Hlt.
    rewrite clenup_release_spec in Hrel.
    destruct (mgmem_heap _ !! q); [|done]. injection Hrel as <- <- <-.
    simpl in Hm'. apply lookup_delete_Some in Hm' as [_ Hm'].
    simplify_eq. lia.
Qed.

(** ** Claims on the map ioctl *)

(** C10: a map call that returns an error leaves the kernel state, and
    with it every chain of the registry, as it found it and stores no
    handle; the registry changes only in a call that returns 0, after
    the pin, the page-size classification and the copy-out of the
    handle have all succeeded. *)
Theorem failed_map_leaves_registry (k k' : kstate)
    (karg : option StromCmd__MapGpuMemory) (kmalloc : option Z) (tgid : Z)
    (gp : p2p_get_pages_result) (ok : bool) (rc : Z) (out : option Z)
    (evs : list event)
    (Hmap : strom_ioctl_map_gpu_memory karg kmalloc tgid gp ok k
            = Ok ((rc, out), k', evs)) :
  (rc ≠ 0 → k' = k ∧ out = None) ∧
  (strom_mgmem_slots k' ≠ strom_mgmem_slots k →
   rc = 0 ∧ gp_rc gp = 0 ∧
   is_Some (classify_page_size (pt_page_size (gp_table gp))) ∧ ok = true).
Proof.
  split.
  - intros Hrc. apply strom_ioctl_map_gpu_memory_cases in Hmap
      as [(-> & -> & _)|(p & c & psz & _ & -> & _)]; done.
  - intros Hch. rewrite strom_ioctl_map_gpu_memory_split in Hmap.
    destruct (map_gpu_memory_pin _ _ _ _ _ k) as [[[[rc1 out1] k1] evs1]|]
      eqn:Hpin; [|done].
    apply map_gpu_memory_pin_cases in Hpin
      as [(-> & -> & _)
         |(p & c & psz & -> & -> & -> & -> & Hc & Hrc & -> & _)].
    + by simplify_eq.
    + rewrite map_gpu_memory_attach_spec in Hmap. simplify_eq/=.
      rewrite Hc. split_and!; eauto.
Qed.


Lemma land_GPU_BOUND_OFFSET (v : Z) :
  Z.land v GPU_BOUND_OFFSET = v mod GPU_BOUND_SIZE.
Proof.
  change GPU_BOUND_OFFSET with (Z.ones 16).
  change GPU_BOUND_SIZE with (2 ^ 16). by rewrite Z.land_ones.
Qed.

Lemma land_GPU_BOUND_MASK (v : Z) :
  0 ≤ v < 2 ^ 64 → Z.land v GPU_BOUND_MASK = v - v mod GPU_BOUND_SIZE.
Proof.
  intros Hv.
  change GPU_BOUND_MASK with (Z.land (Z.ones 64) (Z.lnot (Z.ones 16))).
  change GPU_BOUND_SIZE with (2 ^ 16).
  rewrite Z.land_assoc, Z.land_ones, Z.mod_small by lia.
  rewrite <- Z.ldiff_land, Z.ldiff_ones_r by lia.
  rewrite Z.shiftl_mul_pow2, Z.shiftr_div_pow2 by lia.
  pose proof (Z.div_mod v (2 ^ 16)). lia.
Qed.

(** C3 (amended): after a successful map of [(vaddress, length)] the
    registered segment has [map_offset = vaddress mod 65536], its
    [map_address] is the 64 KiB boundary at or below [vaddress], and
    [map_length = map_offset + length] (modulo 2^64): the distance from
    the aligned base to the end of the request, so the mapped range ends
    where the request ends and is not rounded up to the page grid. *)
Theorem map_records_offset_and_length (k k' : kstate)
    (c : StromCmd__MapGpuMemory) (kmalloc : option Z) (tgid : Z)
    (gp : p2p_get_pages_result) (ok : bool) (p : Z) (evs : list event)
    (Hv : 0 ≤ vaddress c < 2 ^ 64)
    (Hmap : strom_ioctl_map_gpu_memory (Some c) kmalloc tgid gp ok k
            = Ok ((0, Some p), k', evs)) :
  ∃ m, mgmem_heap k' !! p = Some m ∧
       map_offset m = vaddress c mod 65536 ∧
       map_address m = vaddress c - vaddress c mod 65536 ∧
       map_address m mod 65536 = 0 ∧
       map_length m = (map_offset m + cmd_length c) mod 2 ^ 64 ∧
       (0 ≤ cmd_length c → vaddress c + cmd_length c < 2 ^ 64 →
        map_address m + map_length m = vaddress c + cmd_length c).
Proof.
  apply strom_ioctl_map_gpu_memory_cases in Hmap
    as [(? & _)|(p' & c' & psz & [= <-] & _ & -> & [= <-] & Hc & Hk' & ->)];
    [done|].
  simpl in Hk'. subst k'. eexists. simpl. rewrite lookup_insert_eq.
  split; [done|]. simpl.
  rewrite land_GPU_BOUND_OFFSET, land_GPU_BOUND_MASK by done.
  change GPU_BOUND_SIZE with 65536. unfold ulong.
  pose proof (Z.mod_pos_bound (vaddress c) 65536 ltac:(lia)) as Hlo.
  pose proof (Z.div_mod (vaddress c) 65536 ltac:(lia)) as Hdm.
  split_and!; try done.
  - rewrite Hdm at 1. rewrite Z.add_simpl_r, Z.mul_comm.
    apply Z.mod_mul. lia.
  - intros Hl Hsum.
    change (2 ^ 64) with 18446744073709551616 in *.
    pose proof (Z.div_pos (vaddress c) 65536 ltac:(lia) ltac:(lia)).
    rewrite (Z.mod_small (_ + _)) by lia. lia.
Qed.

(** ** Claims on the query ioctl *)

Lemma info_copy_pages_all_ok (put_user_ok : Z → bool) (n rc : Z)
    (rest : list Z) (i : Z) :
  (∀ j, put_user_ok j = true) →
  info_copy_pages i n put_user_ok rest rc = (rc, take (Z.to_nat (n - i)) rest).
Proof.
  intros Hok. revert i. induction rest as [|a rest IH]; intros i; simpl.
  - by rewrite take_nil.
  - destruct (n <=? i) eqn:Hni.
    + apply Z.leb_le in Hni. by replace (Z.to_nat (n - i)) with 0%nat by lia.
    + apply Z.leb_gt in Hni. rewrite Hok, IH.
      by replace (Z.to_nat (n - i)) with (S (Z.to_nat (n - (i + 1)))) by lia.
Qed.

Lemma take_min_length (n : Z) (l : list Z) :
  take (Z.to_nat n) l = take (Z.to_nat (Z.min n (Z.of_nat (length l)))) l.
Proof.
  destruct (Z.le_gt_cases n (Z.of_nat (length l))) as [Hle|Hgt].
  - by rewrite Z.min_l.
  - rewrite Z.min_r by lia. rewrite !take_ge; [done|lia..].
Qed.

Lemma set_mgmem_heap_id (k : kstate) : set_mgmem_heap (mgmem_heap k) k = k.
Proof. by destruct k. Qed.

(** C9: a query of a registered segment whose copies to the caller all
    succeed returns 0, stores the page size and the full entry count in
    the header and the first [min(nrooms, entries)] physical addresses
    in the array, whether or not that is all of them; the kernel state
    is as before (the reference taken for the query is dropped). *)
Theorem info_truncates_without_error (k : kstate)
    (karg : StromCmd__InfoGpuMemory) (m : mapped_gpu_memory)
    (pt : nvidia_p2p_page_table) (put_user_ok : Z → bool)
    (Hk : kwf k) (Hreg : registered k (info_handle karg))
    (Hm : mgmem_heap k !! info_handle karg = Some m)
    (Hpt : page_table m = Some pt)
    (Huser : ∀ i, put_user_ok i = true) :
  strom_ioctl_info_gpu_memory (Some karg) true put_user_ok k =
  Ok ((0, {| out_header := Some (pt_version pt, page_size m, pt_entries pt);
             out_physical_address :=
               take (Z.to_nat (Z.min (info_nrooms karg) (pt_entries pt)))
                    (pt_pages pt) |}),
      k, []).
Proof.
  set (h := info_handle karg) in *.
  apply registered_chain_at in Hreg; [|done].
  destruct (kwf_chain_at _ _ _ Hk Hreg) as [_ (m0 & Hm0 & _ & Hr & _ & Hw)].
  assert (m0 = m) as -> by congruence.
  unfold strom_ioctl_info_gpu_memory. fold h.
  unfold mbind at 1, K_bind, kbind.
  rewrite strom_get_mapped_gpu_memory_spec by done.
  rewrite decide_True by done. rewrite Hm.
  unfold mbind at 1, K_bind, kbind, load_mgmem. simpl.
  rewrite lookup_insert_eq. simpl. rewrite Hpt.
  rewrite info_copy_pages_all_ok by done.
  unfold mbind, K_bind, kbind.
  rewrite strom_put_mapped_gpu_memory_spec. simpl.
  rewrite lookup_insert_eq. simpl.
  replace (refcnt m + 1 <? 1) with false by (symmetry; apply Z.ltb_ge; lia).
  rewrite Hw. simpl. rewrite insert_insert_eq.
  replace (set_refcnt (refcnt m + 1 - 1) (set_refcnt (refcnt m + 1) m)) with m
    by (destruct m; unfold set_refcnt; simpl; f_equal; lia).
  rewrite insert_id by done.
  rewrite set_mgmem_heap_twice, set_mgmem_heap_id.
  rewrite Z.sub_0_r. unfold pt_entries. by rewrite <- take_min_length.
Qed.

(** ** Claims on DMA tasks *)

Lemma dtask_chain_find_absent (heap : gmap Z strom_dma_task) (id : Z)
    (chain : list Z) :
  (∀ p, p ∈ chain → ∃ d, heap !! p = Some d ∧ dma_task_id d ≠ id) →
  dtask_chain_find heap id chain = Ok None.
Proof.
  induction chain as [|p chain IH]; intros Hall; simpl; [done|].
  destruct (Hall p) as (d & -> & Hne); [by left|].
  rewrite decide_False by done. apply IH. intros q Hq. apply Hall. by right.
Qed.

Lemma dtask_lookup_absent (k : kstate) (id : Z) (i : nat) :
  dtask_absent k id →
  dtask_chain_find (dtask_heap k) id (chain_at (strom_dma_task_slots k) i)
  = Ok None.
Proof.
  intros Habs. apply dtask_chain_find_absent. intros p Hp.
  unfold chain_at in Hp.
  destruct (strom_dma_task_slots k !! i) as [chain|] eqn:Hi; simpl in Hp.
  - by apply (Habs i chain p).
  - by apply elem_of_nil in Hp.
Qed.

(** C2 (amended): for a [dma_task_id] that is on no chain of the task
    registry, the wait returns [-ENOENT] at once, without sleeping and
    without touching the kernel state, and the wait ioctl hands that
    code to its caller. *)
Theorem wait_unregistered_returns_ENOENT (k : kstate) (current id : Z)
    (Habs : dtask_absent k id) :
  strom_memcpy_ssd2gpu_wait current id k
    = Ok (WaitReturned (- ENOENT), k, []) ∧
  strom_ioctl_memcpy_ssd2gpu_wait current (Some id) k
    = Ok (WaitReturned (- ENOENT), k, []).
Proof.
  assert (strom_memcpy_ssd2gpu_wait current id k
          = Ok (WaitReturned (- ENOENT), k, [])) as Hw; [|by split].
  unfold strom_memcpy_ssd2gpu_wait. kunfold.
  by rewrite dtask_lookup_absent.
Qed.

(** What the cleanup of a registered task does, in order: unlink,
    release the destination, [fput], wake, [kfree]. *)
Lemma strom_cleanup_dma_task_found (k : kstate) (id p : Z)
    (d : strom_dma_task) :
  let index := strom_dma_task_index id in
  let slot := chain_at (strom_dma_task_slots k) index in
  dtask_chain_find (dtask_heap k) id slot = Ok (Some p) →
  dtask_heap k !! p = Some d →
  strom_cleanup_dma_task id k =
  match strom_put_mapped_gpu_memory (mgmem d)
          (set_dtask_slots (<[index := list_del p slot]> (strom_dma_task_slots k)) k)
  with
  | Bug => Bug
  | Ok (_, k2, e) =>
      Ok (tt, set_dtask_heap (delete p (dtask_heap k2)) k2,
          e ++ match filp d with Some f => [EvFput f] | None => [] end
            ++ match dt_wait_task d with
               | Some t => [EvWakeUpProcess t]
               | None => []
               end
            ++ [EvKfree p])
  end.
Proof.
  intros index slot Hfind Hd. unfold strom_cleanup_dma_task.
  fold index. unfold mbind at 1, K_bind, kbind, read_dtask_slot.
  fold slot. unfold mbind at 1, K_bind, kbind, dtask_lookup. rewrite Hfind.
  unfold mbind at 1, K_bind, kbind, load_dtask. rewrite Hd.
  unfold mbind at 1, K_bind, kbind, write_dtask_slot.
  unfold mbind at 1, K_bind, kbind.
  destruct (strom_put_mapped_gpu_memory _ _) as [[[u k2] e]|]; [|done].
  destruct (filp d), (dt_wait_task d); kunfold; simpl;
    by rewrite ?app_nil_r.
Qed.

Lemma strom_put_mapped_gpu_memory_events (k k' : kstate) (p : Z) (u : unit)
    (evs : list event) (e : event) :
  strom_put_mapped_gpu_memory p k = Ok (u, k', evs) → e ∈ evs →
  ∃ t, e = EvWakeUpProcess t.
Proof.
  rewrite strom_put_mapped_gpu_memory_spec. intros Hput He.
  destruct (mgmem_heap k !! p) as [m|]; [|done].
  destruct (refcnt m <? 1); [done|]. simpl in Hput.
  destruct (wait_task m) as [t|]; [destruct (refcnt m - 1 =? 0)|];
    injection Hput as <- <- <-; try by apply elem_of_nil in He.
  apply list_elem_of_singleton in He. eauto.
Qed.

(** The cleanup never releases a pinned page: no [put_page] leaves it,
    whatever the task holds on its [dma_pages_list]. *)
Lemma strom_cleanup_dma_task_never_puts_pages (k k' : kstate) (id : Z)
    (u : unit) (evs : list event) (page : Z) :
  strom_cleanup_dma_task id k = Ok (u, k', evs) → EvPutPage page ∉ evs.
Proof.
  intros Hc He. unfold strom_cleanup_dma_task in Hc.
  unfold mbind at 1, K_bind, kbind, read_dtask_slot in Hc.
  unfold mbind at 1, K_bind, kbind, dtask_lookup in Hc.
  destruct (dtask_chain_find _ _ _) as [[p|]|] eqn:Hfind; [| |done].
  2: { kunfold. simplify_eq. by apply elem_of_nil in He. }
  unfold mbind at 1, K_bind, kbind, load_dtask in Hc. simpl in Hc.
  destruct (dtask_heap k !! p) as [d|] eqn:Hd; [|done].
  unfold mbind at 1, K_bind, kbind, write_dtask_slot in Hc.
  unfold mbind at 1, K_bind, kbind in Hc.
  destruct (strom_put_mapped_gpu_memory _ _) as [[[u2 k2] e]|] eqn:Hput;
    [|done].
  assert (Hrest : ∀ evs', e ++ evs' = evs → EvPutPage page ∉ evs' → False).
  { intros evs' <- Hno. apply elem_of_app in He as [He|He]; [|done].
    by destruct (strom_put_mapped_gpu_memory_events _ _ _ _ _ _ Hput He). }
  destruct (filp d), (dt_wait_task d); kunfold; simpl in Hc;
    injection Hc as <- <-; eapply Hrest; try done;
    intros Hin; repeat (apply elem_of_cons in Hin as [Hin|Hin]; [done|]);
    by apply elem_of_nil in Hin.
Qed.



(** ** Beyond the claims: the file checks *)

Lemma skip_digits_split (s : list ascii) :
  ∃ d, s = d ++ skip_digits s ∧ forallb is_digit d = true ∧
       (length (skip_digits s) = length s → d = []).
Proof.
  induction s as [|c s (d & Hs & Hd & Hlen)]; simpl.
  - by exists [].
  - destruct (is_digit c) eqn:Hc.
    + exists (c :: d). simpl. rewrite Hc, Hd. split_and!; [by f_equal | done |].
      intros Hl. rewrite Hs in Hl at 2. rewrite length_app in Hl. lia.
    + by exists [].
Qed.

Lemma skip_digits_app (a rest : list ascii) :
  forallb is_digit a = true →
  match rest with c :: _ => is_digit c = false | [] => True end →
  skip_digits (a ++ rest) = rest.
Proof.
  intros Ha Hrest. induction a as [|c a IH]; simpl in *.
  - destruct rest as [|c r]; simpl; [done|]. by rewrite Hrest.
  - apply andb_true_iff in Ha as [-> Ha]. auto.
Qed.

Lemma is_nvme_disk_name_sound (dname : list ascii) :
  is_nvme_disk_name dname = true → nvme_name_grammar dname.
Proof.
    unfold is_nvme_disk_name. intros H.
    repeat (destruct dname as [|? dname]; try discriminate;
            match type of H with
            | context [match ?c with Ascii _ _ _ _ _ _ _ _ => _ end] =>
                destruct c as [[] [] [] [] [] [] [] []]; try discriminate
            end).
    destruct (skip_digits_split dname) as (a & Ha & Hda & Hla).
    destruct (negb _) eqn:Hlen1 in H; [|discriminate].
    apply negb_true_iff, Nat.eqb_neq in Hlen1.
    destruct (skip_digits dname) as [|c pos2] eqn:Hpos; [discriminate|].
    destruct c as [[] [] [] [] [] [] [] []]; try discriminate.
    apply andb_true_iff in H as [Hlen2 Hend].
    apply negb_true_iff, Nat.eqb_neq in Hlen2.
    destruct (skip_digits_split pos2) as (b & Hb & Hdb & Hlb).
    destruct (skip_digits pos2) eqn:Hpos2; [|discriminate].
    rewrite app_nil_r in Hb. subst pos2.
    exists a, b. split_and!; try done.
    + intros ->. simpl in Ha. apply Hlen1. by rewrite <- Ha.
    + intros ->. by apply Hlen2.
    + simpl. by rewrite Ha at 1.
Qed.

Lemma is_nvme_disk_name_complete (dname : list ascii) :
  nvme_name_grammar dname → is_nvme_disk_name dname = true.
Proof.
    intros (a & b & Hna & Hnb & Hda & Hdb & ->). simpl.
    rewrite (skip_digits_app a ("n"%char :: b)) by done.
    replace (length ("n"%char :: b) =? length (a ++ "n"%char :: b))%nat
      with false.
    2: { symmetry. apply Nat.eqb_neq. rewrite length_app.
         destruct a; [done | simpl; lia]. }
    simpl. pose proof (skip_digits_app b [] Hdb I) as Hb.
    rewrite app_nil_r in Hb. rewrite Hb.
    destruct b; [done | reflexivity].
Qed.

(** The name check accepts exactly the names [nvme<digits>n<digits>]
    with both digit runs non-empty and nothing after the second. *)
Theorem is_nvme_disk_name_grammar (dname : list ascii) :
  is_nvme_disk_name dname = true ↔ nvme_name_grammar dname.
Proof.
  split; [apply is_nvme_disk_name_sound | apply is_nvme_disk_name_complete].
Qed.

Section Files.

Variables mod_ext4_get_block mod_xfs_get_blocks : Z.
Variables __ext4_get_block __xfs_get_blocks : file → Z → Z → Z * Z.

Lemma source_file_is_supported_range (f : file) (rc : Z) :
  source_file_is_supported mod_ext4_get_block mod_xfs_get_blocks f = Ok rc →
  rc = 0 ∨ rc = - EACCES ∨ rc = - ENOTSUPP.
Proof.
  unfold source_file_is_supported. destruct (s_bdev f); [|done].
  intros [= <-]. repeat case_match; auto.
Qed.

(** The check halts exactly on a file without a block device. *)
Lemma source_file_is_supported_halts (f : file) :
  source_file_is_supported mod_ext4_get_block mod_xfs_get_blocks f = Bug
  ↔ s_bdev f = None.
Proof. unfold source_file_is_supported. by destruct (s_bdev f). Qed.

Lemma source_file_is_supported_magic (f : file) :
  source_file_is_supported mod_ext4_get_block mod_xfs_get_blocks f = Ok 0 →
  s_magic f = EXT4_SUPER_MAGIC ∨ s_magic f = XFS_SB_MAGIC.
Proof.
  unfold source_file_is_supported. destruct (s_bdev f); [|done].
  intros [= H]. revert H.
  destruct (Z.land (f_mode f) FMODE_READ =? 0); [done|].
  destruct (s_magic f =? EXT4_SUPER_MAGIC) eqn:He;
    [apply Z.eqb_eq in He; auto|].
  destruct (s_magic f =? XFS_SB_MAGIC) eqn:Hx;
    [apply Z.eqb_eq in Hx; auto|].
  done.
Qed.

(** The file is accepted exactly when it is open for reading, sits on
    ext4 or xfs (magic, type name and owning module all agreeing), is
    at least one page long, has page-sized blocks, and lives on a
    [blkext] disk named [nvme<digits>n<digits>] whose [ioctl] answers
    [NVME_IOCTL_ID] without error. *)
Theorem source_file_is_supported_iff (f : file) :
  source_file_is_supported mod_ext4_get_block mod_xfs_get_blocks f = Ok 0 ↔
  Z.land (f_mode f) FMODE_READ ≠ 0 ∧
  ((s_magic f = EXT4_SUPER_MAGIC ∧ s_type_name f = ["e"; "x"; "t"; "4"]%char ∧
    s_type_owner f = mod_ext4_get_block) ∨
   (s_magic f = XFS_SB_MAGIC ∧ s_type_name f = ["x"; "f"; "s"]%char ∧
    s_type_owner f = mod_xfs_get_blocks)) ∧
  PAGE_SIZE ≤ ulong (i_size f) ∧
  s_blocksize f = PAGE_SIZE ∧
  ∃ bd_disk, s_bdev f = Some bd_disk ∧
    major bd_disk = BLOCK_EXT_MAJOR ∧
    nvme_name_grammar (disk_name bd_disk) ∧
    ∃ rc, fops_ioctl bd_disk = Some rc ∧ 0 ≤ rc.
Proof.
  unfold source_file_is_supported.
  destruct (s_bdev f) as [disk|].
  2: { split; [done|]. by intros (_ & _ & _ & _ & ? & ? & _). }
  assert (Hgrammar : is_nvme_disk_name (disk_name disk) = true ↔
                     nvme_name_grammar (disk_name disk))
    by (split; [apply is_nvme_disk_name_sound
               | apply is_nvme_disk_name_complete]).
  assert (Hdisk : ∀ P : gendisk → Prop,
            (∃ d, Some disk = Some d ∧ P d) ↔ P disk).
  { intros P. split; [by intros (d & [= <-] & ?) | eauto]. }
  rewrite Hdisk, <- Hgrammar. clear Hgrammar Hdisk.
  assert (Hok : ∀ x : Z, Ok x = Ok 0 ↔ x = 0)
    by (intros x; split; [by intros [= ->] | by intros ->]).
  rewrite Hok. clear Hok.
  destruct (Z.land (f_mode f) FMODE_READ =? 0) eqn:Hmode.
  { apply Z.eqb_eq in Hmode. split; [done|]. by intros [? _]. }
  apply Z.eqb_neq in Hmode.
  assert (Hfs :
    ((s_magic f =? EXT4_SUPER_MAGIC)
     && bool_decide (s_type_name f = ["e"; "x"; "t"; "4"]%char)
     && (s_type_owner f =? mod_ext4_get_block)
     || (s_magic f =? XFS_SB_MAGIC)
        && bool_decide (s_type_name f = ["x"; "f"; "s"]%char)
        && (s_type_owner f =? mod_xfs_get_blocks)) = true ↔
    ((s_magic f = EXT4_SUPER_MAGIC ∧ s_type_name f = ["e"; "x"; "t"; "4"]%char ∧
      s_type_owner f = mod_ext4_get_block) ∨
     (s_magic f = XFS_SB_MAGIC ∧ s_type_name f = ["x"; "f"; "s"]%char ∧
      s_type_owner f = mod_xfs_get_blocks))).
  { rewrite orb_true_iff, !andb_true_iff, !Z.eqb_eq, !bool_decide_eq_true.
    tauto. }
  destruct (_ || _) eqn:Hfsb; simpl.
  2: { split; [done|]. intros (_ & Hf & _). apply Hfs in Hf. done. }
  destruct (ulong (i_size f) <? PAGE_SIZE) eqn:Hsz.
  { apply Z.ltb_lt in Hsz. split; [done|]. intros (_ & _ & ? & _). lia. }
  apply Z.ltb_ge in Hsz.
  destruct (s_blocksize f =? PAGE_SIZE) eqn:Hbs; simpl.
  2: { apply Z.eqb_neq in Hbs. split; [done|]. by intros (_ & _ & _ & ? & _). }
  apply Z.eqb_eq in Hbs.
  destruct (major disk =? BLOCK_EXT_MAJOR) eqn:Hmaj; simpl.
  2: { apply Z.eqb_neq in Hmaj. split; [done|].
       by intros (_ & _ & _ & _ & ? & _). }
  apply Z.eqb_eq in Hmaj.
  destruct (is_nvme_disk_name (disk_name disk)) eqn:Hname; simpl.
  2: { split; [done|]. by intros (_ & _ & _ & _ & _ & ? & _). }
  destruct (fops_ioctl disk) as [rc|] eqn:Hio.
  2: { split; [done|]. by intros (_ & _ & _ & _ & _ & _ & ? & ? & _). }
  destruct (rc <? 0) eqn:Hrc.
  - apply Z.ltb_lt in Hrc. split; [done|].
    intros (_ & _ & _ & _ & _ & _ & rc' & [= <-] & ?). lia.
  - apply Z.ltb_ge in Hrc. split; [|done]. intros _.
    split_and!; try done; [by apply Hfs | eauto].
Qed.

(** For a file that passed the check, the block lookup always goes to
    the block-mapping function of its file system; the fallback
    [-ENOTSUPP] of [strom_get_block] is never taken. *)
Theorem strom_get_block_dispatches (f : file) (iblock create : Z)
    (Hok : source_file_is_supported mod_ext4_get_block mod_xfs_get_blocks f
           = Ok 0) :
  strom_get_block __ext4_get_block __xfs_get_blocks f iblock create =
  if s_magic f =? EXT4_SUPER_MAGIC
  then __ext4_get_block f iblock create
  else __xfs_get_blocks f iblock create.
Proof.
  apply source_file_is_supported_magic in Hok.
  unfold strom_get_block.
  destruct Hok as [Hm|Hm]; rewrite Hm; reflexivity.
Qed.

(** The check-file ioctl on a descriptor whose file sits on a block
    device drops the file reference it took, once, whatever the verdict;
    it answers 0 exactly when the file is accepted, and otherwise
    [-EACCES] or [-ENOTSUPP].  Without a file it answers [-EFAULT] or
    [-EBADF] and calls [fput] for nothing.  On a file without a block
    device it halts inside the check, before [fput]. *)
Theorem strom_ioctl_check_file_balanced (karg : option Z)
    (fget : Z → option (Z * file)) :
  match karg ≫= fget with
  | None =>
      strom_ioctl_check_file mod_ext4_get_block mod_xfs_get_blocks karg fget
      = Ok (match karg with None => - EFAULT | Some _ => - EBADF end, [])
  | Some (fp, f) =>
      match s_bdev f with
      | None =>
          strom_ioctl_check_file mod_ext4_get_block mod_xfs_get_blocks
            karg fget = Bug
      | Some _ =>
          ∃ rc,
            strom_ioctl_check_file mod_ext4_get_block mod_xfs_get_blocks
              karg fget = Ok (rc, [EvFput fp]) ∧
            (rc = 0 ↔
             source_file_is_supported mod_ext4_get_block mod_xfs_get_blocks f
             = Ok 0) ∧
            (rc = 0 ∨ rc = - EACCES ∨ rc = - ENOTSUPP)
      end
  end.
Proof.
  unfold strom_ioctl_check_file.
  destruct karg as [fd|]; simpl; [|done].
  destruct (fget fd) as [[fp f]|] eqn:Hf; simpl; [|done].
  destruct (s_bdev f) as [disk|] eqn:Hbdev.
  2: { by rewrite (proj2 (source_file_is_supported_halts f)). }
  destruct (source_file_is_supported _ _ f) as [rc|] eqn:Hs.
  2: { apply source_file_is_supported_halts in Hs. congruence. }
  pose proof (source_file_is_supported_range f rc Hs) as Hr.
  eexists. split; [done|].
  destruct Hr as [-> | [-> | ->]]; simpl; split; auto;
    split; (done || by intros [= ?]).
Qed.

End Files.

(** ** Beyond the claims: reading the status file *)

Lemma ulong_small (x : Z) : 0 ≤ x < 2 ^ 64 → ulong x = x.
Proof. intros Hx. unfold ulong. by rewrite Z.mod_small. Qed.

Lemma slong_small (x : Z) : - 2 ^ 63 ≤ x < 2 ^ 63 → slong x = x.
Proof.
  intros Hx. unfold slong.
  change (2 ^ 63) with 9223372036854775808 in *.
  change (2 ^ 64) with 18446744073709551616.
  rewrite Z.mod_small by lia. lia.
Qed.

Lemma strom_proc_read_spec (spent : strom_proc_entry) (len pos : Z) :
  0 ≤ pe_usage spent < 2 ^ 63 → 0 ≤ pos < 2 ^ 63 → 0 ≤ len < 2 ^ 63 →
  let n := Z.max 0 (Z.min len (pe_usage spent - pos)) in
  strom_proc_read (Some spent) len pos true
  = (n, pos + n,
     take (Z.to_nat n)
       (drop (Z.to_nat pos) (take (Z.to_nat (pe_usage spent)) (pe_data spent)))).
Proof.
  intros Hu Hp Hl n.
  unfold strom_proc_read.
  change (2 ^ 63) with 9223372036854775808 in *.
  assert (H64 : 2 ^ 64 = 18446744073709551616) by reflexivity.
  rewrite !ulong_small by (rewrite H64; lia).
  destruct (pe_usage spent <=? pos) eqn:Hpos.
  - apply Z.leb_le in Hpos. replace n with 0 by lia.
    by rewrite Z.add_0_r.
  - apply Z.leb_gt in Hpos.
    assert (Hlen : (if pe_usage spent <=? pos + len
                    then ulong (pe_usage spent - pos) else len) = n).
    { destruct (pe_usage spent <=? pos + len) eqn:Hend.
      - apply Z.leb_le in Hend. rewrite ulong_small by (rewrite H64; lia). lia.
      - apply Z.leb_gt in Hend. lia. }
    rewrite Hlen.
    rewrite !slong_small by (change (2 ^ 63) with 9223372036854775808; lia).
    f_equal. rewrite !take_drop_commute, take_take. do 2 f_equal. lia.
Qed.

(** A read at [pos] returns the bytes of the window
    [[pos, min(pos + len, usage))] of the text and advances [*pos] by
    their number; it returns 0 and stores nothing at or past [usage]. *)
Theorem strom_proc_read_window (spent : strom_proc_entry) (len pos : Z)
    (Hu : 0 ≤ pe_usage spent < 2 ^ 63)
    (Hd : pe_usage spent ≤ Z.of_nat (length (pe_data spent)))
    (Hp : 0 ≤ pos < 2 ^ 63) (Hl : 0 ≤ len < 2 ^ 63) :
  let n := Z.max 0 (Z.min len (pe_usage spent - pos)) in
  let window :=
    take (Z.to_nat n)
      (drop (Z.to_nat pos) (take (Z.to_nat (pe_usage spent)) (pe_data spent))) in
  strom_proc_read (Some spent) len pos true = (n, pos + n, window) ∧
  Z.of_nat (length window) = n ∧
  n ≤ len ∧ pos + n ≤ Z.max pos (pe_usage spent).
Proof.
  intros n window. split; [by apply strom_proc_read_spec|split; [|lia]].
  unfold window. rewrite length_take, length_drop, length_take. lia.
Qed.

(** Two reads in a row return together what one read of the combined
    length returns, and leave [*pos] at the same place. *)
Theorem strom_proc_read_sequential (spent : strom_proc_entry)
    (len1 len2 pos : Z)
    (Hu : 0 ≤ pe_usage spent < 2 ^ 63)
    (Hd : pe_usage spent ≤ Z.of_nat (length (pe_data spent)))
    (Hp : 0 ≤ pos < 2 ^ 63)
    (Hl1 : 0 ≤ len1) (Hl2 : 0 ≤ len2) (Hl : len1 + len2 < 2 ^ 63) :
  let '(n1, pos1, b1) := strom_proc_read (Some spent) len1 pos true in
  let '(n2, pos2, b2) := strom_proc_read (Some spent) len2 pos1 true in
  strom_proc_read (Some spent) (len1 + len2) pos true
  = (n1 + n2, pos2, b1 ++ b2).
Proof.
  rewrite (strom_proc_read_spec spent len1 pos) by (done || lia).
  set (n1 := Z.max 0 (Z.min len1 (pe_usage spent - pos))).
  assert (Hn1 : n1 ≤ len1 ∧ pos + n1 ≤ Z.max pos (pe_usage spent))
    by (subst n1; lia).
  rewrite (strom_proc_read_spec spent len2 (pos + n1)) by (done || lia).
  set (n2 := Z.max 0 (Z.min len2 (pe_usage spent - (pos + n1)))).
  assert (Hn2 : n2 ≤ len2) by (subst n2; lia).
  rewrite (strom_proc_read_spec spent (len1 + len2) pos) by (done || lia).
  replace (Z.max 0 (Z.min (len1 + len2) (pe_usage spent - pos)))
    with (n1 + n2) by lia.
  f_equal; [f_equal; lia|].
  rewrite Z2Nat.inj_add, <- take_take_drop, drop_drop by lia.
  by rewrite Z2Nat.inj_add by lia.
Qed.

(** ** Beyond the claims: acquire, release, map and unmap together *)

Lemma chain_at_insert_here (slots : list (list Z)) (i : nat) (c : list Z) :
  (i < length slots)%nat → chain_at (<[i := c]> slots) i = c.
Proof. intros Hi. unfold chain_at. by rewrite list_lookup_insert_eq. Qed.

Lemma set_refcnt_undo (m : mapped_gpu_memory) :
  set_refcnt (refcnt m + 1 - 1) (set_refcnt (refcnt m + 1) m) = m.
Proof. destruct m. unfold set_refcnt. simpl. f_equal. lia. Qed.

(** An acquire of a registered handle followed by the release of the
    reference leaves the kernel state exactly as it was; the reference
    shows as one more in [refcnt] in between, and no one is woken. *)
Theorem get_then_put_restores (k : kstate) (h : Z)
    (Hk : kwf k) (Hreg : registered k h) :
  ∃ k1,
    strom_get_mapped_gpu_memory h k = Ok (Some h, k1, []) ∧
    refcnt <$> mgmem_heap k1 !! h
    = (λ m, refcnt m + 1) <$> mgmem_heap k !! h ∧
    strom_put_mapped_gpu_memory h k1 = Ok (tt, k, []).
Proof.
  apply registered_chain_at in Hreg; [|done].
  destruct (kwf_chain_at _ _ _ Hk Hreg) as [_ (m & Hm & _ & Hr & _ & Hw)].
  rewrite strom_get_mapped_gpu_memory_spec by done.
  rewrite decide_True by done. rewrite Hm. eexists. split; [done|].
  simpl. rewrite lookup_insert_eq. split; [done|].
  rewrite strom_put_mapped_gpu_memory_spec. simpl.
  rewrite lookup_insert_eq. simpl.
  replace (refcnt m + 1 <? 1) with false by (symmetry; apply Z.ltb_ge; lia).
  rewrite Hw, insert_insert_eq, set_refcnt_undo, insert_id by done.
  by rewrite set_mgmem_heap_twice, set_mgmem_heap_id.
Qed.

(** After a successful map the returned handle is found by a lookup,
    which takes the first reference; the registry stays in order and no
    other handle or segment is touched. *)
Theorem map_then_lookup (k k' : kstate) (c : StromCmd__MapGpuMemory)
    (kmalloc : option Z) (tgid : Z) (gp : p2p_get_pages_result) (ok : bool)
    (p : Z) (evs : list event)
    (Hk : kwf k)
    (Hfresh : ∀ q, kmalloc = Some q → mgmem_heap k !! q = None)
    (Hmap : strom_ioctl_map_gpu_memory (Some c) kmalloc tgid gp ok k
            = Ok ((0, Some p), k', evs)) :
  kwf k' ∧
  (∃ k'', strom_get_mapped_gpu_memory p k' = Ok (Some p, k'', []) ∧
          refcnt <$> mgmem_heap k'' !! p = Some 1) ∧
  (∀ q, q ≠ p →
        (registered k' q ↔ registered k q) ∧
        mgmem_heap k' !! q = mgmem_heap k !! q).
Proof.
  apply strom_ioctl_map_gpu_memory_cases in Hmap
    as [(? & _)|(p' & c' & psz & [= <-] & _ & -> & [= <-] & Hc & Hk' & ->)];
    [done|].
  simpl in Hk'. specialize (Hfresh p eq_refl).
  assert (Hk'wf : kwf k').
  { subst k'. apply kwf_map; simpl; eauto; unfold INT_MAX; lia. }
  assert (Hreg : registered k' p).
  { subst k'. apply registered_map; auto. }
  split_and!; [done| |].
  - rewrite strom_get_mapped_gpu_memory_spec by done.
    rewrite decide_True by (by apply registered_chain_at).
    subst k'. simpl. rewrite lookup_insert_eq. eexists. split; [done|].
    simpl. by rewrite lookup_insert_eq.
  - intros q Hne. subst k'. split.
    + rewrite registered_map by done. tauto.
    + simpl. by rewrite lookup_insert_ne.
Qed.

Lemma strom_ioctl_unmap_gpu_memory_spec (k : kstate) (current h : Z) :
  kwf k →
  strom_ioctl_unmap_gpu_memory current (Some h) k =
  let index := strom_mapped_gpu_memory_index h in
  let slot := chain_at (strom_mgmem_slots k) index in
  if decide (h ∈ slot) then
    match mgmem_heap k !! h with
    | Some m =>
        let k1 := set_mgmem_slots
                    (<[index := list_del h slot]> (strom_mgmem_slots k)) k in
        if 0 <? refcnt m then
          Ok (None,
              set_mgmem_heap (<[h := set_wait_task (Some current) m]> (mgmem_heap k)) k1,
              [])
        else
          Ok (Some 0, set_mgmem_heap (delete h (mgmem_heap k)) k1,
              [EvP2PFreePageTable h; EvKfree h])
    | None => Bug
    end
  else Ok (Some (- ENOENT), k, []).
Proof.
  intros Hk. unfold strom_ioctl_unmap_gpu_memory, __strom_clenup_mapped_gpu_memory.
  unfold mbind at 1, K_bind, kbind.
  rewrite clenup_detach_spec by done. simpl.
  destruct (decide _) as [Hin|Hnin]; [|done].
  destruct (mgmem_heap k !! h) as [m|] eqn:Hm; [|done].
  destruct (0 <? refcnt m); [done|].
  unfold mbind, K_bind, kbind. rewrite clenup_release_spec. simpl.
  by rewrite Hm.
Qed.

(** An unmap of a handle that is not registered answers [-ENOENT] and
    changes nothing. *)
Theorem unmap_unknown_handle (k : kstate) (current h : Z)
    (Hk : kwf k) (Hnr : ¬ registered k h) :
  strom_ioctl_unmap_gpu_memory current (Some h) k
  = Ok (Some (- ENOENT), k, []).
Proof.
  rewrite strom_ioctl_unmap_gpu_memory_spec by done. simpl.
  rewrite decide_False; [done|]. intros Hin. apply Hnr.
  by apply registered_chain_at.
Qed.

Lemma unlinked_and_freed (k : kstate) (h : Z) :
  kwf k →
  let k' :=
    set_mgmem_heap (delete h (mgmem_heap k))
      (set_mgmem_slots
         (<[strom_mapped_gpu_memory_index h :=
              list_del h (chain_at (strom_mgmem_slots k)
                            (strom_mapped_gpu_memory_index h))]>
            (strom_mgmem_slots k)) k) in
  kwf k' ∧ ¬ registered k' h ∧
  ∀ q, q ≠ h → registered k' q ↔ registered k q.
Proof.
  intros Hk k'.
  assert (Hnr : ¬ registered
                  (set_mgmem_slots
                     (<[strom_mapped_gpu_memory_index h :=
                          list_del h (chain_at (strom_mgmem_slots k)
                                        (strom_mapped_gpu_memory_index h))]>
                        (strom_mgmem_slots k)) k) h).
  { intros [_ ?]%registered_detach; done. }
  subst k'. set (k1 := set_mgmem_slots _ k) in *.
  split_and!.
  - apply (kwf_delete k1 h); [by apply kwf_detach | done].
  - change (registered (set_mgmem_heap ?a ?k0) h) with (registered k0 h).
    exact Hnr.
  - intros q Hne.
    change (registered (set_mgmem_heap ?a ?k0) q) with (registered k0 q).
    subst k1. rewrite registered_detach by done. tauto.
Qed.

(** An unmap of a registered segment without users returns 0, frees the
    page table and the segment once each, and leaves a registry that is
    in order, no longer holds the handle, and holds every other segment
    as before. *)
Theorem unmap_idle_frees_once (k : kstate) (current h : Z)
    (m : mapped_gpu_memory)
    (Hk : kwf k) (Hreg : registered k h)
    (Hm : mgmem_heap k !! h = Some m) (Hidle : refcnt m = 0) :
  ∃ k',
    strom_ioctl_unmap_gpu_memory current (Some h) k
    = Ok (Some 0, k', [EvP2PFreePageTable h; EvKfree h]) ∧
    kwf k' ∧ mgmem_heap k' !! h = None ∧ ¬ registered k' h ∧
    ∀ q, q ≠ h →
         mgmem_heap k' !! q = mgmem_heap k !! q ∧
         (registered k' q ↔ registered k q).
Proof.
  rewrite strom_ioctl_unmap_gpu_memory_spec by done. simpl.
  rewrite decide_True by (by apply registered_chain_at).
  rewrite Hm, Hidle. simpl. eexists. split; [done|].
  destruct (unlinked_and_freed k h Hk) as (Hk' & Hnr & Hoth).
  split_and!; [done | simpl; apply lookup_delete_eq | done |].
  intros q Hne. split; [|by apply Hoth].
  simpl. by rewrite lookup_delete_ne.
Qed.

(** An unmap of a registered segment that has users unlinks it, records
    the caller as the waiter and leaves the caller asleep: nothing is
    freed, the count is as it was, and no other segment is touched. *)
Theorem unmap_with_users_sleeps (k : kstate) (current h : Z)
    (m : mapped_gpu_memory)
    (Hk : kwf k) (Hreg : registered k h)
    (Hm : mgmem_heap k !! h = Some m) (Hbusy : 0 < refcnt m) :
  ∃ k',
    strom_ioctl_unmap_gpu_memory current (Some h) k = Ok (None, k', []) ∧
    ¬ registered k' h ∧
    mgmem_heap k' !! h = Some (set_wait_task (Some current) m) ∧
    ∀ q, q ≠ h →
         mgmem_heap k' !! q = mgmem_heap k !! q ∧
         (registered k' q ↔ registered k q).
Proof.
  rewrite strom_ioctl_unmap_gpu_memory_spec by done. simpl.
  rewrite decide_True by (by apply registered_chain_at).
  rewrite Hm. replace (0 <? refcnt m) with true
    by (symmetry; by apply Z.ltb_lt).
  eexists. split; [done|]. split_and!.
  - change (registered (set_mgmem_heap ?a ?k0) h) with (registered k0 h).
    intros [_ ?]%registered_detach; done.
  - simpl. apply lookup_insert_eq.
  - intros q Hne. split.
    + simpl. by rewrite lookup_insert_ne.
    + change (registered (set_mgmem_heap ?a ?k0) q) with (registered k0 q).
      rewrite registered_detach by done. tauto.
Qed.

(** Once an unmap of a handle has returned 0, a second unmap of the
    same handle answers [-ENOENT] and changes nothing. *)
Theorem unmap_again_not_found (k k' : kstate) (current1 current2 h : Z)
    (evs : list event) (Hk : kwf k)
    (Hfirst : strom_ioctl_unmap_gpu_memory current1 (Some h) k
              = Ok (Some 0, k', evs)) :
  strom_ioctl_unmap_gpu_memory current2 (Some h) k'
  = Ok (Some (- ENOENT), k', []).
Proof.
  rewrite strom_ioctl_unmap_gpu_memory_spec in Hfirst by done.
  simpl in Hfirst.
  destruct (decide _) as [Hin|Hnin]; [|by injection Hfirst].
  destruct (mgmem_heap k !! h) as [m|] eqn:Hm; [|done].
  destruct (0 <? refcnt m) eqn:Hr; [done|]. apply Z.ltb_ge in Hr.
  destruct (unlinked_and_freed k h Hk) as (Hk' & Hnr & _).
  injection Hfirst as <- <-.
  rewrite strom_ioctl_unmap_gpu_memory_spec by done. simpl.
  rewrite decide_False; [done|]. intros Hin'. apply Hnr.
  by apply registered_chain_at.
Qed.

(** A map followed by the unmap of the handle it returned restores the
    kernel state exactly: the chain, and the heap of segments. *)
Theorem map_then_unmap_restores (k k' : kstate) (c : StromCmd__MapGpuMemory)
    (kmalloc : option Z) (tgid current : Z) (gp : p2p_get_pages_result)
    (ok : bool) (p : Z) (evs : list event)
    (Hk : kwf k)
    (Hfresh : ∀ q, kmalloc = Some q → mgmem_heap k !! q = None)
    (Hmap : strom_ioctl_map_gpu_memory (Some c) kmalloc tgid gp ok k
            = Ok ((0, Some p), k', evs)) :
  strom_ioctl_unmap_gpu_memory current (Some p) k'
  = Ok (Some 0, k, [EvP2PFreePageTable p; EvKfree p]).
Proof.
  apply strom_ioctl_map_gpu_memory_cases in Hmap
    as [(? & _)|(p' & c' & psz & [= <-] & _ & -> & [= <-] & Hc & Hk'eq & ->)];
    [done|].
  simpl in Hk'eq. specialize (Hfresh p eq_refl).
  assert (Hk' : kwf k').
  { subst k'. apply kwf_map; simpl; eauto; unfold INT_MAX; lia. }
  assert (Hlt : (strom_mapped_gpu_memory_index p
                 < length (strom_mgmem_slots k))%nat).
  { rewrite (kwf_len k Hk). apply strom_mapped_gpu_memory_index_lt. }
  rewrite strom_ioctl_unmap_gpu_memory_spec by done. subst k'. simpl.
  rewrite chain_at_insert_here by done.
  rewrite decide_True by (by left).
  rewrite lookup_insert_eq. simpl.
  rewrite decide_True by done.
  rewrite list_insert_insert_eq, delete_insert_eq, delete_id by done.
  rewrite list_insert_id by (by apply chain_at_lookup).
  by destruct k.
Qed.

(** ** Beyond the claims: what every run of the registry keeps *)

Lemma deliver_object (evs : list event) (th : gmap Z pc) (t : Z) (c : pc) :
  th !! t = Some c →
  ∃ c', deliver evs th !! t = Some c' ∧ pc_object c' = pc_object c.
Proof.
  revert th c. induction evs as [|e evs IH]; intros th c Ht; simpl; [eauto|].
  assert (∃ c1, (match e with
                 | EvWakeUpProcess t0 => wake_up_process t0 th
                 | _ => th
                 end) !! t = Some c1 ∧ pc_object c1 = pc_object c)
    as (c1 & Hc1 & Ho1).
  { destruct e; eauto. unfold wake_up_process.
    destruct (th !! task) as [[p sv|p sv|p|p]|] eqn:Htask; eauto.
    destruct (decide (t = task)) as [->|Hne].
    - rewrite lookup_insert_eq. simplify_eq. eauto.
    - rewrite lookup_insert_ne by done. eauto. }
  destruct (IH _ _ Hc1) as (c' & Hc' & Ho'). exists c'. split; [done|congruence].
Qed.

Lemma step_accounted (σ σ' : system) (l : label) (evs : list event) :
  inv σ → step σ l evs σ' →
  (∀ p m, mgmem_heap (kern σ) !! p = Some m →
          registered (kern σ) p ∨
          ∃ t c, threads σ !! t = Some c ∧ pc_object c = p) →
  ∀ p m, mgmem_heap (kern σ') !! p = Some m →
         registered (kern σ') p ∨
         ∃ t c, threads σ' !! t = Some c ∧ pc_object c = p.
Proof.
  intros Hinv Hstep Hacc q mq. pose proof (inv_kwf σ Hinv) as Hk.
  destruct Hstep as [σ t karg kmalloc tgid gp ok rc out k' evs Hfree Hfresh Hmap
                    |σ t p u k' evs Ht Hatt
                    |σ h r k' evs Hroom Hget|σ p u k' evs Hput
                    |σ t h st k' evs Hfree Hdet|σ t p sv u k' evs Ht Hres
                    |σ t p rc k' evs Ht Hrel]; simpl.
  - apply map_gpu_memory_pin_cases in Hmap
      as [(-> & -> & _)
         |(p & c & psz & -> & -> & -> & -> & Hc & _ & _ & Hk' & ->)];
      [apply Hacc|].
    simpl in Hk'. subst k'.
    change (registered (set_mgmem_heap ?a ?k0) q) with (registered k0 q).
    simpl. destruct (decide (q = p)) as [->|Hne].
    + intros _. right. exists t, (PcAttach p). by rewrite lookup_insert_eq.
    + rewrite lookup_insert_ne by done. intros Hq.
      destruct (Hacc q mq Hq) as [?|(t' & c' & Ht' & Ho)]; [by left|].
      right. exists t', c'. split; [|done].
      rewrite lookup_insert_ne; [done|]. intros <-. congruence.
  - rewrite map_gpu_memory_attach_spec in Hatt. injection Hatt as <- <- <-.
    rewrite registered_attach by done. simpl. intros Hq.
    destruct (decide (q = p)) as [->|Hne]; [auto|].
    destruct (Hacc q mq Hq) as [?|(t' & c' & Ht' & Ho)]; [auto|].
    right. exists t', c'. split; [|done].
    rewrite lookup_delete_ne; [done|]. intros <-. by simplify_eq.
  - rewrite strom_get_mapped_gpu_memory_spec in Hget by done.
    destruct (decide _) as [Hin|];
      [destruct (mgmem_heap _ !! h) as [mh|] eqn:Hmh; [|done]|];
      injection Hget as <- <- <-; [|apply Hacc].
    change (registered (set_mgmem_heap ?a ?k0) q) with (registered k0 q).
    simpl. destruct (decide (q = h)) as [->|Hne].
    + intros _. left. by apply registered_chain_at.
    + rewrite lookup_insert_ne by done. apply Hacc.
  - rewrite strom_put_mapped_gpu_memory_spec in Hput.
    destruct (mgmem_heap _ !! p) as [mp|] eqn:Hmp; [|done].
    destruct (refcnt mp <? 1); [done|]. simpl in Hput.
    intros Hq.
    assert (is_Some (mgmem_heap (kern σ) !! q)) as [m0 Hm0].
    { destruct (wait_task mp); [destruct (refcnt mp - 1 =? 0)|];
        injection Hput as <- <- <-; simpl in Hq;
        (destruct (decide (q = p)) as [->|Hne];
         [eauto | rewrite lookup_insert_ne in Hq by done; eauto]). }
    destruct (Hacc q m0 Hm0) as [Hreg|(t & c & Ht & Ho)].
    + left. destruct (wait_task mp); [destruct (refcnt mp - 1 =? 0)|];
        injection Hput as <- <- <-; exact Hreg.
    + right. destruct (deliver_object evs _ _ _ Ht) as (c' & Hc' & Ho').
      exists t, c'. split; [done | congruence].
  - rewrite clenup_detach_spec in Hdet by done. simpl in Hdet.
    destruct (decide _) as [Hin|]; [|injection Hdet as <- <- <-; apply Hacc].
    destruct (mgmem_heap _ !! h) as [mh|] eqn:Hmh; [|done].
    assert (Hcase : ∀ c0, pc_object c0 = h →
              is_Some (mgmem_heap (kern σ) !! q) →
              registered
                (set_mgmem_slots
                   (<[strom_mapped_gpu_memory_index h :=
                        list_del h (chain_at (strom_mgmem_slots (kern σ))
                                      (strom_mapped_gpu_memory_index h))]>
                      (strom_mgmem_slots (kern σ))) (kern σ)) q ∨
              ∃ t' c, <[t := c0]> (threads σ) !! t' = Some c ∧ pc_object c = q).
    { intros c0 Hc0 [m0 Hm0]. destruct (decide (q = h)) as [->|Hne].
      - right. exists t, c0. by rewrite lookup_insert_eq.
      - destruct (Hacc q m0 Hm0) as [Hreg|(t' & c & Ht' & Ho)].
        + left. by apply registered_detach.
        + right. exists t', c. split; [|done].
          rewrite lookup_insert_ne; [done|]. intros <-. congruence. }
    destruct (0 <? refcnt mh); injection Hdet as <- <- <-; simpl.
    + intros Hq. apply (Hcase (PcSleep h (wait_task mh))); [done|].
      destruct (decide (q = h)) as [->|Hne]; [eauto|].
      rewrite lookup_insert_ne in Hq by done. eauto.
    + intros Hq. apply (Hcase (PcRelease h)); [done | eauto].
  - by rewrite (clenup_resume_bug σ t p sv) in Hres.
  - rewrite clenup_release_spec in Hrel.
    destruct (mgmem_heap _ !! p) as [mp|] eqn:Hmp; [|done].
    injection Hrel as <- <- <-. simpl.
    intros [Hne Hq]%lookup_delete_Some.
    destruct (Hacc q mq Hq) as [Hreg|(t' & c & Ht' & Ho)]; [by left|].
    right. exists t', c. split; [|done].
    rewrite lookup_delete_ne; [done|]. intros <-. by simplify_eq.
Qed.

(** In every state the interleaved calls can reach: every allocated
    segment is either on a chain of the registry or in the hands of
    exactly one caller, of a teardown or of a map that has not attached
    it yet (none is lost, none is torn down twice), and a segment in
    such hands is allocated and not registered. *)
Theorem every_segment_accounted (tr : list label) (σ : system)
    (Hreach : reach tr σ) :
  (∀ p m, mgmem_heap (kern σ) !! p = Some m →
          registered (kern σ) p ∨
          ∃ t c, threads σ !! t = Some c ∧ pc_object c = p) ∧
  (∀ t1 t2 c1 c2,
      threads σ !! t1 = Some c1 → threads σ !! t2 = Some c2 →
      pc_object c1 = pc_object c2 → t1 = t2) ∧
  (∀ t c, threads σ !! t = Some c →
          is_Some (mgmem_heap (kern σ) !! pc_object c) ∧
          ¬ registered (kern σ) (pc_object c)).
Proof.
  split_and!.
  - induction Hreach as [|tr σ l evs σ' Hreach IH Hstep].
    + intros p m Hm. unfold nvme_strom_init in Hm.
      cbn [kern mgmem_heap] in Hm. by rewrite lookup_empty in Hm.
    + eapply step_accounted; eauto using reach_inv.
  - apply (inv_unique σ (reach_inv _ _ Hreach)).
  - intros t c Ht.
    destruct (inv_thread_object σ t c (reach_inv _ _ Hreach) Ht); auto.
Qed.

(** In every reachable state a caller that was put to sleep by a
    teardown sleeps on a segment whose count is positive, and once it
    is woken the count is zero, so that the assertion of line 230 stops
    it: no step resumes a teardown, and a teardown that had to wait
    never frees its segment. *)
Theorem teardown_after_sleep_halts (tr : list label) (σ : system)
    (Hreach : reach tr σ) :
  (∀ t p sv, threads σ !! t = Some (PcSleep p sv) →
             ∃ m, mgmem_heap (kern σ) !! p = Some m ∧ 0 < refcnt m ∧
                  wait_task m = Some t) ∧
  (∀ t p sv, threads σ !! t = Some (PcWoken p sv) →
             (∃ m, mgmem_heap (kern σ) !! p = Some m ∧ refcnt m = 0) ∧
             clenup_resume p sv (kern σ) = Bug) ∧
  (∀ l evs σ' t p, step σ l evs σ' → l ≠ LResume t p).
Proof.
  pose proof (reach_inv _ _ Hreach) as Hinv. split_and!.
  - intros t p sv Ht.
    destruct (inv_sleep σ Hinv t p sv Ht) as (_ & _ & m & ? & ? & ?). eauto.
  - intros t p sv Ht.
    destruct (inv_woken σ Hinv t p sv Ht) as (_ & _ & m & ? & ? & _).
    split; [eauto | by eapply clenup_resume_bug].
  - intros l evs σ' t p Hstep ->. inversion Hstep; subst.
    match goal with
    | Hres : clenup_resume _ _ _ = Ok _, Ht : threads _ !! _ = Some _ |- _ =>
        by rewrite (clenup_resume_bug _ _ _ _ Hinv Ht) in Hres
    end.
Qed.

(** ** Beyond the claims: the query ioctl when something goes wrong *)

Lemma info_copy_pages_rc (po : Z → bool) (n : Z) (rest : list Z) (i rc : Z) :
  fst (info_copy_pages i n po rest rc) = rc ∨
  fst (info_copy_pages i n po rest rc) = - EFAULT.
Proof.
  revert i. induction rest as [|a rest IH]; intros i; simpl; [auto|].
  destruct (n <=? i); [auto|]. destruct (po i); [|auto].
  specialize (IH (i + 1)). destruct (info_copy_pages _ _ _ _ _). simpl in *. auto.
Qed.

Lemma info_copy_pages_fault (po : Z → bool) (n rc : Z) (j : nat)
    (rest : list Z) (i : Z) :
  (∀ x, i ≤ x < i + Z.of_nat j → po x = true) →
  po (i + Z.of_nat j) = false → i + Z.of_nat j < n → (j < length rest)%nat →
  info_copy_pages i n po rest rc = (- EFAULT, take j rest).
Proof.
  revert rest i. induction j as [|j IH]; intros rest i Hok Hbad Hn Hlen.
  - destruct rest as [|a rest]; [simpl in Hlen; lia|]. simpl.
    replace (n <=? i) with false by (symmetry; apply Z.leb_gt; lia).
    rewrite Z.add_0_r in Hbad. by rewrite Hbad.
  - destruct rest as [|a rest]; [simpl in Hlen; lia|]. simpl.
    replace (n <=? i) with false by (symmetry; apply Z.leb_gt; lia).
    rewrite Hok by lia.
    rewrite (IH rest (i + 1)); [done| | | |simpl in Hlen; lia].
    + intros x Hx. apply Hok. lia.
    + rewrite <- Hbad. f_equal. lia.
    + lia.
Qed.

(** Whatever the command and whichever copies to the caller fault, the
    query ends without halting, emits nothing and leaves the kernel
    state as it found it (the reference it takes is always dropped);
    its code is 0, [-EFAULT] or [-ENOENT]; an unknown handle gives
    [-ENOENT] with nothing stored. *)
Theorem info_preserves_state (k : kstate)
    (karg : option StromCmd__InfoGpuMemory) (co : bool) (po : Z → bool)
    (Hk : kwf k) :
  ∃ rc buf,
    strom_ioctl_info_gpu_memory karg co po k = Ok ((rc, buf), k, []) ∧
    (rc = 0 ∨ rc = - EFAULT ∨ rc = - ENOENT) ∧
    (∀ c, karg = Some c → ¬ registered k (info_handle c) →
          rc = - ENOENT ∧ out_header buf = None ∧
          out_physical_address buf = []).
Proof.
  unfold strom_ioctl_info_gpu_memory. destruct karg as [c|].
  2: { eexists _, _. split; [done|]. split; [auto | done]. }
  unfold mbind at 1, K_bind, kbind.
  rewrite strom_get_mapped_gpu_memory_spec by done.
  destruct (decide _) as [Hin|Hnin].
  2: { eexists _, _. split; [done|]. split; [auto|]. by intros ? _ _. }
  destruct (kwf_chain_at _ _ _ Hk Hin) as [_ (m & Hm & _ & Hr & [pt Hpt] & Hw)].
  rewrite Hm.
  unfold mbind at 1, K_bind, kbind, load_mgmem. simpl.
  rewrite lookup_insert_eq. simpl. rewrite Hpt.
  pose proof (info_copy_pages_rc po (info_nrooms c) (pt_pages pt) 0
                (if co then 0 else - EFAULT)) as Hrc.
  destruct (info_copy_pages _ _ _ _ _) as [rc out]. simpl in Hrc.
  unfold mbind, K_bind, kbind.
  rewrite strom_put_mapped_gpu_memory_spec. simpl.
  rewrite lookup_insert_eq. simpl.
  replace (refcnt m + 1 <? 1) with false by (symmetry; apply Z.ltb_ge; lia).
  rewrite Hw. simpl. rewrite insert_insert_eq, set_refcnt_undo.
  rewrite insert_id by done.
  rewrite set_mgmem_heap_twice, set_mgmem_heap_id.
  eexists _, _. split; [done|]. split.
  - destruct co; destruct Hrc as [-> | ->]; auto.
  - intros c' [= <-] Hnr. destruct Hnr. by apply registered_chain_at.
Qed.

(** If the header is copied and the store of entry [j] is the first to
    fault, with [j] below both the room count and the entry count, the
    query answers [-EFAULT] after storing exactly the [j] entries before
    it. *)
Theorem info_fault_stops_copy (k : kstate) (karg : StromCmd__InfoGpuMemory)
    (m : mapped_gpu_memory) (pt : nvidia_p2p_page_table) (po : Z → bool)
    (j : nat)
    (Hk : kwf k) (Hreg : registered k (info_handle karg))
    (Hm : mgmem_heap k !! info_handle karg = Some m)
    (Hpt : page_table m = Some pt)
    (Hbefore : ∀ x, 0 ≤ x < Z.of_nat j → po x = true)
    (Hfault : po (Z.of_nat j) = false)
    (Hroom : Z.of_nat j < info_nrooms karg)
    (Hentry : (j < length (pt_pages pt))%nat) :
  strom_ioctl_info_gpu_memory (Some karg) true po k =
  Ok ((- EFAULT,
       {| out_header := Some (pt_version pt, page_size m, pt_entries pt);
          out_physical_address := take j (pt_pages pt) |}),
      k, []).
Proof.
  set (h := info_handle karg) in *.
  apply registered_chain_at in Hreg; [|done].
  destruct (kwf_chain_at _ _ _ Hk Hreg) as [_ (m0 & Hm0 & _ & Hr & _ & Hw)].
  assert (m0 = m) as -> by congruence.
  unfold strom_ioctl_info_gpu_memory. fold h.
  unfold mbind at 1, K_bind, kbind.
  rewrite strom_get_mapped_gpu_memory_spec by done.
  rewrite decide_True by done. rewrite Hm.
  unfold mbind at 1, K_bind, kbind, load_mgmem. simpl.
  rewrite lookup_insert_eq. simpl. rewrite Hpt.
  rewrite (info_copy_pages_fault po (info_nrooms karg) 0 j (pt_pages pt) 0)
    by (try done; rewrite ?Z.add_0_l; done).
  unfold mbind, K_bind, kbind.
  rewrite strom_put_mapped_gpu_memory_spec. simpl.
  rewrite lookup_insert_eq. simpl.
  replace (refcnt m + 1 <? 1) with false by (symmetry; apply Z.ltb_ge; lia).
  rewrite Hw. simpl. rewrite insert_insert_eq, set_refcnt_undo.
  rewrite insert_id by done.
  by rewrite set_mgmem_heap_twice, set_mgmem_heap_id.
Qed.

(** ** Beyond the claims: waiting for a task and completing it *)

(** The cleanup of a task id that is on no chain does nothing: no
    reference is dropped, no one is woken, nothing is freed. *)
Theorem strom_cleanup_dma_task_unknown (k : kstate) (id : Z)
    (Habs : dtask_absent k id) :
  strom_cleanup_dma_task id k = Ok (tt, k, []).
Proof.
  unfold strom_cleanup_dma_task. kunfold. by rewrite dtask_lookup_absent.
Qed.

Lemma dtask_chain_find_spec (heap : gmap Z strom_dma_task) (id : Z)
    (chain : list Z) :
  (∀ p, p ∈ chain → ∃ d, heap !! p = Some d ∧ dma_task_id d = p) →
  dtask_chain_find heap id chain
  = Ok (if decide (id ∈ chain) then Some id else None).
Proof.
  induction chain as [|a chain IH]; intros Hall.
  - simpl. destruct (decide (id ∈ [])) as [Hin|]; [|done].
    by apply elem_of_nil in Hin.
  - destruct (Hall a) as (d & Hd & Hid); [by left|].
    cbn [dtask_chain_find]. rewrite Hd.
    destruct (decide (dma_task_id d = id)) as [Heq|Hne].
    + subst. rewrite decide_True; [done | by left].
    + rewrite IH by (intros; apply Hall; by right).
      destruct (decide (id ∈ chain)) as [Hin|Hnin].
      * rewrite decide_True; [done | by right].
      * rewrite decide_False; [done|].
        intros [->|Hin]%elem_of_cons; [congruence | done].
Qed.

Lemma dwf_chain_at (k : kstate) (i : nat) (p : Z) :
  dwf k → p ∈ chain_at (strom_dma_task_slots k) i →
  i = strom_dma_task_index p ∧
  ∃ d, dtask_heap k !! p = Some d ∧ dma_task_id d = p.
Proof.
  intros Hk Hp. unfold chain_at in Hp.
  destruct (strom_dma_task_slots k !! i) as [chain|] eqn:Hi; simpl in Hp;
    [|by apply elem_of_nil in Hp].
  by apply (dwf_chain k Hk i chain p).
Qed.

(** A wait on a registered task records the caller as the waiter and
    puts it to sleep; the cleanup of the task then drops the segment
    reference, wakes that caller once and frees the task; and the
    caller, resuming, finds the task gone and returns 0. *)
Theorem wait_then_cleanup_wakes (k : kstate) (current id : Z)
    (d : strom_dma_task) (m : mapped_gpu_memory)
    (Hk : dwf k)
    (Hreg : id ∈ chain_at (strom_dma_task_slots k) (strom_dma_task_index id))
    (Hd : dtask_heap k !! id = Some d)
    (Hm : mgmem_heap k !! mgmem d = Some m) (Href : 1 ≤ refcnt m) :
  ∃ k1 k2 e_put,
    strom_memcpy_ssd2gpu_wait current id k
    = Ok (WaitSleeping id (dt_wait_task d), k1, []) ∧
    strom_cleanup_dma_task id k1
    = Ok (tt, k2,
          e_put ++ match filp d with Some f => [EvFput f] | None => [] end
                ++ [EvWakeUpProcess current] ++ [EvKfree id]) ∧
    (e_put = [] ∨
     ∃ t, e_put = [EvWakeUpProcess t] ∧ wait_task m = Some t ∧ refcnt m = 1) ∧
    refcnt <$> mgmem_heap k2 !! mgmem d = Some (refcnt m - 1) ∧
    dtask_heap k2 !! id = None ∧
    (id ∉ chain_at (strom_dma_task_slots k2) (strom_dma_task_index id)) ∧
    strom_memcpy_ssd2gpu_wait_resume id (dt_wait_task d) k2
    = Ok (0, k2, match dt_wait_task d with
                 | Some t => [EvWakeUpProcess t]
                 | None => []
                 end).
Proof.
  set (index := strom_dma_task_index id) in *.
  set (slot := chain_at (strom_dma_task_slots k) index) in *.
  assert (Hlt : (index < length (strom_dma_task_slots k))%nat).
  { rewrite (dwf_len k Hk). apply strom_dma_task_index_lt. }
  pose proof (chain_at_lookup _ _ Hlt) as Hslot. fold slot in Hslot.
  pose proof (dwf_nodup k Hk _ _ Hslot) as Hnd.
  assert (Hfind : dtask_chain_find (dtask_heap k) id slot = Ok (Some id)).
  { rewrite dtask_chain_find_spec; [by rewrite decide_True|].
    intros p Hp. by destruct (dwf_chain_at k index p Hk Hp). }
  set (d1 := set_dt_wait_task (Some current) d).
  set (k1 := set_dtask_heap (<[id := d1]> (dtask_heap k)) k).
  assert (Hwait : strom_memcpy_ssd2gpu_wait current id k
                  = Ok (WaitSleeping id (dt_wait_task d), k1, [])).
  { unfold strom_memcpy_ssd2gpu_wait. kunfold. fold index. fold slot.
    by rewrite Hfind, Hd. }
  assert (Hfind1 : dtask_chain_find (dtask_heap k1) id
                     (chain_at (strom_dma_task_slots k1) index)
                   = Ok (Some id)).
  { change (strom_dma_task_slots k1) with (strom_dma_task_slots k). fold slot.
    rewrite dtask_chain_find_spec; [by rewrite decide_True|].
    intros p Hp. destruct (dwf_chain_at k index p Hk Hp) as [_ (dp & Hdp & Hid)].
    simpl. destruct (decide (p = id)) as [->|Hne].
    - rewrite lookup_insert_eq. exists d1. split; [done|].
      simpl. congruence.
    - rewrite lookup_insert_ne by done. eauto. }
  pose proof (strom_cleanup_dma_task_found k1 id id d1 Hfind1
                ltac:(simpl; apply lookup_insert_eq)) as Hclean.
  change (strom_dma_task_slots k1) with (strom_dma_task_slots k) in Hclean.
  fold index in Hclean. fold slot in Hclean.
  rewrite strom_put_mapped_gpu_memory_spec in Hclean.
  simpl in Hclean. rewrite Hm in Hclean.
  replace (refcnt m <? 1) with false in Hclean
    by (symmetry; apply Z.ltb_ge; lia).
  assert (Hgone : ∀ heap2 : gmap Z strom_dma_task,
            (∀ p, p ≠ id → heap2 !! p = dtask_heap k !! p) →
            dtask_chain_find heap2 id (list_del id slot) = Ok None).
  { intros heap2 Hsame. apply dtask_chain_find_absent. intros p Hp.
    assert (p ≠ id) as Hne.
    { intros ->. by apply (list_del_NoDup id slot Hnd). }
    apply list_del_elem_of in Hp.
    destruct (dwf_chain_at k index p Hk Hp) as [_ (dp & Hdp & Hid)].
    exists dp. rewrite Hsame by done. split; [done | congruence]. }
  assert (Hresume : ∀ k2,
            strom_dma_task_slots k2
            = <[index := list_del id slot]> (strom_dma_task_slots k) →
            (∀ p, p ≠ id → dtask_heap k2 !! p = dtask_heap k !! p) →
            (id ∉ chain_at (strom_dma_task_slots k2) index) ∧
            strom_memcpy_ssd2gpu_wait_resume id (dt_wait_task d) k2
            = Ok (0, k2, match dt_wait_task d with
                         | Some t => [EvWakeUpProcess t]
                         | None => []
                         end)).
  { intros k2 Hs2 Hh2.
    assert (Hc2 : chain_at (strom_dma_task_slots k2) index = list_del id slot).
    { rewrite Hs2. by apply chain_at_insert_here. }
    split; [rewrite Hc2; by apply (list_del_NoDup id slot Hnd)|].
    unfold strom_memcpy_ssd2gpu_wait_resume. fold index.
    destruct (dt_wait_task d); kunfold; simpl; rewrite Hc2, (Hgone _ Hh2);
      simpl; done. }
  assert (Hheap2 : ∀ p, p ≠ id →
            delete id (<[id := d1]> (dtask_heap k)) !! p = dtask_heap k !! p).
  { intros p Hne. rewrite lookup_delete_ne, lookup_insert_ne by done. done. }
  exists k1. simpl in Hclean.
  destruct (wait_task m) as [t|] eqn:Hw;
    [destruct (refcnt m - 1 =? 0) eqn:Hz|].
  - apply Z.eqb_eq in Hz. eexists _, [EvWakeUpProcess t].
    split; [exact Hwait|]. split; [exact Hclean|].
    split; [right; exists t; split_and!; [done..|lia]|].
    split; [simpl; rewrite lookup_insert_eq; simpl; f_equal; lia|].
    split; [simpl; apply lookup_delete_eq|]. by apply Hresume.
  - eexists _, []. split; [exact Hwait|]. split; [exact Hclean|].
    split; [by left|].
    split; [simpl; by rewrite lookup_insert_eq|].
    split; [simpl; apply lookup_delete_eq|]. by apply Hresume.
  - eexists _, []. split; [exact Hwait|]. split; [exact Hclean|].
    split; [by left|].
    split; [simpl; by rewrite lookup_insert_eq|].
    split; [simpl; apply lookup_delete_eq|]. by apply Hresume.
Qed.

(** ** Beyond the claims: a submission that fails before it registers *)

Section Submission.

Variables mod_ext4_get_block mod_xfs_get_blocks : Z.

(** A negative errno survives the trip through [unsigned long]:
    [IS_ERR_VALUE] recognises it and the cast back to [long] returns
    it. *)
Lemma errno_round_trip (rc : Z) :
  - MAX_ERRNO ≤ rc < 0 →
  IS_ERR_VALUE (ulong rc) = true ∧ slong (ulong rc) = rc.
Proof.
  intros Hrc. unfold IS_ERR_VALUE, slong, ulong, MAX_ERRNO in *.
  change (2 ^ 64) with 18446744073709551616.
  change (2 ^ 63) with 9223372036854775808.
  change (- (4095) mod 18446744073709551616) with 18446744073709547521.
  replace (rc mod 18446744073709551616) with (rc + 18446744073709551616).
  2: { apply (Z.mod_unique _ _ (-1)); lia. }
  split; [apply Z.leb_le; lia|].
  replace ((rc + 18446744073709551616 + 9223372036854775808)
           mod 18446744073709551616) with (rc + 9223372036854775808).
  2: { apply (Z.mod_unique _ _ 1); lia. }
  lia.
Qed.

Lemma memcpy_submit_fails (k : kstate) (c : StromCmd__MemCpySsdToGpu)
    (fp kmalloc : option Z) (uchunks : option (list strom_dma_chunk))
    (kick : Z → K Z) :
  kwf k →
  ¬ registered k (cp_handle c) ∨ kmalloc = None ∨ uchunks = None →
  ∃ rc pre,
    memcpy_submit c fp kmalloc uchunks kick k
    = Ok (ulong rc, k,
          pre ++ match fp with Some f => [EvFput f] | None => [] end) ∧
    (rc = - ENOENT ∨ rc = - ENOMEM ∨ rc = - EFAULT) ∧
    (pre = [] ∨ ∃ dt, pre = [EvKfree dt] ∧ kmalloc = Some dt).
Proof.
  intros Hk Hfail. unfold memcpy_submit.
  unfold mbind at 1, K_bind, kbind.
  rewrite strom_get_mapped_gpu_memory_spec by done.
  destruct (decide _) as [Hin|Hnin].
  2: { exists (- ENOENT), []. split_and!; [|auto..].
       unfold memcpy_error_1. destruct fp; kunfold; done. }
  destruct (kwf_chain_at _ _ _ Hk Hin) as [_ (m & Hm & _ & Hr & _ & Hw)].
  rewrite Hm.
  assert (Hput : strom_put_mapped_gpu_memory (cp_handle c)
                   (set_mgmem_heap
                      (<[cp_handle c := set_refcnt (refcnt m + 1) m]>
                         (mgmem_heap k)) k)
                 = Ok (tt, k, [])).
  { rewrite strom_put_mapped_gpu_memory_spec. simpl.
    rewrite lookup_insert_eq. simpl.
    replace (refcnt m + 1 <? 1) with false by (symmetry; apply Z.ltb_ge; lia).
    rewrite Hw, insert_insert_eq, set_refcnt_undo, insert_id by done.
    by rewrite set_mgmem_heap_twice, set_mgmem_heap_id. }
  assert (Herr2 : ∀ rc,
            memcpy_error_2 (cp_handle c) fp rc
              (set_mgmem_heap
                 (<[cp_handle c := set_refcnt (refcnt m + 1) m]>
                    (mgmem_heap k)) k)
            = Ok (ulong rc, k,
                  match fp with Some f => [EvFput f] | None => [] end)).
  { intros rc. unfold memcpy_error_2, memcpy_error_1.
    unfold mbind at 1, K_bind, kbind. rewrite Hput.
    destruct fp; kunfold; done. }
  destruct kmalloc as [dt|].
  2: { exists (- ENOMEM), []. simpl. rewrite Herr2. auto. }
  destruct uchunks as [cs|].
  { destruct Hfail as [Hnr|[?|?]]; [|done..].
    destruct Hnr. by apply registered_chain_at. }
  exists (- EFAULT), [EvKfree dt]. simpl.
  unfold memcpy_error_3. unfold mbind at 1, K_bind, kbind, emit.
  rewrite Herr2. split_and!; [done | auto | eauto].
Qed.

Lemma strom_memcpy_ssd2gpu_async_fails (k : kstate)
    (karg : option StromCmd__MemCpySsdToGpu) (fget : Z → option (Z * file))
    (kmalloc : option Z) (uchunks : option (list strom_dma_chunk))
    (kick : Z → K Z) :
  kwf k →
  fails_before_registration mod_ext4_get_block mod_xfs_get_blocks
    k karg fget kmalloc uchunks →
  ∃ rc pre,
    strom_memcpy_ssd2gpu_async mod_ext4_get_block mod_xfs_get_blocks
      karg fget kmalloc uchunks kick k
    = Ok (ulong rc, k,
          pre ++ match source_file_taken karg fget with
                 | Some f => [EvFput f]
                 | None => []
                 end) ∧
    - MAX_ERRNO ≤ rc < 0 ∧
    (pre = [] ∨ ∃ dt, pre = [EvKfree dt] ∧ kmalloc = Some dt).
Proof.
  intros Hk Hfail.
  assert (Hcodes : ∀ rc, rc = - ENOENT ∨ rc = - ENOMEM ∨ rc = - EFAULT →
                         - MAX_ERRNO ≤ rc < 0).
  { intros rc [-> | [-> | ->]]; done. }
  assert (Hfin : ∀ rc pre evs,
            - MAX_ERRNO ≤ rc < 0 →
            (pre = [] ∨ ∃ dt, pre = [EvKfree dt] ∧ kmalloc = Some dt) →
            strom_memcpy_ssd2gpu_async mod_ext4_get_block mod_xfs_get_blocks
              karg fget kmalloc uchunks kick k
            = Ok (ulong rc, k, pre ++ evs) →
            evs = match source_file_taken karg fget with
                  | Some f => [EvFput f]
                  | None => []
                  end →
            ∃ rc pre,
              strom_memcpy_ssd2gpu_async mod_ext4_get_block mod_xfs_get_blocks
                karg fget kmalloc uchunks kick k
              = Ok (ulong rc, k,
                    pre ++ match source_file_taken karg fget with
                           | Some f => [EvFput f]
                           | None => []
                           end) ∧
              - MAX_ERRNO ≤ rc < 0 ∧
              (pre = [] ∨ ∃ dt, pre = [EvKfree dt] ∧ kmalloc = Some dt)).
  { intros rc pre evs Hrange Hpre Heq ->. exists rc, pre.
    split_and!; try done; lia. }
  unfold strom_memcpy_ssd2gpu_async, fails_before_registration,
    source_file_taken in *.
  destruct karg as [c|].
  2: { by apply (Hfin (- EFAULT) [] []); auto. }
  simpl in Hfail. destruct (0 <=? cp_fdesc c) eqn:Hfd.
  - destruct (fget (cp_fdesc c)) as [[fp f]|] eqn:Hf; simpl.
    2: { by apply (Hfin (- EBADF) [] []); auto. }
    destruct Hfail as (rc0 & Hsup & Hfail).
    pose proof (source_file_is_supported_range
                  mod_ext4_get_block mod_xfs_get_blocks f rc0 Hsup) as Hr.
    rewrite Hsup in Hfin |- *.
    destruct (rc0 <? 0) eqn:Hs.
    + apply Z.ltb_lt in Hs.
      apply (Hfin rc0 [] [EvFput fp]); [|auto| |done].
      * destruct Hr as [Hr | [Hr | Hr]]; rewrite Hr in *; done.
      * by kunfold.
    + apply Z.ltb_ge in Hs.
      destruct (memcpy_submit_fails k c (Some fp) kmalloc uchunks kick Hk)
        as (rc & pre & Hsub & Hrc & Hpre).
      { destruct Hfail as [?|?]; [lia | done]. }
      by apply (Hfin rc pre [EvFput fp]); auto.
  - destruct (memcpy_submit_fails k c None kmalloc uchunks kick Hk Hfail)
      as (rc & pre & Hsub & Hrc & Hpre).
    by apply (Hfin rc pre []); auto.
Qed.

(** A submission on a file without a block device halts inside the
    check of the file: it neither returns nor releases the file. *)
Lemma submission_on_file_without_block_device_halts (k : kstate)
    (c : StromCmd__MemCpySsdToGpu) (fget : Z → option (Z * file))
    (fp : Z) (f : file) (kmalloc : option Z)
    (uchunks : option (list strom_dma_chunk)) (kick : Z → K Z) :
  0 ≤ cp_fdesc c → fget (cp_fdesc c) = Some (fp, f) → s_bdev f = None →
  strom_memcpy_ssd2gpu_async mod_ext4_get_block mod_xfs_get_blocks
    (Some c) fget kmalloc uchunks kick k = Bug.
Proof.
  intros Hfd Hf Hb. unfold strom_memcpy_ssd2gpu_async.
  replace (0 <=? cp_fdesc c) with true by (symmetry; by apply Z.leb_le).
  rewrite Hf.
  by rewrite (proj2 (source_file_is_supported_halts
                       mod_ext4_get_block mod_xfs_get_blocks f) Hb).
Qed.

(** A submission that stops before the task is registered (faulting
    command, bad descriptor, rejected file, unknown handle, no memory,
    faulting chunk array) returns a negative errno as an error value
    and leaves the kernel state as it found it: the segment reference
    it may have taken is dropped again, the file reference it may have
    taken is released once, and nothing but the task it may have
    allocated is freed. *)
Theorem submission_failure_releases_everything (k : kstate)
    (karg : option StromCmd__MemCpySsdToGpu) (fget : Z → option (Z * file))
    (kmalloc : option Z) (uchunks : option (list strom_dma_chunk))
    (kick : Z → K Z)
    (Hk : kwf k)
    (Hfail : fails_before_registration mod_ext4_get_block mod_xfs_get_blocks
               k karg fget kmalloc uchunks) :
  ∃ rc pre,
    strom_memcpy_ssd2gpu_async mod_ext4_get_block mod_xfs_get_blocks
      karg fget kmalloc uchunks kick k
    = Ok (ulong rc, k,
          pre ++ match source_file_taken karg fget with
                 | Some f => [EvFput f]
                 | None => []
                 end) ∧
    - MAX_ERRNO ≤ rc < 0 ∧
    IS_ERR_VALUE (ulong rc) = true ∧ slong (ulong rc) = rc ∧
    (pre = [] ∨ ∃ dt, pre = [EvKfree dt] ∧ kmalloc = Some dt).
Proof.
  destruct (strom_memcpy_ssd2gpu_async_fails k karg fget kmalloc uchunks
              kick Hk Hfail) as (rc & pre & Hsub & Hrc & Hpre).
  destruct (errno_round_trip rc Hrc) as [Herr Hback].
  exists rc, pre. split_and!; try done; lia.
Qed.

(** When the submission stops before it registers, both copy ioctls
    return that negative errno to the caller at once, without waiting
    and without storing a task id, and the kernel state is unchanged. *)
Theorem copy_ioctls_return_submission_error (k : kstate) (current : Z)
    (karg : option StromCmd__MemCpySsdToGpu) (fget : Z → option (Z * file))
    (kmalloc : option Z) (uchunks : option (list strom_dma_chunk))
    (kick : Z → K Z) (put_user_ok : bool)
    (Hk : kwf k)
    (Hfail : fails_before_registration mod_ext4_get_block mod_xfs_get_blocks
               k karg fget kmalloc uchunks) :
  ∃ rc evs,
    - MAX_ERRNO ≤ rc < 0 ∧
    strom_ioctl_memcpy_ssd2gpu mod_ext4_get_block mod_xfs_get_blocks
      current karg fget kmalloc uchunks kick put_user_ok k
    = Ok (IoctlReturned rc, k, evs) ∧
    strom_ioctl_memcpy_ssd2gpu_async mod_ext4_get_block mod_xfs_get_blocks
      current karg fget kmalloc uchunks kick put_user_ok k
    = Ok (IoctlReturned rc, k, evs) ∧
    ∀ t, EvWakeUpProcess t ∉ evs.
Proof.
  destruct (strom_memcpy_ssd2gpu_async_fails k karg fget kmalloc uchunks
              kick Hk Hfail) as (rc & pre & Hsub & Hrc & Hpre).
  destruct (errno_round_trip rc Hrc) as [Herr Hback].
  eexists rc, _. split; [done|].
  unfold strom_ioctl_memcpy_ssd2gpu, strom_ioctl_memcpy_ssd2gpu_async.
  unfold mbind, K_bind, kbind. rewrite Hsub, Herr, Hback.
  unfold mret, K_ret, kret. rewrite app_nil_r. split_and!; [done..|].
  intros t [Hin|Hin]%elem_of_app.
  - destruct Hpre as [-> | (dt & -> & _)]; [by apply elem_of_nil in Hin|].
    by apply list_elem_of_singleton in Hin.
  - destruct (source_file_taken karg fget);
      [by apply list_elem_of_singleton in Hin | by apply elem_of_nil in Hin].
Qed.

End Submission.

End StromProofs.

(** ** The concrete run is a run of the system *)

#[local] Existing Instance sample_hash.

Lemma reach_pinned : reach tr_pinned s_pinned.
Proof.
  apply (reach_step [] _ _
           [EvP2PGetPages 4096 0x7f0000010000 0x42345] _ reach_init).
  apply (step_pin {| kern := nvme_strom_init; threads := ∅ |} 5
           (Some sample_cmd) (Some 4096) 100
           (sample_pin NVIDIA_P2P_PAGE_SIZE_64KB) true 0 (Some 4096) k_pinned).
  - apply lookup_empty.
  - intros p _. apply lookup_empty.
  - vm_compute. reflexivity.
Qed.

Lemma step_attach_pinned (th : gmap Z pc) :
  th !! 5 = Some (PcAttach 4096) →
  step {| kern := k_pinned; threads := th |} (LMapAttach 5 4096) []
    {| kern := k_mapped; threads := delete 5 th |}.
Proof.
  intros Hth.
  apply (step_attach {| kern := k_pinned; threads := th |} 5 4096 tt k_mapped).
  - exact Hth.
  - vm_compute. reflexivity.
Qed.

Lemma reach_mapped : reach tr_mapped s_mapped.
Proof.
  apply (reach_step tr_pinned s_pinned (LMapAttach 5 4096) [] s_mapped
           reach_pinned).
  apply (step_attach_pinned (threads s_pinned)). vm_compute. reflexivity.
Qed.

(** The revocation callback for the object at 4096 runs after the pin
    and before the attach: it finds nothing, and the map goes on. *)
Lemma reach_revoked_early : reach tr_revoked_early s_mapped.
Proof.
  apply (reach_step (tr_pinned ++ [LClenup 7 4096 ClenupNotFound]) s_pinned
           (LMapAttach 5 4096) [] s_mapped).
  - apply (reach_step tr_pinned s_pinned (LClenup 7 4096 ClenupNotFound) []
             s_pinned reach_pinned).
    apply (step_clenup s_pinned 7 4096 ClenupNotFound k_pinned).
    + vm_compute. reflexivity.
    + vm_compute. reflexivity.
  - apply (step_attach_pinned (threads s_pinned)). vm_compute. reflexivity.
Qed.

Lemma reach_in_use : reach tr_in_use s_in_use.
Proof.
  apply (reach_step _ _ _ [] _ reach_mapped).
  apply (step_get s_mapped 4096 (Some 4096) k_in_use).
  - intros m _ Hm. vm_compute in Hm. injection Hm as <-. reflexivity.
  - vm_compute. reflexivity.
Qed.

Lemma reach_unlinked : reach tr_unlinked s_unlinked.
Proof.
  apply (reach_step _ _ _ [] _ reach_in_use).
  apply (step_clenup s_in_use 7 4096 (ClenupSleep 4096 None) k_unlinked).
  - apply lookup_empty.
  - vm_compute. reflexivity.
Qed.

Lemma step_drain :
  step s_unlinked (LPut 4096) [EvWakeUpProcess 7] s_drained.
Proof.
  apply (step_put s_unlinked 4096 tt k_drained). vm_compute. reflexivity.
Qed.



(** ** The claims on the concrete run *)


(** C6 on the run [tr_revoked_early].  Task 5 maps: the pages are
    pinned and the handle 4096 is copied out (lines 276 to 352).  The
    NVIDIA driver revokes the pages at once and calls the callback with
    that handle: [__strom_clenup_mapped_gpu_memory] finds no entry and
    returns.  Task 5 then attaches the object (lines 355 to 358).  The
    registry now holds a handle that is not mapped, a later teardown of
    which has already returned, and every lookup of it succeeds. *)
Theorem teardown_during_map_is_lost :
  reach tr_revoked_early s_mapped ∧
  tr_revoked_early
  = [LMapPin 5 0 (Some 4096); LClenup 7 4096 ClenupNotFound;
     LMapAttach 5 4096] ∧
  registered (kern s_mapped) 4096 ∧
  (4096 ∉ currently_mapped tr_revoked_early) ∧
  (4096 ∈ attached_after_teardown tr_revoked_early) ∧
  strom_get_mapped_gpu_memory 4096 (kern s_mapped) = Ok (Some 4096, k_in_use, []).
Proof.
  split; [exact reach_revoked_early|]. split; [reflexivity|].
  split.
  { exists (strom_mapped_gpu_memory_index 4096), [4096].
    split; [vm_compute; reflexivity | apply list_elem_of_here]. }
  split; [vm_compute; discriminate|].
  split; vm_compute; reflexivity.
Qed.

Lemma release_only_decrements_and_wakes_waiter_witness :
  reach tr_unlinked s_unlinked ∧
  step s_unlinked (LPut 4096) [EvWakeUpProcess 7] s_drained ∧
  threads s_drained !! 7 = Some (PcWoken 4096 None).
Proof.
  split; [exact reach_unlinked|]. split; [exact step_drain|].
  destruct (release_only_decrements_and_wakes_waiter _ _ _ _ _
              reach_unlinked step_drain) as [_ Hwake].
  destruct (Hwake 4096
              {| refcnt := 1; owner := 100; handle := 4096;
                 map_address := 0x7f0000010000; map_offset := 0x2345;
                 map_length := 0x42345; wait_task := Some 7;
                 page_size := 65536;
                 page_table := Some (sample_table NVIDIA_P2P_PAGE_SIZE_64KB) |}
              7 eq_refl) as (_ & _ & Ht).
  - vm_compute. reflexivity.
  - reflexivity.
  - reflexivity.
  - exact Ht.
Defined.

Lemma failed_map_leaves_registry_witness :
  let failing :=
    strom_ioctl_map_gpu_memory (Some sample_cmd) (Some 12288) 100
      (sample_pin NVIDIA_P2P_PAGE_SIZE_64KB) false in
  failing k_mapped
  = Ok ((- EFAULT, None), run failing k_mapped,
        [EvP2PGetPages 12288 0x7f0000010000 0x42345;
         EvP2PPutPages 12288; EvKfree 12288]) ∧
  run failing k_mapped = k_mapped.
Proof.
  intros failing.
  assert (Hmap : failing k_mapped
                 = Ok ((- EFAULT, None), run failing k_mapped,
                       [EvP2PGetPages 12288 0x7f0000010000 0x42345;
                        EvP2PPutPages 12288; EvKfree 12288])).
  { vm_compute. reflexivity. }
  split; [exact Hmap|].
  destruct (failed_map_leaves_registry _ _ _ _ _ _ _ _ _ _ Hmap) as [Hsame _].
  destruct Hsame as [Hk _]; [discriminate | exact Hk].
Defined.


Lemma map_records_offset_and_length_witness :
  0 ≤ vaddress sample_cmd < 2 ^ 64 ∧
  ∃ m, mgmem_heap k_mapped !! 4096 = Some m ∧
       map_offset m = vaddress sample_cmd mod 65536 ∧
       map_address m = vaddress sample_cmd - vaddress sample_cmd mod 65536 ∧
       map_address m mod 65536 = 0 ∧
       map_length m = (map_offset m + cmd_length sample_cmd) mod 2 ^ 64 ∧
       (0 ≤ cmd_length sample_cmd →
        vaddress sample_cmd + cmd_length sample_cmd < 2 ^ 64 →
        map_address m + map_length m
        = vaddress sample_cmd + cmd_length sample_cmd).
Proof.
  assert (Hv : 0 ≤ vaddress sample_cmd < 2 ^ 64).
  { split; [discriminate | reflexivity]. }
  split; [exact Hv|].
  apply (map_records_offset_and_length nvme_strom_init k_mapped sample_cmd
           (Some 4096) 100 (sample_pin NVIDIA_P2P_PAGE_SIZE_64KB) true 4096
           [EvP2PGetPages 4096 0x7f0000010000 0x42345] Hv).
  vm_compute. reflexivity.
Defined.

Lemma info_truncates_without_error_witness :
  registered k_mapped 4096 ∧
  strom_ioctl_info_gpu_memory
    (Some {| info_handle := 4096; info_nrooms := 2 |}) true (λ _, true) k_mapped
  = Ok ((0, {| out_header := Some (1, 65536, 5);
               out_physical_address := [0x100000; 0x110000] |}),
        k_mapped, []).
Proof.
  assert (Hreg : registered k_mapped 4096).
  { exists (strom_mapped_gpu_memory_index 4096), [4096].
    split; [vm_compute; reflexivity | apply list_elem_of_here]. }
  split; [exact Hreg|].
  refine (info_truncates_without_error k_mapped
            {| info_handle := 4096; info_nrooms := 2 |}
            {| refcnt := 0; owner := 100; handle := 4096;
               map_address := 0x7f0000010000; map_offset := 0x2345;
               map_length := 0x42345; wait_task := None; page_size := 65536;
               page_table := Some (sample_table NVIDIA_P2P_PAGE_SIZE_64KB) |}
            (sample_table NVIDIA_P2P_PAGE_SIZE_64KB) (λ _, true)
            (inv_kwf _ (reach_inv _ _ reach_mapped)) Hreg _ _ _).
  - vm_compute. reflexivity.
  - reflexivity.
  - reflexivity.
Defined.

Lemma dtask_absent_init (id : Z) : dtask_absent nvme_strom_init id.
Proof.
  intros i chain p Hi Hp. unfold nvme_strom_init in Hi.
  cbn [strom_dma_task_slots] in Hi.
  apply lookup_replicate in Hi as [-> _]. by apply elem_of_nil in Hp.
Qed.

Lemma dtask_absent_with_task : dtask_absent k_with_task 5.
Proof.
  intros i chain p Hi Hp. unfold k_with_task in Hi.
  cbn [strom_dma_task_slots set_dtask_slots] in Hi.
  assert (strom_dma_task_slots k_in_use
          = replicate (Z.to_nat STROM_DMA_TASK_NSLOTS) []) as Hslots
    by (vm_compute; reflexivity).
  rewrite Hslots in Hi.
  destruct (decide (i = strom_dma_task_index 8192)) as [->|Hne].
  - rewrite list_lookup_insert_eq in Hi
      by (rewrite length_replicate; apply strom_dma_task_index_lt).
    injection Hi as <-. apply list_elem_of_singleton in Hp as ->.
    exists sample_dtask. split; [vm_compute; reflexivity | discriminate].
  - rewrite list_lookup_insert_ne in Hi by done.
    apply lookup_replicate in Hi as [-> _]. by apply elem_of_nil in Hp.
Qed.

Lemma wait_unregistered_returns_ENOENT_witness :
  dtask_absent k_with_task 5 ∧
  strom_ioctl_memcpy_ssd2gpu_wait 7 (Some 5) k_with_task
  = Ok (WaitReturned (- ENOENT), k_with_task, []).
Proof.
  split; [exact dtask_absent_with_task|].
  exact (proj2 (wait_unregistered_returns_ENOENT k_with_task 7 5
                  dtask_absent_with_task)).
Defined.

(** C2 as stated fails: with nothing registered, a wait on task 1 is
    not reported as a success. *)
Lemma wait_unregistered_not_success :
  dtask_absent nvme_strom_init 1 ∧ ¬ wait_reports_success nvme_strom_init 7 1.
Proof.
  split; [apply dtask_absent_init|].
  intros (k' & evs & Hwait). vm_compute in Hwait. discriminate.
Qed.

(** C3 as stated fails: 256 KiB mapped at 0x7f0000012345 on 64 KiB
    device pages is recorded with [map_length = 0x42345], not a whole
    number of pages. *)
Lemma map_length_not_rounded_up :
  sample_map nvme_strom_init
  = Ok ((0, Some 4096), k_mapped,
        [EvP2PGetPages 4096 0x7f0000010000 0x42345]) ∧
  ∃ m, mgmem_heap k_mapped !! 4096 = Some m ∧ page_size m = 65536 ∧
       map_length m = 271173 ∧ ¬ map_length_grid_aligned m.
Proof.
  split; [vm_compute; reflexivity|].
  eexists. split; [vm_compute; reflexivity|].
  split_and!; [reflexivity..|]. unfold map_length_grid_aligned. simpl.
  discriminate.
Qed.

(** C4 on a task that holds a pinned page: the cleanup unlinks the
    task, drops the segment reference, calls [fput] and
    [wake_up_process] once each and frees the task; the page at 0x7000
    recorded on [dma_pages_list] is not released. *)
Theorem strom_cleanup_dma_task_leaves_pages_pinned :
  dtask_heap k_with_task !! 8192 = Some sample_dtask ∧
  pages <$> dma_pages_list sample_dtask = [[0x7000]] ∧
  ∃ k', strom_cleanup_dma_task 8192 k_with_task
        = Ok (tt, k', [EvFput 3; EvWakeUpProcess 9; EvKfree 8192]) ∧
        dtask_heap k' !! 8192 = None ∧
        chain_at (strom_dma_task_slots k') (strom_dma_task_index 8192) = [] ∧
        refcnt <$> mgmem_heap k_with_task !! 4096 = Some 1 ∧
        refcnt <$> mgmem_heap k' !! 4096 = Some 0 ∧
        EvPutPage 0x7000 ∉ [EvFput 3; EvWakeUpProcess 9; EvKfree 8192].
Proof.
  split; [vm_compute; reflexivity|]. split; [reflexivity|].
  exists (run (strom_cleanup_dma_task 8192) k_with_task).
  split_and!; try (vm_compute; reflexivity).
  intros Hin. repeat (apply elem_of_cons in Hin as [Hin|Hin]; [discriminate|]).
  by apply elem_of_nil in Hin.
Qed.

(** C1 on one source page: [submit_memcpy_page2gpu] hands back the chain
    it was given and leaves the state alone, so nothing is submitted,
    where the coalescing of the specification emits one descriptor that
    covers the 4096 requested bytes. *)
Theorem submit_memcpy_page2gpu_emits_no_descriptor :
  submit_memcpy_page2gpu [] 0x2000 sample_dstate = ([], sample_dstate) ∧
  spec_coalesce (gpu_page_sz sample_dstate) (gpu_pages sample_dstate)
    (curr_offset sample_dstate) [(0x2000, 4096)]
  = [{| d_src_addr := 0x2000; d_src_len := 4096;
        d_dst_addr := 0x100000; d_dst_len := 4096 |}].
Proof. split; reflexivity. Qed.

(** ** The specification's coalescing on its own scenarios *)

Example spec_coalesce_three_chunks_one_page :
  spec_coalesce 65536 [0x100000] 0
    [(0x2000, 4096); (0x3000, 4096); (0x4000, 4096)]
  = [{| d_src_addr := 0x2000; d_src_len := 12288;
        d_dst_addr := 0x100000; d_dst_len := 12288 |}].
Proof. reflexivity. Qed.

Example spec_coalesce_straddle :
  spec_coalesce 65536 [0x100000; 0x300000] 32768 [(0x40000, 65536)]
  = [{| d_src_addr := 0x40000; d_src_len := 32768;
        d_dst_addr := 0x108000; d_dst_len := 32768 |};
     {| d_src_addr := 0x48000; d_src_len := 32768;
        d_dst_addr := 0x300000; d_dst_len := 32768 |}].
Proof. reflexivity. Qed.

Example k_mapped_lookup :
  mgmem_heap k_mapped !! 4096 =
  Some {| refcnt := 0; owner := 100; handle := 4096;
          map_address := 0x7f0000010000; map_offset := 0x2345;
          map_length := 0x42345; wait_task := None; page_size := 65536;
          page_table := Some (sample_table NVIDIA_P2P_PAGE_SIZE_64KB) |}.
Proof. vm_compute. reflexivity. Qed.

(** The unmap ioctl on the concrete run: an idle segment is unlinked and
    freed; a second unmap finds nothing; with a user in flight the
    caller is left asleep, and once the user is gone the assertion of
    line 230 stops it. *)
Example unmap_idle :
  strom_ioctl_unmap_gpu_memory 7 (Some 4096) k_mapped
  = Ok (Some 0, run (clenup_release 4096) k_idle_unlinked,
        [EvP2PFreePageTable 4096; EvKfree 4096]).
Proof. vm_compute. reflexivity. Qed.

Example unmap_twice :
  strom_ioctl_unmap_gpu_memory 7 (Some 4096)
    (run (clenup_release 4096) k_idle_unlinked)
  = Ok (Some (- ENOENT), run (clenup_release 4096) k_idle_unlinked, []).
Proof. vm_compute. reflexivity. Qed.

Example unmap_in_use_sleeps :
  strom_ioctl_unmap_gpu_memory 7 (Some 4096) k_in_use
  = Ok (None, k_unlinked, []).
Proof. vm_compute. reflexivity. Qed.

Example unmap_woken_hits_assertion :
  clenup_resume 4096 None k_drained = Bug.
Proof. vm_compute. reflexivity. Qed.

(** ** Beyond the claims, on the concrete run *)

Example nvme_names :
  is_nvme_disk_name ["n"; "v"; "m"; "e"; "0"; "n"; "1"]%char = true ∧
  is_nvme_disk_name ["n"; "v"; "m"; "e"; "1"; "2"; "n"; "3"; "4"]%char = true ∧
  is_nvme_disk_name ["n"; "v"; "m"; "e"; "0"; "n"; "1"; "p"; "1"]%char = false ∧
  is_nvme_disk_name ["n"; "v"; "m"; "e"; "n"; "1"]%char = false ∧
  is_nvme_disk_name ["n"; "v"; "m"; "e"; "0"; "n"]%char = false ∧
  is_nvme_disk_name ["s"; "d"; "a"]%char = false.
Proof. repeat split; reflexivity. Qed.

Lemma strom_get_block_dispatches_witness :
  source_file_is_supported 0xa000 0xb000 sample_file = Ok 0 ∧
  strom_get_block sample_ext4_get_block sample_xfs_get_blocks sample_file 7 0
  = (0, 1007).
Proof.
  assert (Hok : source_file_is_supported 0xa000 0xb000 sample_file = Ok 0)
    by reflexivity.
  split; [exact Hok|].
  exact (strom_get_block_dispatches 0xa000 0xb000 sample_ext4_get_block
           sample_xfs_get_blocks sample_file 7 0 Hok).
Defined.

Lemma strom_proc_read_window_witness :
  strom_proc_read (Some sample_entry) 100 2 true
  = (3, 5, [Byte.x6c; Byte.x6c; Byte.x6f]).
Proof.
  refine (proj1 (strom_proc_read_window sample_entry 100 2 _ _ _ _));
    try split; (discriminate || reflexivity).
Defined.

Lemma strom_proc_read_sequential_witness :
  strom_proc_read (Some sample_entry) (2 + 100) 0 true
  = (2 + 3, 5, [Byte.x68; Byte.x65] ++ [Byte.x6c; Byte.x6c; Byte.x6f]).
Proof.
  refine (strom_proc_read_sequential sample_entry 2 100 0 _ _ _ _ _ _);
    try split; (discriminate || reflexivity).
Defined.

Lemma kwf_mapped : kwf k_mapped.
Proof. exact (inv_kwf _ (reach_inv _ _ reach_mapped)). Qed.

Lemma kwf_in_use : kwf k_in_use.
Proof. exact (inv_kwf _ (reach_inv _ _ reach_in_use)). Qed.

Lemma registered_mapped : registered k_mapped 4096.
Proof.
  exists (strom_mapped_gpu_memory_index 4096), [4096].
  split; [vm_compute; reflexivity | apply list_elem_of_here].
Qed.

Lemma registered_in_use : registered k_in_use 4096.
Proof.
  exists (strom_mapped_gpu_memory_index 4096), [4096].
  split; [vm_compute; reflexivity | apply list_elem_of_here].
Qed.

Lemma get_then_put_restores_witness :
  registered k_mapped 4096 ∧
  strom_put_mapped_gpu_memory 4096 k_in_use = Ok (tt, k_mapped, []).
Proof.
  split; [exact registered_mapped|].
  destruct (get_then_put_restores k_mapped 4096 kwf_mapped registered_mapped)
    as (k1 & Hget & _ & Hput).
  assert (k1 = k_in_use) as <-; [|exact Hput].
  assert (Hrun : strom_get_mapped_gpu_memory 4096 k_mapped
                 = Ok (Some 4096, k_in_use, [])) by (vm_compute; reflexivity).
  rewrite Hrun in Hget. by injection Hget.
Defined.

Lemma sample_map_ok :
  strom_ioctl_map_gpu_memory (Some sample_cmd) (Some 4096) 100
    (sample_pin NVIDIA_P2P_PAGE_SIZE_64KB) true nvme_strom_init
  = Ok ((0, Some 4096), k_mapped,
        [EvP2PGetPages 4096 0x7f0000010000 0x42345]).
Proof. vm_compute. reflexivity. Qed.

Lemma sample_fresh (q : Z) :
  Some 4096 = Some q → mgmem_heap nvme_strom_init !! q = None.
Proof. intros _. apply lookup_empty. Qed.

Lemma map_then_lookup_witness :
  kwf nvme_strom_init ∧
  ∃ k'', strom_get_mapped_gpu_memory 4096 k_mapped = Ok (Some 4096, k'', []) ∧
         refcnt <$> mgmem_heap k'' !! 4096 = Some 1.
Proof.
  split; [exact kwf_init|].
  exact (proj1 (proj2 (map_then_lookup nvme_strom_init k_mapped sample_cmd
                         (Some 4096) 100 (sample_pin NVIDIA_P2P_PAGE_SIZE_64KB)
                         true 4096 _ kwf_init sample_fresh sample_map_ok))).
Defined.

Lemma map_then_unmap_restores_witness :
  kwf nvme_strom_init ∧
  strom_ioctl_unmap_gpu_memory 7 (Some 4096) k_mapped
  = Ok (Some 0, nvme_strom_init, [EvP2PFreePageTable 4096; EvKfree 4096]).
Proof.
  split; [exact kwf_init|].
  exact (map_then_unmap_restores nvme_strom_init k_mapped sample_cmd
           (Some 4096) 100 7 (sample_pin NVIDIA_P2P_PAGE_SIZE_64KB)
           true 4096 _ kwf_init sample_fresh sample_map_ok).
Defined.

Lemma not_registered_12288 : ¬ registered k_mapped 12288.
Proof.
  intros Hreg. apply (registered_chain_at k_mapped 12288 kwf_mapped) in Hreg.
  vm_compute in Hreg. by apply elem_of_nil in Hreg.
Qed.

Lemma unmap_unknown_handle_witness :
  ¬ registered k_mapped 12288 ∧
  strom_ioctl_unmap_gpu_memory 7 (Some 12288) k_mapped
  = Ok (Some (- ENOENT), k_mapped, []).
Proof.
  split; [exact not_registered_12288|].
  exact (unmap_unknown_handle k_mapped 7 12288 kwf_mapped not_registered_12288).
Defined.

Lemma k_mapped_segment :
  mgmem_heap k_mapped !! 4096 =
  Some {| refcnt := 0; owner := 100; handle := 4096;
          map_address := 0x7f0000010000; map_offset := 0x2345;
          map_length := 0x42345; wait_task := None; page_size := 65536;
          page_table := Some (sample_table NVIDIA_P2P_PAGE_SIZE_64KB) |}.
Proof. vm_compute. reflexivity. Qed.

Lemma k_in_use_segment :
  mgmem_heap k_in_use !! 4096 =
  Some {| refcnt := 1; owner := 100; handle := 4096;
          map_address := 0x7f0000010000; map_offset := 0x2345;
          map_length := 0x42345; wait_task := None; page_size := 65536;
          page_table := Some (sample_table NVIDIA_P2P_PAGE_SIZE_64KB) |}.
Proof. vm_compute. reflexivity. Qed.

Lemma unmap_idle_frees_once_witness :
  registered k_mapped 4096 ∧
  ∃ k', strom_ioctl_unmap_gpu_memory 7 (Some 4096) k_mapped
        = Ok (Some 0, k', [EvP2PFreePageTable 4096; EvKfree 4096]) ∧
        mgmem_heap k' !! 4096 = None.
Proof.
  split; [exact registered_mapped|].
  destruct (unmap_idle_frees_once k_mapped 7 4096 _ kwf_mapped
              registered_mapped k_mapped_segment eq_refl)
    as (k' & Hun & _ & Hgone & _).
  exists k'. split; [exact Hun | exact Hgone].
Defined.

Lemma unmap_with_users_sleeps_witness :
  registered k_in_use 4096 ∧
  ∃ k', strom_ioctl_unmap_gpu_memory 7 (Some 4096) k_in_use
        = Ok (None, k', []) ∧
        wait_task <$> mgmem_heap k' !! 4096 = Some (Some 7).
Proof.
  split; [exact registered_in_use|].
  destruct (unmap_with_users_sleeps k_in_use 7 4096 _ kwf_in_use
              registered_in_use k_in_use_segment eq_refl)
    as (k' & Hun & _ & Hm & _).
  exists k'. split; [exact Hun|]. by rewrite Hm.
Defined.

Lemma unmap_mapped_run :
  strom_ioctl_unmap_gpu_memory 7 (Some 4096) k_mapped
  = Ok (Some 0, nvme_strom_init, [EvP2PFreePageTable 4096; EvKfree 4096]).
Proof. vm_compute. reflexivity. Qed.

Lemma unmap_again_not_found_witness :
  kwf k_mapped ∧
  strom_ioctl_unmap_gpu_memory 8 (Some 4096) nvme_strom_init
  = Ok (Some (- ENOENT), nvme_strom_init, []).
Proof.
  split; [exact kwf_mapped|].
  exact (unmap_again_not_found k_mapped nvme_strom_init 7 8 4096 _ kwf_mapped
           unmap_mapped_run).
Defined.

Lemma reach_drained : reach (tr_unlinked ++ [LPut 4096]) s_drained.
Proof. exact (reach_step _ _ _ _ _ reach_unlinked step_drain). Qed.

Lemma every_segment_accounted_witness :
  reach tr_unlinked s_unlinked ∧
  (registered (kern s_unlinked) 4096 ∨
   ∃ t c, threads s_unlinked !! t = Some c ∧ pc_object c = 4096).
Proof.
  split; [exact reach_unlinked|].
  refine (proj1 (every_segment_accounted _ _ reach_unlinked) 4096
            {| refcnt := 1; owner := 100; handle := 4096;
               map_address := 0x7f0000010000; map_offset := 0x2345;
               map_length := 0x42345; wait_task := Some 7;
               page_size := 65536;
               page_table := Some (sample_table NVIDIA_P2P_PAGE_SIZE_64KB) |}
            _).
  vm_compute. reflexivity.
Defined.

Lemma teardown_after_sleep_halts_witness :
  reach (tr_unlinked ++ [LPut 4096]) s_drained ∧
  clenup_resume 4096 None (kern s_drained) = Bug.
Proof.
  split; [exact reach_drained|].
  refine (proj2 (proj1 (proj2 (teardown_after_sleep_halts _ _ reach_drained))
                   7 4096 None _)).
  vm_compute. reflexivity.
Defined.

Lemma info_preserves_state_witness :
  kwf k_mapped ∧
  ∃ rc buf,
    strom_ioctl_info_gpu_memory
      (Some {| info_handle := 4096; info_nrooms := 3 |}) false
      (λ i, i <? 2) k_mapped
    = Ok ((rc, buf), k_mapped, []).
Proof.
  split; [exact kwf_mapped|].
  destruct (info_preserves_state k_mapped
              (Some {| info_handle := 4096; info_nrooms := 3 |}) false
              (λ i, i <? 2) kwf_mapped) as (rc & buf & Hinfo & _).
  exists rc, buf. exact Hinfo.
Defined.

Lemma info_fault_stops_copy_witness :
  registered k_mapped 4096 ∧
  strom_ioctl_info_gpu_memory
    (Some {| info_handle := 4096; info_nrooms := 4 |}) true
    (λ i, i <? 2) k_mapped
  = Ok ((- EFAULT,
         {| out_header := Some (1, 65536, 5);
            out_physical_address := [0x100000; 0x110000] |}),
        k_mapped, []).
Proof.
  split; [exact registered_mapped|].
  refine (info_fault_stops_copy k_mapped
            {| info_handle := 4096; info_nrooms := 4 |} _
            (sample_table NVIDIA_P2P_PAGE_SIZE_64KB) (λ i, i <? 2) 2
            kwf_mapped registered_mapped k_mapped_segment eq_refl _ _ _ _).
  - intros x Hx. apply Z.ltb_lt. lia.
  - reflexivity.
  - reflexivity.
  - simpl. lia.
Defined.

Lemma strom_cleanup_dma_task_unknown_witness :
  dtask_absent k_with_task 5 ∧
  strom_cleanup_dma_task 5 k_with_task = Ok (tt, k_with_task, []).
Proof.
  split; [exact dtask_absent_with_task|].
  exact (strom_cleanup_dma_task_unknown k_with_task 5 dtask_absent_with_task).
Defined.

Lemma dwf_with_task : dwf k_with_task.
Proof.
  assert (strom_dma_task_slots k_in_use
          = replicate (Z.to_nat STROM_DMA_TASK_NSLOTS) []) as Hslots
    by (vm_compute; reflexivity).
  assert (Hcase : ∀ i chain,
            strom_dma_task_slots k_with_task !! i = Some chain →
            chain = [] ∨ (i = strom_dma_task_index 8192 ∧ chain = [8192])).
  { intros i chain Hi. unfold k_with_task in Hi.
    cbn [strom_dma_task_slots set_dtask_slots] in Hi. rewrite Hslots in Hi.
    destruct (decide (i = strom_dma_task_index 8192)) as [->|Hne].
    - rewrite list_lookup_insert_eq in Hi
        by (rewrite length_replicate; apply strom_dma_task_index_lt).
      injection Hi as <-. auto.
    - rewrite list_lookup_insert_ne in Hi by done.
      apply lookup_replicate in Hi as [-> _]. auto. }
  split.
  - unfold k_with_task. cbn [strom_dma_task_slots set_dtask_slots].
    rewrite length_insert, Hslots. apply length_replicate.
  - intros i chain p Hi Hp.
    destruct (Hcase i chain Hi) as [-> | [-> ->]];
      [by apply elem_of_nil in Hp|].
    apply list_elem_of_singleton in Hp as ->. split; [done|].
    exists sample_dtask. split; [vm_compute; reflexivity | reflexivity].
  - intros i chain Hi.
    destruct (Hcase i chain Hi) as [-> | [-> ->]]; [constructor|].
    apply NoDup_singleton.
Qed.

Lemma wait_then_cleanup_wakes_witness :
  dwf k_with_task ∧
  ∃ k1 k2 e_put,
    strom_memcpy_ssd2gpu_wait 11 8192 k_with_task
    = Ok (WaitSleeping 8192 (Some 9), k1, []) ∧
    strom_cleanup_dma_task 8192 k1
    = Ok (tt, k2, e_put ++ [EvFput 3] ++ [EvWakeUpProcess 11] ++ [EvKfree 8192]) ∧
    strom_memcpy_ssd2gpu_wait_resume 8192 (Some 9) k2
    = Ok (0, k2, [EvWakeUpProcess 9]).
Proof.
  split; [exact dwf_with_task|].
  destruct (wait_then_cleanup_wakes k_with_task 11 8192 sample_dtask
              {| refcnt := 1; owner := 100; handle := 4096;
                 map_address := 0x7f0000010000; map_offset := 0x2345;
                 map_length := 0x42345; wait_task := None; page_size := 65536;
                 page_table := Some (sample_table NVIDIA_P2P_PAGE_SIZE_64KB) |}
              dwf_with_task)
    as (k1 & k2 & e_put & Hwait & Hclean & _ & _ & _ & _ & Hres).
  - vm_compute. apply list_elem_of_here.
  - vm_compute. reflexivity.
  - vm_compute. reflexivity.
  - simpl. lia.
  - exists k1, k2, e_put. split_and!; [exact Hwait | exact Hclean | exact Hres].
Defined.

Lemma sample_copy_fails :
  fails_before_registration 0xa000 0xb000 k_mapped (Some sample_copy)
    sample_fget (Some 8192) None.
Proof.
  exists 0. split; [reflexivity|]. right. right. right. reflexivity.
Qed.

Lemma submission_failure_releases_everything_witness :
  kwf k_mapped ∧
  ∃ rc pre,
    strom_memcpy_ssd2gpu_async 0xa000 0xb000 (Some sample_copy) sample_fget
      (Some 8192) None (λ _, mret 0) k_mapped
    = Ok (ulong rc, k_mapped, pre ++ [EvFput 0xf000]) ∧
    - MAX_ERRNO ≤ rc < 0.
Proof.
  split; [exact kwf_mapped|].
  destruct (submission_failure_releases_everything 0xa000 0xb000 k_mapped
              (Some sample_copy) sample_fget (Some 8192) None (λ _, mret 0)
              kwf_mapped sample_copy_fails)
    as (rc & pre & Hsub & Hrc & _).
  exists rc, pre. split; [exact Hsub | exact Hrc].
Defined.

Lemma copy_ioctls_return_submission_error_witness :
  kwf k_mapped ∧
  ∃ rc evs,
    - MAX_ERRNO ≤ rc < 0 ∧
    strom_ioctl_memcpy_ssd2gpu 0xa000 0xb000 7 (Some sample_copy) sample_fget
      (Some 8192) None (λ _, mret 0) true k_mapped
    = Ok (IoctlReturned rc, k_mapped, evs).
Proof.
  split; [exact kwf_mapped|].
  destruct (copy_ioctls_return_submission_error 0xa000 0xb000 k_mapped 7
              (Some sample_copy) sample_fget (Some 8192) None (λ _, mret 0)
              true kwf_mapped sample_copy_fails)
    as (rc & evs & Hrc & Hsync & _).
  exists rc, evs. split; [exact Hrc | exact Hsync].
Defined.

Example submission_with_faulting_chunks :
  strom_memcpy_ssd2gpu_async 0xa000 0xb000 (Some sample_copy) sample_fget
    (Some 8192) None (λ _, mret 0) k_mapped
  = Ok (ulong (- EFAULT), k_mapped, [EvKfree 8192; EvFput 0xf000]).
Proof. vm_compute. reflexivity. Qed.

(** A descriptor on tmpfs: both the check-file ioctl and the submission
    halt at line 455, and the file reference taken by [fget] is not
    released. *)
Example check_file_without_block_device :
  strom_ioctl_check_file 0xa000 0xb000 (Some 4)
    (λ fd, if fd =? 4 then Some (0xf100, sample_tmpfs_file) else None)
  = Bug ∧
  strom_memcpy_ssd2gpu_async 0xa000 0xb000
    (Some {| cp_handle := 4096; cp_fdesc := 4; cp_nchunks := 1 |})
    (λ fd, if fd =? 4 then Some (0xf100, sample_tmpfs_file) else None)
    (Some 8192) (Some []) (λ _, mret 0) k_mapped
  = Bug.
Proof. split; reflexivity. Qed.

(** The counter at [INT_MAX]: one more acquire stores [INT_MIN], and
    the release that follows runs into the assertion of line 163.  The
    runs of [step] stop short of this. *)
Example acquire_at_INT_MAX :
  let full := run (store_mgmem 4096
                     {| refcnt := INT_MAX; owner := 100; handle := 4096;
                        map_address := 0x7f0000010000; map_offset := 0x2345;
                        map_length := 0x42345; wait_task := None;
                        page_size := 65536;
                        page_table :=
                          Some (sample_table NVIDIA_P2P_PAGE_SIZE_64KB) |})
                  k_mapped in
  let wrapped := run (strom_get_mapped_gpu_memory 4096) full in
  refcnt <$> mgmem_heap wrapped !! 4096 = Some (- 2147483648) ∧
  strom_put_mapped_gpu_memory 4096 wrapped = Bug.
Proof. split; vm_compute; reflexivity. Qed.
